(** * Levery market simulation: fee engine, temporal matcher, oracle walk
      and trade pagination

    A shallow embedding of the two scripts of the repository.  The main
    simulation (the 90 day script with the rounds cache, the retries and the
    efficiency figure) is in [Simulation] (per swap computation and report)
    and [Oracle] (history of the price feed); the earlier one day script
    [app.js] is in [App] and [AppOracle]; [fetchSwaps], the same text in
    both scripts, is in [Ingestor].

    Conventions of the embedding.
    - A JavaScript number is a value of [JsNum.num]: an exact rational, one
      of the two infinities, or NaN.  Arithmetic on finite values is exact
      (no binary64 rounding, overflow or underflow) and the two zeros are
      not told apart; division by zero, arithmetic on infinities and NaN
      follow IEEE 754 as JavaScript has it.  Finite results are kept in
      lowest terms, so that equal numbers are equal terms.
    - Timestamps and round identifiers are integers.  Where the source keeps
      them as decimal strings or big numbers ([roundId.toString()],
      [parseInt(p.timestamp)], the [updatedAt] of a round) the value is
      identified with the integer it spells.  The one place where the source
      compares two of them as strings, the filter of the matcher of
      [app.js], is embedded as a comparison of their decimal strings
      ([toString]).
    - [log] and [console.log] calls are left out: none of them can throw
      ([toFixed] is only called on numbers, with 2 or 6 digits).
    - The external services (price feed, subgraph, rounds file) are
      parameters: a record of functions for the feed, a function from
      requests to answers for the subgraph, and a world that holds the
      rounds file and the requests sent. *)

From Stdlib Require Import ZArith QArith Qabs Qreduction List Ascii String Bool Lia Lqa.
From Equations Require Import Equations.
Import ListNotations.

Set Implicit Arguments.
Open Scope Z_scope.

(** ** JavaScript numbers *)

Module JsNum.

Inductive num : Type :=
| Fin (q : Q)
| PInf
| NInf
| NaN.

(** Sign of a rational: [Gt] positive, [Eq] zero, [Lt] negative. *)
Definition sgn (q : Q) : comparison := (Qnum q ?= 0)%Z.

(** The infinity of a given sign; a zero sign stands for an undefined
    form such as [0 / 0] or [0 * Infinity]. *)
Definition inf_of (c : comparison) : num :=
  match c with Gt => PInf | Lt => NInf | Eq => NaN end.

Definition neg (a : num) : num :=
  match a with
  | Fin q => Fin (- q)
  | PInf => NInf
  | NInf => PInf
  | NaN => NaN
  end.

Definition add (a b : num) : num :=
  match a, b with
  | NaN, _ | _, NaN => NaN
  | Fin x, Fin y => Fin (Qred (x + y))
  | PInf, NInf | NInf, PInf => NaN
  | PInf, _ | _, PInf => PInf
  | NInf, _ | _, NInf => NInf
  end.

Definition sub (a b : num) : num := add a (neg b).

Definition mul (a b : num) : num :=
  match a, b with
  | NaN, _ | _, NaN => NaN
  | Fin x, Fin y => Fin (Qred (x * y))
  | Fin x, PInf | PInf, Fin x => inf_of (sgn x)
  | Fin x, NInf | NInf, Fin x => inf_of (CompOpp (sgn x))
  | PInf, PInf | NInf, NInf => PInf
  | PInf, NInf | NInf, PInf => NInf
  end.

Definition div (a b : num) : num :=
  match a, b with
  | NaN, _ | _, NaN => NaN
  | Fin x, Fin y =>
      match sgn y with
      | Eq => inf_of (sgn x)
      | _ => Fin (Qred (x / y))
      end
  | Fin _, (PInf | NInf) => Fin 0
  | PInf, Fin y => match sgn y with Lt => NInf | _ => PInf end
  | NInf, Fin y => match sgn y with Lt => PInf | _ => NInf end
  | (PInf | NInf), (PInf | NInf) => NaN
  end.

(** [Math.abs] *)
Definition abs (a : num) : num :=
  match a with
  | Fin q => Fin (Qabs q)
  | PInf | NInf => PInf
  | NaN => NaN
  end.

(** [a < b]: false as soon as one side is NaN. *)
Definition ltb (a b : num) : bool :=
  match a, b with
  | NaN, _ | _, NaN => false
  | Fin x, Fin y => match x ?= y with Lt => true | _ => false end
  | PInf, _ | _, NInf => false
  | NInf, _ | _, PInf => true
  end%Q.

Definition gtb (a b : num) : bool := ltb b a.

(** [a <= b] *)
Definition leb (a b : num) : bool :=
  match a, b with
  | NaN, _ | _, NaN => false
  | Fin x, Fin y => match x ?= y with Gt => false | _ => true end
  | NInf, _ | _, PInf => true
  | PInf, _ | _, NInf => false
  end%Q.

Definition geb (a b : num) : bool := leb b a.

(** [a === b] on numbers. *)
Definition eqb (a b : num) : bool :=
  match a, b with
  | Fin x, Fin y => Qeq_bool x y
  | PInf, PInf | NInf, NInf => true
  | _, _ => false
  end.

Definition is_nan (a : num) : bool :=
  match a with NaN => true | _ => false end.

(** [Number.isFinite] *)
Definition is_finite (a : num) : bool :=
  match a with Fin _ => true | _ => false end.


Definition is_zero (a : num) : bool :=
  match a with Fin q => Qeq_bool q 0 | _ => false end.

Definition of_Z (z : Z) : num := Fin (inject_Z z).

End JsNum.

Import JsNum.

Declare Scope js_scope.
Delimit Scope js_scope with js.
Bind Scope js_scope with num.
Infix "+" := add : js_scope.
Infix "-" := sub : js_scope.
Infix "*" := mul : js_scope.
Infix "/" := div : js_scope.
Notation "- x" := (neg x) : js_scope.

Local Open Scope js_scope.

(** Numeric literals of the source. *)
Definition n0 : num := Fin 0.
Definition n1 : num := Fin 1.
Definition n60 : num := Fin 60.
Definition n100 : num := Fin 100.
Definition n0_05 : num := Fin (1 # 20).
Definition n0_9 : num := Fin (9 # 10).

(** ** Exceptions *)

Inductive result (A : Type) : Type :=
| Ok (a : A)
| Throw (msg : string).
Arguments Throw {A} msg.

Definition bind {A B} (r : result A) (k : A -> result B) : result B :=
  match r with
  | Ok a => k a
  | Throw m => Throw m
  end.

Notation "x <- e ;; k" := (bind e (fun x => k))
  (at level 61, e at next level, right associativity).

(** ** The "N/A" sentinel

    A field of the report that holds either a value or the string ["N/A"]. *)

Inductive marked (A : Type) : Type :=
| Val (a : A)
| NA.
Arguments NA {A}.

(** [chainlinkPrice !== "N/A"] *)
Definition available {A} (f : marked A) : bool :=
  match f with Val _ => true | NA => false end.

(** Coercion of the field to a number when it is an operand of [-] or [/]:
    the string ["N/A"] is not a numeric literal, so it converts to NaN. *)
Definition to_number (f : marked num) : num :=
  match f with Val n => n | NA => NaN end.

(** ** Dates

    [new Date(ms).toISOString()] throws a RangeError when [ms] is outside
    the range of time values.  The text of the string is a function of
    [ms]; the embedding keeps [ms] itself. *)

Definition MAX_TIME_VALUE : Z := 8640000000000000.

Definition IsoString : Type := Z.

Definition toISOString (ms : Z) : result IsoString :=
  if Z.abs ms <=? MAX_TIME_VALUE then Ok ms
  else Throw "Invalid time value".

(** ** Decimal strings

    [BigNumber.prototype.toString()], and the strings in which the subgraph
    sends its integers: the decimal digits, most significant first, with a
    minus sign for a negative integer. *)

Definition digitChar (d : Z) : ascii := ascii_of_nat (48 + Z.to_nat d).

(** The number of decimal digits of [n], for [0 <= n]; [fuel] is a bound on
    the number of digits after the first. *)
Fixpoint width (fuel : nat) (n : Z) : nat :=
  match fuel with
  | O => 1%nat
  | S fuel' => if n <? 10 then 1%nat else S (width fuel' (n / 10))
  end.

(** The [k] low decimal digits of [n], most significant first. *)
Fixpoint digits (k : nat) (n : Z) : string :=
  match k with
  | O => EmptyString
  | S k' => String (digitChar ((n / 10 ^ Z.of_nat k') mod 10)) (digits k' n)
  end.

(** The digits of [n], for [0 <= n]: a number has no more decimal digits
    than binary ones. *)
Definition decimal (n : Z) : string :=
  digits (width (Z.to_nat (Z.log2 n)) n) n.

Definition toString (z : Z) : string :=
  if z <? 0 then String "-"%char (decimal (- z)) else decimal z.

(** ** Arrays

    [Array.prototype.sort] with a comparator, as a stable insertion sort:
    [cmp a b <= 0] keeps [a] before [b]. *)

Section ArraySort.
Variable A : Type.
Variable cmp : A -> A -> Z.

Fixpoint insert (x : A) (l : list A) : list A :=
  match l with
  | [] => [x]
  | y :: l' => if (cmp x y <=? 0)%Z then x :: l else y :: insert x l'
  end.

Fixpoint sort (l : list A) : list A :=
  match l with
  | [] => []
  | x :: l' => insert x (sort l')
  end.

End ArraySort.

(** ** Records of the data model *)

(** One swap of the subgraph page.  [amount0] and [amount1] stand for
    [parseFloat(swap.amount0)] and [parseFloat(swap.amount1)]. *)
Module Swap.
Record t : Type := make {
  id : string;
  amount0 : num;
  amount1 : num;
  timestamp : Z;
  transaction : string
}.
End Swap.

(** One entry of [prices] / [rounds.json]. *)
Module PriceData.
Record t : Type := make {
  roundId : Z;
  timestamp : Z;
  price : num
}.
End PriceData.

(** ** The temporal matcher

    [chainlinkPrices.filter((p) => parseInt(p.timestamp) <= swap.timestamp)
       .sort((a, b) => parseInt(b.timestamp) - parseInt(a.timestamp))[0]],
    the matcher of the 90 day script, with numeric comparisons throughout.
    It is generic in the entry type: the comparator of the sort is also the
    one of [app.js], whose entries have a different shape and whose filter
    is in [App]. *)

Section Matcher.
Variable P : Type.
Variable ts : P -> Z.

(** The comparator of the sort: later observations first. *)
Definition byTimestampDesc (a b : P) : Z := (ts b - ts a)%Z.

Definition findChainlinkPriceData (chainlinkPrices : list P) (swapTimestamp : Z)
  : option P :=
  hd_error
    (sort byTimestampDesc
          (filter (fun p => (ts p <=? swapTimestamp)%Z) chainlinkPrices)).

End Matcher.

(** ** The main simulation: per swap computation and report *)

Module Simulation.

Definition LP_FEE_MULTIPLIER : num := Fin 70.

(** [swapData], one element of [resultData.swaps].  The two hook price
    properties are optional: the source sets one or the other. *)
Module SwapData.
Record t : Type := make {
  swapTimestamp : IsoString;
  transactionHash : string;
  amount0 : num;
  amount1 : num;
  price : num;
  isBuyingETH : bool;
  isSellingETH : bool;
  chainlinkPrice : marked num;
  chainlinkTimestamp : marked IsoString;
  timeDifference : marked Z;
  priceDifferencePercent : num;
  dynamicLeveryFeePercent : num;
  standardFee : num;
  dynamicLeveryFee : num;
  leveryEfficiencyPercent : num;
  leveryHookPricePlusFee : option num;
  leveryHookPriceMinusFee : option num
}.
End SwapData.

Module ResultData.
Record t : Type := make {
  totalSwaps : num;
  totalVolumeETH : num;
  totalVolumeUSDC : num;
  totalStandardFee : num;
  totalDynamicLeveryFee : num;
  averageLeveryEfficiencyPercent : num;
  swaps : list SwapData.t
}.
End ResultData.

(** The object literal [resultData] starts from. *)
Definition initialResultData : ResultData.t :=
  ResultData.make n0 n0 n0 n0 n0 n0 [].

(** What the [for] loop of [main] carries from one swap to the next:
    [resultData], mutated in place, and the three local accumulators. *)
Record LoopState : Type := mkLoop {
  resultData : ResultData.t;
  totalStandardFee : num;
  totalDynamicLeveryFee : num;
  totalLeveryEfficiencyPercent : num
}.

Definition initialLoopState : LoopState :=
  mkLoop initialResultData n0 n0 n0.

(** The direction test and the traded price:
    [(price, ETH volume, USDC volume, isBuyingETH, isSellingETH)]. *)
Definition direction (amount0 amount1 : num) : num * num * num * bool * bool :=
  if ltb amount0 n0
  then (- amount0 / amount1, amount1, - amount0, true, false)
  else (amount0 / - amount1, - amount1, amount0, false, true).

(** [let dynamicLeveryFeePercent = 0.05; ... if (chainlinkPrice !== "N/A") {...}] *)
Definition dynamicFeePercent (price : num) (chainlinkPrice : marked num) : num :=
  let dynamicLeveryFeePercent := n0_05 in
  match chainlinkPrice with
  | Val cp =>
      let priceDifferencePercent := ((price - cp) / cp) * n100 in
      let priceDifferencePercent := abs priceDifferencePercent in
      dynamicLeveryFeePercent + (priceDifferencePercent * LP_FEE_MULTIPLIER) / n100
  | NA => dynamicLeveryFeePercent
  end.

(** [Math.abs(amount0) > Math.abs(amount1) ? Math.abs(amount0) : Math.abs(amount1)] *)
Definition swapAmountOf (amount0 amount1 : num) : num :=
  if gtb (abs amount0) (abs amount1) then abs amount0 else abs amount1.

(** The body of the loop up to [let swapData = {...}]: the record pushed on
    [resultData.swaps].  It throws only where a date is out of range. *)
Definition computeSwapData (chainlinkPrices : list PriceData.t) (swap : Swap.t)
  : result SwapData.t :=
  swapTimestamp <- toISOString (Swap.timestamp swap * 1000)%Z ;;
  let amount0 := Swap.amount0 swap in
  let amount1 := Swap.amount1 swap in
  let '(price, _, _, isBuyingETH, isSellingETH) := direction amount0 amount1 in
  let chainlinkPriceData :=
    findChainlinkPriceData PriceData.timestamp chainlinkPrices (Swap.timestamp swap) in
  let chainlinkPrice :=
    match chainlinkPriceData with
    | Some d => Val (PriceData.price d)
    | None => NA
    end in
  chainlinkTimestamp <-
    match chainlinkPriceData with
    | Some d => iso <- toISOString (PriceData.timestamp d * 1000)%Z ;; Ok (Val iso)
    | None => Ok NA
    end ;;
  let timeDifference :=
    match chainlinkPriceData with
    | Some d => Val (Z.abs (Swap.timestamp swap - PriceData.timestamp d))
    | None => NA
    end in
  let dynamicLeveryFeePercent := dynamicFeePercent price chainlinkPrice in
  let leveryHookPricePlusFee := price + (price * dynamicLeveryFeePercent) / n100 in
  let leveryHookPriceMinusFee := price - (price * dynamicLeveryFeePercent) / n100 in
  let standardFeePercent := n0_05 in
  let swapAmount := swapAmountOf amount0 amount1 in
  let standardFee := (swapAmount * standardFeePercent) / n100 in
  let dynamicLeveryFee := (swapAmount * dynamicLeveryFeePercent) / n100 in
  let leveryEfficiencyPercent :=
    if isBuyingETH then
      ((to_number chainlinkPrice - leveryHookPricePlusFee) / to_number chainlinkPrice) * n100
    else if isSellingETH then
      ((leveryHookPriceMinusFee - to_number chainlinkPrice) / to_number chainlinkPrice) * n100
    else n0 in
  Ok (SwapData.make swapTimestamp (Swap.transaction swap) amount0 amount1 price
        isBuyingETH isSellingETH chainlinkPrice chainlinkTimestamp timeDifference
        (((price - to_number chainlinkPrice) / to_number chainlinkPrice) * n100)
        dynamicLeveryFeePercent standardFee dynamicLeveryFee leveryEfficiencyPercent
        (if isBuyingETH then Some leveryHookPricePlusFee else None)
        (if isBuyingETH then None
         else if isSellingETH then Some leveryHookPriceMinusFee else None)).

(** One iteration of [for (const swap of swaps)]. *)
Definition processSwap (chainlinkPrices : list PriceData.t) (st : LoopState)
  (swap : Swap.t) : result LoopState :=
  swapData <- computeSwapData chainlinkPrices swap ;;
  let '(_, volumeETH, volumeUSDC, _, _) :=
    direction (Swap.amount0 swap) (Swap.amount1 swap) in
  let r := resultData st in
  Ok (mkLoop
        (ResultData.make
           (ResultData.totalSwaps r + n1)
           (ResultData.totalVolumeETH r + volumeETH)
           (ResultData.totalVolumeUSDC r + volumeUSDC)
           (ResultData.totalStandardFee r)
           (ResultData.totalDynamicLeveryFee r)
           (ResultData.averageLeveryEfficiencyPercent r)
           (ResultData.swaps r ++ [swapData]))
        (totalStandardFee st + SwapData.standardFee swapData)
        (totalDynamicLeveryFee st + SwapData.dynamicLeveryFee swapData)
        (totalLeveryEfficiencyPercent st + SwapData.leveryEfficiencyPercent swapData)).

Fixpoint processSwaps (chainlinkPrices : list PriceData.t) (st : LoopState)
  (swaps : list Swap.t) : result LoopState :=
  match swaps with
  | [] => Ok st
  | swap :: rest =>
      st' <- processSwap chainlinkPrices st swap ;;
      processSwaps chainlinkPrices st' rest
  end.

(** The three assignments after the loop. *)
Definition finalize (st : LoopState) : ResultData.t :=
  let r := resultData st in
  ResultData.make
    (ResultData.totalSwaps r)
    (ResultData.totalVolumeETH r)
    (ResultData.totalVolumeUSDC r)
    (totalStandardFee st)
    (totalDynamicLeveryFee st)
    (totalLeveryEfficiencyPercent st / ResultData.totalSwaps r)
    (ResultData.swaps r).

(** The part of [main] that follows the two retrievals: the report written
    to the output file, or the error caught by the [try]. *)
Definition report (chainlinkPrices : list PriceData.t) (swaps : list Swap.t)
  : result ResultData.t :=
  st <- processSwaps chainlinkPrices initialLoopState swaps ;;
  Ok (finalize st).

End Simulation.

(** ** The one day script, [app.js]

    Same fee amounts; the dynamic fee percent and the hook price follow a
    different formula, and there is no efficiency figure.  The matcher is the
    same expression without the [parseInt]: [p.timestamp] is the [updatedAt]
    of the round, a big number object, and [swap.timestamp] is a string, so
    the [<=] of the filter compares two strings, character by character,
    while the subtraction of the comparator, the date and the gap are
    numeric. *)

Module App.

(** An entry of [prices]: no round identifier is kept. *)
Module PriceData.
Record t : Type := make {
  timestamp : Z;
  price : num
}.
End PriceData.

Module SwapData.
Record t : Type := make {
  swapTimestamp : IsoString;
  transactionHash : string;
  amount0 : num;
  amount1 : num;
  price : num;
  isBuyingETH : bool;
  isSellingETH : bool;
  chainlinkPrice : marked num;
  chainlinkTimestamp : marked IsoString;
  timeDifference : marked Z;
  priceDifferencePercent : num;
  dynamicLeveryFeePercent : num;
  leveryHookPricePlusFee : num;
  standardFee : num;
  dynamicLeveryFee : num
}.
End SwapData.

(** The two variables set by the block that starts at
    [let dynamicLeveryFeePercent = 0.05]:
    [(priceDifferencePercent, dynamicLeveryFeePercent)]. *)
Definition dynamicFee (price : num) (isBuyingETH isSellingETH : bool)
  (chainlinkPrice : marked num) : num * num :=
  let dynamicLeveryFeePercent := n0_05 in
  let priceDifferencePercent := n0 in
  match chainlinkPrice with
  | Val cp =>
      let priceDifferencePercent := ((price - cp) / cp) * n100 in
      let priceDifferencePercent := abs priceDifferencePercent in
      if gtb cp price && isBuyingETH then
        (priceDifferencePercent, dynamicLeveryFeePercent + n0_9 * priceDifferencePercent)
      else if ltb cp price && isSellingETH then
        (priceDifferencePercent, dynamicLeveryFeePercent + n0_9 * priceDifferencePercent)
      else (priceDifferencePercent, dynamicLeveryFeePercent)
  | NA => (priceDifferencePercent, dynamicLeveryFeePercent)
  end.

(** [chainlinkPrices.filter((p) => p.timestamp <= swap.timestamp)
       .sort((a, b) => b.timestamp - a.timestamp)[0]] *)
Definition findChainlinkPriceData (chainlinkPrices : list PriceData.t)
  (swapTimestamp : Z) : option PriceData.t :=
  hd_error
    (sort (byTimestampDesc PriceData.timestamp)
          (filter (fun p => String.leb (toString (PriceData.timestamp p))
                                       (toString swapTimestamp))
                  chainlinkPrices)).

Definition computeSwapData (chainlinkPrices : list PriceData.t) (swap : Swap.t)
  : result SwapData.t :=
  swapTimestamp <- toISOString (Swap.timestamp swap * 1000)%Z ;;
  let amount0 := Swap.amount0 swap in
  let amount1 := Swap.amount1 swap in
  let '(price, _, _, isBuyingETH, isSellingETH) :=
    Simulation.direction amount0 amount1 in
  let chainlinkPriceData :=
    findChainlinkPriceData chainlinkPrices (Swap.timestamp swap) in
  let chainlinkPrice :=
    match chainlinkPriceData with
    | Some d => Val (PriceData.price d)
    | None => NA
    end in
  chainlinkTimestamp <-
    match chainlinkPriceData with
    | Some d => iso <- toISOString (PriceData.timestamp d * 1000)%Z ;; Ok (Val iso)
    | None => Ok NA
    end ;;
  let timeDifference :=
    match chainlinkPriceData with
    | Some d => Val (Z.abs (Swap.timestamp swap - PriceData.timestamp d))
    | None => NA
    end in
  let '(priceDifferencePercent, dynamicLeveryFeePercent) :=
    dynamicFee price isBuyingETH isSellingETH chainlinkPrice in
  let leveryHookPricePlusFee := price + n0_9 * priceDifferencePercent in
  let standardFeePercent := n0_05 in
  let swapAmount := Simulation.swapAmountOf amount0 amount1 in
  let standardFee := (swapAmount * standardFeePercent) / n100 in
  let dynamicLeveryFee := (swapAmount * dynamicLeveryFeePercent) / n100 in
  Ok (SwapData.make swapTimestamp (Swap.transaction swap) amount0 amount1 price
        isBuyingETH isSellingETH chainlinkPrice chainlinkTimestamp timeDifference
        (((price - to_number chainlinkPrice) / to_number chainlinkPrice) * n100)
        dynamicLeveryFeePercent leveryHookPricePlusFee standardFee dynamicLeveryFee).

End App.

(** ** The oracle history builder

    The price feed is an external contract.  [getRoundData] may fail (a
    rejected call or the 30 s timeout of the race), and its answer may depend
    on the calls made before, which is what a retry relies on.  The world of
    the builder is the rounds file and the list of round identifiers
    requested so far, latest first. *)

Module Oracle.

Definition MAX_RETRIES : nat := 5.
Definition EXTRA_ROUNDS : nat := 5.

Record RoundData : Type := mkRound {
  updatedAt : Z;
  answer : Z
}.

Record PriceFeed : Type := mkFeed {
  latestRound : Z;
  getRoundData : list Z -> Z -> result RoundData;
  decimals : nat
}.

Record World : Type := mkWorld {
  roundsFile : option (list PriceData.t);
  requested : list Z
}.

(** State and exception monad of the builder. *)
Definition M (A : Type) : Type := World -> result A * World.

Definition ret {A} (a : A) : M A := fun w => (Ok a, w).

Definition bindM {A B} (m : M A) (k : A -> M B) : M B :=
  fun w =>
    match m w with
    | (Ok a, w') => k a w'
    | (Throw e, w') => (Throw e, w')
    end.

Notation "x <~ e ;; k" := (bindM e (fun x => k))
  (at level 61, e at next level, right associativity).

(** One call of [priceFeed.getRoundData(roundId)], raced against the timer. *)
Definition callGetRoundData (feed : PriceFeed) (roundId : Z) : M RoundData :=
  fun w =>
    (getRoundData feed (requested w) roundId,
     mkWorld (roundsFile w) (roundId :: requested w)).

(** The [for] loop of [fetchRoundDataWithRetry]; [more] is
    [MAX_RETRIES - attempt], the number of attempts left after this one. *)
Fixpoint attemptFrom (more : nat) (feed : PriceFeed) (roundId : Z) : M RoundData :=
  fun w =>
    match callGetRoundData feed roundId w with
    | (Ok d, w') => (Ok d, w')
    | (Throw e, w') =>
        match more with
        | O => (Throw e, w')
        | S m => attemptFrom m feed roundId w'
        end
    end.

Definition fetchRoundDataWithRetry (feed : PriceFeed) (roundId : Z) : M RoundData :=
  attemptFrom (MAX_RETRIES - 1) feed roundId.

(** [parseFloat(ethers.utils.formatUnits(answer, decimals))] *)
Definition formatUnits (answer : Z) (decimals : nat) : num :=
  Fin (Qred (inject_Z answer / inject_Z (10 ^ Z.of_nat decimals))).

Definition entry (feed : PriceFeed) (roundId : Z) (roundData : RoundData)
  : PriceData.t :=
  PriceData.make roundId (updatedAt roundData)
    (formatUnits (answer roundData) (decimals feed)).

(** [prices.find((p) => p.roundId === roundId.toString())], as a truth value. *)
Definition cached (prices : list PriceData.t) (roundId : Z) : bool :=
  existsb (fun p => (PriceData.roundId p =? roundId)%Z) prices.

(** [roundData.updatedAt > startTime && roundId.gt(0)] *)
Definition keepWalking (startTime : Q) (roundId : Z) (roundData : RoundData) : bool :=
  negb (Qle_bool (inject_Z (updatedAt roundData)) startTime) && (0 <? roundId)%Z.

(** The body of the [if] inside the [while]. *)
Definition collect (feed : PriceFeed) (endTime : Q) (roundId : Z)
  (roundData : RoundData) (prices : list PriceData.t) : list PriceData.t :=
  if Qle_bool (inject_Z (updatedAt roundData)) endTime && negb (cached prices roundId)
  then prices ++ [entry feed roundId roundData]
  else prices.

(** The value of a test together with the equation that it is that value,
    for the termination argument of the [while] loop. *)
Definition inspect {A : Type} (x : A) : {y : A | x = y} := exist _ x eq_refl.

(** The [while] loop.  It returns the three variables it updates. *)
Equations? walkBack (feed : PriceFeed) (startTime endTime : Q)
  (roundId : Z) (roundData : RoundData) (prices : list PriceData.t) (w : World)
  : result (Z * RoundData * list PriceData.t) * World
  by wf (Z.to_nat roundId) lt :=
walkBack feed startTime endTime roundId roundData prices w
  with inspect (keepWalking startTime roundId roundData) := {
  | exist _ true Hcond
      with fetchRoundDataWithRetry feed (roundId - 1)%Z w := {
      | (Ok roundData', w') =>
          walkBack feed startTime endTime (roundId - 1)%Z roundData'
            (collect feed endTime roundId roundData prices) w'
      | (Throw e, w') => (Throw e, w') }
  | exist _ false Hcond => (Ok (roundId, roundData, prices), w) }.
Proof.
  unfold keepWalking in Hcond.
  apply andb_prop in Hcond. destruct Hcond as [_ Hpos].
  apply Z.ltb_lt in Hpos. lia.
Qed.

(** The extra older rounds, pushed unconditionally. *)
Fixpoint extraRounds (n : nat) (feed : PriceFeed) (roundId : Z)
  (prices : list PriceData.t) : M (list PriceData.t) :=
  match n with
  | O => ret prices
  | S n' =>
      let roundId := (roundId - 1)%Z in
      roundData <~ fetchRoundDataWithRetry feed roundId ;;
      extraRounds n' feed roundId (prices ++ [entry feed roundId roundData])
  end.

Definition readRoundsFile : M (list PriceData.t) :=
  fun w => (Ok (match roundsFile w with Some prices => prices | None => [] end), w).

Definition writeRoundsFile (prices : list PriceData.t) : M unit :=
  fun w => (Ok tt, mkWorld (Some prices) (requested w)).

Definition fetchHistoricalChainlinkPrices (feed : PriceFeed) (startTime endTime : Q)
  : M (list PriceData.t) :=
  prices <~ readRoundsFile ;;
  let roundId := latestRound feed in
  roundData <~ fetchRoundDataWithRetry feed roundId ;;
  st <~ walkBack feed startTime endTime roundId roundData prices ;;
  let '(roundId, _, prices) := st in
  prices <~ extraRounds EXTRA_ROUNDS feed roundId prices ;;
  _ <~ writeRoundsFile prices ;;
  ret prices.

End Oracle.

(** ** The oracle walk of [app.js]

    The same two loops on the same feed, with a plain
    [priceFeed.getRoundData] for every fetch, no rounds file and no check
    against rounds already held. *)

Module AppOracle.
Import Oracle.

Definition entry (feed : PriceFeed) (roundData : RoundData) : App.PriceData.t :=
  App.PriceData.make (updatedAt roundData)
    (formatUnits (answer roundData) (decimals feed)).

Definition collect (feed : PriceFeed) (endTime : Q) (roundData : RoundData)
  (prices : list App.PriceData.t) : list App.PriceData.t :=
  if Qle_bool (inject_Z (updatedAt roundData)) endTime
  then prices ++ [entry feed roundData]
  else prices.

Equations? walkBack (feed : PriceFeed) (startTime endTime : Q)
  (roundId : Z) (roundData : RoundData) (prices : list App.PriceData.t) (w : World)
  : result (Z * RoundData * list App.PriceData.t) * World
  by wf (Z.to_nat roundId) lt :=
walkBack feed startTime endTime roundId roundData prices w
  with inspect (keepWalking startTime roundId roundData) := {
  | exist _ true Hcond
      with callGetRoundData feed (roundId - 1)%Z w := {
      | (Ok roundData', w') =>
          walkBack feed startTime endTime (roundId - 1)%Z roundData'
            (collect feed endTime roundData prices) w'
      | (Throw e, w') => (Throw e, w') }
  | exist _ false Hcond => (Ok (roundId, roundData, prices), w) }.
Proof.
  unfold keepWalking in Hcond.
  apply andb_prop in Hcond. destruct Hcond as [_ Hpos].
  apply Z.ltb_lt in Hpos. lia.
Qed.

Fixpoint extraRounds (n : nat) (feed : PriceFeed) (roundId : Z)
  (prices : list App.PriceData.t) : M (list App.PriceData.t) :=
  match n with
  | O => ret prices
  | S n' =>
      let roundId := (roundId - 1)%Z in
      roundData <~ callGetRoundData feed roundId ;;
      extraRounds n' feed roundId (prices ++ [entry feed roundData])
  end.

Definition fetchHistoricalChainlinkPrices (feed : PriceFeed) (startTime endTime : Q)
  : M (list App.PriceData.t) :=
  let roundId := latestRound feed in
  roundData <~ callGetRoundData feed roundId ;;
  st <~ walkBack feed startTime endTime roundId roundData [] ;;
  let '(roundId, _, prices) := st in
  prices <~ extraRounds EXTRA_ROUNDS feed roundId prices ;;
  ret prices.

End AppOracle.

(** ** The trade ingestor, [fetchSwaps]

    The function is the same text in both scripts.  The subgraph is an
    external service: a request carries the [timestamp] and [lastId]
    variables and the answer is [response.data.data.pool], [None] when the
    pool is [null]; the request itself may fail.  The loop has no bound of
    its own, so the embedding runs it on fuel. *)

Module Ingestor.

Definition PAGE_SIZE : nat := 1000.

Record Pool : Type := mkPool {
  swaps : list Swap.t
}.

Definition Request : Type := (Z * string)%type.

Definition Subgraph : Type := Request -> result (option Pool).

(** The three variables of the loop. *)
Record State : Type := mkState {
  allSwaps : list Swap.t;
  lastId : string;
  hasMore : bool
}.

Definition initialState : State := mkState [] EmptyString true.

(** [swaps[swaps.length - 1].id]; the loop only reads it on a full page. *)
Definition lastIdOf (page : list Swap.t) (default : string) : string :=
  match rev page with
  | s :: _ => Swap.id s
  | [] => default
  end.

(** The request of one iteration. *)
Definition requestOf (startTime : Z) (st : State) : Request :=
  ((startTime / 1000)%Z, lastId st).

(** One iteration of [while (hasMore)], given the answer to its request. *)
Definition iteration (answer : result (option Pool)) (st : State) : result State :=
  pool <- answer ;;
  match pool with
  | None => Throw "Pool not found"
  | Some pool =>
      let swaps := swaps pool in
      let allSwaps := allSwaps st ++ swaps in
      if Nat.ltb (List.length swaps) PAGE_SIZE
      then Ok (mkState allSwaps (lastId st) false)
      else Ok (mkState allSwaps (lastIdOf swaps (lastId st)) (hasMore st))
  end.

(** The loop; the second component lists the requests sent, first to last.
    [None] when the fuel runs out before the loop ends. *)
Fixpoint loop (fuel : nat) (subgraph : Subgraph) (startTime : Z) (st : State)
  (sent : list Request) : option (result (list Swap.t) * list Request) :=
  if hasMore st then
    match fuel with
    | O => None
    | S fuel' =>
        let request := requestOf startTime st in
        match iteration (subgraph request) st with
        | Ok st' => loop fuel' subgraph startTime st' (sent ++ [request])
        | Throw e => Some (Throw e, sent ++ [request])
        end
    end
  else Some (Ok (allSwaps st), sent).

Definition fetchSwaps (fuel : nat) (subgraph : Subgraph) (startTime : Z)
  : option (result (list Swap.t) * list Request) :=
  loop fuel subgraph startTime initialState [].

End Ingestor.

(** ** Notions used in the statements *)

(** A swap as the data model has it: both amounts are finite and not zero. *)
Definition wellFormedSwap (swap : Swap.t) : bool :=
  is_finite (Swap.amount0 swap) && is_finite (Swap.amount1 swap)
  && negb (is_zero (Swap.amount0 swap)) && negb (is_zero (Swap.amount1 swap)).

(** Oracle prices are finite numbers: [formatUnits] of an integer answer. *)
Definition finitePrices {P : Type} (price : P -> num) (prices : list P) : Prop :=
  forall o, In o prices -> is_finite (price o) = true.

(** A timestamp in seconds that [new Date(1000 * seconds)] can represent. *)
Definition validDate (seconds : Z) : Prop :=
  Z.abs (seconds * 1000) <= MAX_TIME_VALUE.

(** [t] is written with [k + 1] decimal digits. *)
Definition sameDigits (k : nat) (t : Z) : Prop :=
  10 ^ Z.of_nat k <= t < 10 ^ Z.of_nat (S k).

(** An observation [o] of [prices] is the latest one at or before [t]. *)
Definition latestAtOrBefore {P : Type} (ts : P -> Z) (prices : list P) (t : Z) (o : P)
  : Prop :=
  In o prices /\ ts o <= t /\
  forall o', In o' prices -> ts o' <= t -> ts o' <= ts o.

(** The dynamic fee percent as the specification words it: the base rate
    plus the multiplier applied to the absolute deviation percent, divided
    by 100. *)
Definition specDynamicFeePercent (deviationPercent : num) : num :=
  n0_05 + (Simulation.LP_FEE_MULTIPLIER * abs deviationPercent) / n100.

(** The hook price as the specification words it: the fee share of the
    price is added when buying and subtracted when selling. *)
Definition specHookPrice (buying : bool) (price dynamicFeePercent : num) : num :=
  if buying then price + (price * dynamicFeePercent) / n100
  else price - (price * dynamicFeePercent) / n100.

(** What a run that did not throw gives, seen through [f]. *)
Definition outcome {A B : Type} (f : A -> B) (r : result A) : option B :=
  match r with
  | Ok a => Some (f a)
  | Throw _ => None
  end.

(** ** Sample inputs *)

(** 3000 USDC paid for 1 ETH, and 1 ETH paid for 3000 USDC. *)
Definition sampleBuy : Swap.t :=
  Swap.make "0xa#1" (Fin (-3000)) (Fin 1) 1700000000 "0xa".

Definition sampleSell : Swap.t :=
  Swap.make "0xb#2" (Fin 3000) (Fin (-1)) 1700000000 "0xb".

(** A purchase of half an ETH made before every sample round. *)
Definition earlyBuy : Swap.t :=
  Swap.make "0xc#3" (Fin (-1500)) (Fin (1 # 2)) 1699990000 "0xc".

(** One round, 1000 s before the sample swaps, at 3100, at 3000 and at 0. *)
Definition roundAt3100 : list PriceData.t :=
  [PriceData.make 7 1699999000 (Fin 3100)].

Definition roundAt3000 : list PriceData.t :=
  [PriceData.make 7 1699999000 (Fin 3000)].


(** Three rounds around the sample swaps: 2000 s before, 500 s before and
    100 s after. *)
Definition threeRounds : list PriceData.t :=
  [PriceData.make 9 1700000100 (Fin 3070);
   PriceData.make 8 1699999500 (Fin 3050);
   PriceData.make 7 1699998000 (Fin 3020)].


Definition farFuture : Swap.t :=
  Swap.make "0xf" (Fin (-3000)) (Fin 1) 9000000000000 "0xtxf".

(** Two observations of nine digits, for a swap of ten: what the feed
    gives, and what [app.js] keeps of it. *)
Definition nineDigitRounds : list PriceData.t :=
  [PriceData.make 1 100000000 (Fin 2400); PriceData.make 2 999999999 (Fin 4000)].

Definition appNineDigitRounds : list App.PriceData.t :=
  [App.PriceData.make 100000000 (Fin 2400); App.PriceData.make 999999999 (Fin 4000)].

Definition appRoundAt3100 : list App.PriceData.t :=
  [App.PriceData.make 1699999000 (Fin 3100)].


(** ** Cursor pagination, as the specification words it

    [FullPages subgraph startTime sent cursor acc]: reading from the empty
    cursor, the requests [sent] were each answered by a full page, [acc] is
    what those pages held, in order, and [cursor], the identifier of the last
    record of the last of them, is the cursor of the next request. *)

Inductive FullPages (subgraph : Ingestor.Subgraph) (startTime : Z)
  : list Ingestor.Request -> string -> list Swap.t -> Prop :=
| pages_none : FullPages subgraph startTime [] EmptyString []
| pages_next sent cursor acc pool front lastRecord :
    FullPages subgraph startTime sent cursor acc ->
    subgraph ((startTime / 1000)%Z, cursor) = Ok (Some pool) ->
    (Ingestor.PAGE_SIZE <= List.length (Ingestor.swaps pool))%nat ->
    Ingestor.swaps pool = front ++ [lastRecord] ->
    FullPages subgraph startTime
      (sent ++ [((startTime / 1000)%Z, cursor)])
      (Swap.id lastRecord)
      (acc ++ Ingestor.swaps pool).

(** A subgraph with one full page of 1000 swaps and then a page of two, and
    a subgraph that does not know the pool. *)
Definition fullPage : list Swap.t :=
  repeat sampleBuy 999 ++ [sampleSell].

Definition twoPages : Ingestor.Subgraph :=
  fun request =>
    if String.eqb (snd request) EmptyString
    then Ok (Some (Ingestor.mkPool fullPage))
    else if String.eqb (snd request) (Swap.id sampleSell)
         then Ok (Some (Ingestor.mkPool [sampleBuy; sampleBuy]))
         else Ok None.

Definition noPool : Ingestor.Subgraph := fun _ => Ok None.

(** ** Sample feeds

    Three rounds, all later than the start of the window; the feed rejects a
    negative round identifier, as the contract binding does.  The lenient
    variant answers every identifier. *)
Definition shortFeed : Oracle.PriceFeed :=
  Oracle.mkFeed 2
    (fun _ roundId =>
       if (roundId <? 0)%Z then Throw "value out-of-bounds"
       else Ok (Oracle.mkRound 2000000000 (3000 * 100000000)))
    8.

Definition lenientShortFeed : Oracle.PriceFeed :=
  Oracle.mkFeed 2
    (fun _ roundId => Ok (Oracle.mkRound 2000000000 (3000 * 100000000)))
    8.

(** Twenty rounds, round [n] updated at time [100 * n] with price [n]. *)
Definition steadyFeed : Oracle.PriceFeed :=
  Oracle.mkFeed 20
    (fun _ roundId => Ok (Oracle.mkRound (100 * roundId) (roundId * 100000000)))
    8.

Definition steadyRounds (roundIds : list Z) : list PriceData.t :=
  map (fun roundId => PriceData.make roundId (100 * roundId) (Fin (inject_Z roundId)))
      roundIds.

Definition emptyWorld : Oracle.World := Oracle.mkWorld None [].
(** ** The generic retry wrapper, [fetchWithRetry]

    Defined by the 90 day script beside [fetchRoundDataWithRetry].  The
    function it wraps has effects: it is a transition on a state [W] that
    returns or throws.  As in [Oracle.attemptFrom], [more] is
    [MAX_RETRIES - attempt]. *)

Module Retry.
Section FetchWithRetry.
Variables W A : Type.
Variable fetchFunction : W -> result A * W.

Fixpoint attemptFrom (more : nat) (w : W) : result A * W :=
  match fetchFunction w with
  | (Ok a, w') => (Ok a, w')
  | (Throw error, w') =>
      match more with
      | O => (Throw error, w')
      | S m => attemptFrom m w'
      end
  end.

Definition fetchWithRetry : W -> result A * W :=
  attemptFrom (Oracle.MAX_RETRIES - 1).

End FetchWithRetry.
End Retry.

(** ** The aggregation of [app.js]

    The loop of its [main]: the same counters as the 90 day script, without
    the efficiency. *)

Module AppReport.

Module ResultData.
Record t : Type := make {
  totalSwaps : num;
  totalVolumeETH : num;
  totalVolumeUSDC : num;
  totalStandardFee : num;
  totalDynamicLeveryFee : num;
  swaps : list App.SwapData.t
}.
End ResultData.

Definition initialResultData : ResultData.t :=
  ResultData.make n0 n0 n0 n0 n0 [].

Record LoopState : Type := mkLoop {
  resultData : ResultData.t;
  totalStandardFee : num;
  totalDynamicLeveryFee : num
}.

Definition initialLoopState : LoopState :=
  mkLoop initialResultData n0 n0.

(** One iteration of [for (const swap of swaps)]. *)
Definition processSwap (chainlinkPrices : list App.PriceData.t) (st : LoopState)
  (swap : Swap.t) : result LoopState :=
  swapData <- App.computeSwapData chainlinkPrices swap ;;
  let '(_, volumeETH, volumeUSDC, _, _) :=
    Simulation.direction (Swap.amount0 swap) (Swap.amount1 swap) in
  let r := resultData st in
  Ok (mkLoop
        (ResultData.make
           (ResultData.totalSwaps r + n1)
           (ResultData.totalVolumeETH r + volumeETH)
           (ResultData.totalVolumeUSDC r + volumeUSDC)
           (ResultData.totalStandardFee r)
           (ResultData.totalDynamicLeveryFee r)
           (ResultData.swaps r ++ [swapData]))
        (totalStandardFee st + App.SwapData.standardFee swapData)
        (totalDynamicLeveryFee st + App.SwapData.dynamicLeveryFee swapData)).

Fixpoint processSwaps (chainlinkPrices : list App.PriceData.t) (st : LoopState)
  (swaps : list Swap.t) : result LoopState :=
  match swaps with
  | [] => Ok st
  | swap :: rest =>
      st' <- processSwap chainlinkPrices st swap ;;
      processSwaps chainlinkPrices st' rest
  end.

(** The two assignments after the loop. *)
Definition finalize (st : LoopState) : ResultData.t :=
  let r := resultData st in
  ResultData.make
    (ResultData.totalSwaps r)
    (ResultData.totalVolumeETH r)
    (ResultData.totalVolumeUSDC r)
    (totalStandardFee st)
    (totalDynamicLeveryFee st)
    (ResultData.swaps r).

Definition report (chainlinkPrices : list App.PriceData.t) (swaps : list Swap.t)
  : result ResultData.t :=
  st <- processSwaps chainlinkPrices initialLoopState swaps ;;
  Ok (finalize st).

End AppReport.

(** ** The two [main] functions

    A run builds the oracle history, then retrieves the swaps, then
    aggregates; the [try] around the three catches whatever one of them
    throws, and the report is written only when none did.  [daysAgo] and
    [now] are the two clock readings, in milliseconds.  A run leaves: the
    world of the oracle builder, the requests sent to the subgraph, the
    report written, if one was, and the error caught, if one was.  [None]
    when the fuel of the swap retrieval runs out. *)

Module Main.

Record Run (R : Type) : Type := mkRun {
  world : Oracle.World;
  sent : list Ingestor.Request;
  outputFile : option R;
  caught : option string
}.

Definition seconds (ms : Z) : Q := inject_Z ms / 1000.

(** [main] of the 90 day script. *)
Definition main (feed : Oracle.PriceFeed) (subgraph : Ingestor.Subgraph)
  (daysAgo now : Z) (fuel : nat) (w : Oracle.World)
  : option (Run Simulation.ResultData.t) :=
  match Oracle.fetchHistoricalChainlinkPrices feed (seconds daysAgo) (seconds now) w with
  | (Throw error, w') => Some (mkRun w' [] None (Some error))
  | (Ok chainlinkPrices, w') =>
      match Ingestor.fetchSwaps fuel subgraph daysAgo with
      | None => None
      | Some (Throw error, sent) => Some (mkRun w' sent None (Some error))
      | Some (Ok swaps, sent) =>
          match Simulation.report chainlinkPrices swaps with
          | Ok resultData => Some (mkRun w' sent (Some resultData) None)
          | Throw error => Some (mkRun w' sent None (Some error))
          end
      end
  end.


End Main.


(** ** Further notions used in the statements *)

(** The [n] round identifiers from [hi] downwards: [hi], [hi - 1], ... *)
Definition roundsDown (hi : Z) (n : nat) : list Z :=
  map (fun i => (hi - Z.of_nat i)%Z) (seq 0 n).

(** The answer of the feed to the attempt of rank [k] (from 0) of a fetch
    with retries for [roundId] that starts in world [w]: the [k] earlier
    attempts of that fetch are part of the requests made before. *)
Definition answerAt (feed : Oracle.PriceFeed) (w : Oracle.World) (roundId : Z) (k : nat)
  : result Oracle.RoundData :=
  Oracle.getRoundData feed (repeat roundId k ++ Oracle.requested w) roundId.

(** A fetch fails at every attempt of rank below [k]. *)
Definition failsBefore (feed : Oracle.PriceFeed) (w : Oracle.World) (roundId : Z) (k : nat)
  : Prop :=
  forall j, (j < k)%nat -> exists e, answerAt feed w roundId j = Throw e.

(** A feed that times out twice, whatever the round, and answers from the
    third request on. *)
Definition flakyFeed : Oracle.PriceFeed :=
  Oracle.mkFeed 20
    (fun earlier roundId =>
       if (List.length earlier <? 2)%nat then Throw "Timeout"
       else Ok (Oracle.mkRound (100 * roundId) (roundId * 100000000)))
    8.

(** A feed that never answers. *)
Definition deadFeed : Oracle.PriceFeed :=
  Oracle.mkFeed 20 (fun _ _ => Throw "Timeout") 8.

(** The entry the builder makes of a round of a feed that always answers
    [data]. *)
Definition entryOf (feed : Oracle.PriceFeed) (data : Z -> Oracle.RoundData) (roundId : Z)
  : PriceData.t :=
  Oracle.entry feed roundId (data roundId).

(** The walk adds a round when it was updated at or before [endTime] and is
    not a round of the cache. *)
Definition addedByWalk (data : Z -> Oracle.RoundData) (endTime : Q)
  (cache : list PriceData.t) (roundId : Z) : bool :=
  Qle_bool (inject_Z (Oracle.updatedAt (data roundId))) endTime
  && negb (Oracle.cached cache roundId).

(** The walk from [latest] stops at [r]: the loop condition holds at every
    round above [r] and fails at [r]. *)
Definition stopsAt (data : Z -> Oracle.RoundData) (startTime : Q) (latest r : Z) : Prop :=
  r <= latest
  /\ Oracle.keepWalking startTime r (data r) = false
  /\ forall roundId, r < roundId <= latest ->
                     Oracle.keepWalking startTime roundId (data roundId) = true.

(** A subgraph whose every page is full, and one that cannot be reached. *)
Definition alwaysFull : Ingestor.Subgraph :=
  fun _ => Ok (Some (Ingestor.mkPool fullPage)).

Definition offline : Ingestor.Subgraph :=
  fun _ => Throw "Network Error".

(** The state after [k] calls of [fetchFunction], one after the other. *)
Fixpoint afterCalls {W A : Type} (fetchFunction : W -> result A * W) (k : nat) (w : W)
  : W :=
  match k with
  | O => w
  | S k' => afterCalls fetchFunction k' (snd (fetchFunction w))
  end.

(** A counter that fails until it has been called three times. *)
Definition thirdTimeLucky (calls : nat) : result nat * nat :=
  if (calls <? 2)%nat then (Throw "ECONNRESET", S calls) else (Ok calls, S calls).

(** What [app.js] keeps of an entry of the 90 day script: no round
    identifier. *)
Definition forgetRound (p : PriceData.t) : App.PriceData.t :=
  App.PriceData.make (PriceData.timestamp p) (PriceData.price p).

(** The fields that a record of the 90 day script and a record of [app.js]
    have in common and that do not depend on the fee formula. *)
Definition sameTrade (d : Simulation.SwapData.t) (d' : App.SwapData.t) : Prop :=
  Simulation.SwapData.swapTimestamp d = App.SwapData.swapTimestamp d'
  /\ Simulation.SwapData.transactionHash d = App.SwapData.transactionHash d'
  /\ Simulation.SwapData.amount0 d = App.SwapData.amount0 d'
  /\ Simulation.SwapData.amount1 d = App.SwapData.amount1 d'
  /\ Simulation.SwapData.price d = App.SwapData.price d'
  /\ Simulation.SwapData.isBuyingETH d = App.SwapData.isBuyingETH d'
  /\ Simulation.SwapData.isSellingETH d = App.SwapData.isSellingETH d'
  /\ Simulation.SwapData.chainlinkPrice d = App.SwapData.chainlinkPrice d'
  /\ Simulation.SwapData.chainlinkTimestamp d = App.SwapData.chainlinkTimestamp d'
  /\ Simulation.SwapData.timeDifference d = App.SwapData.timeDifference d'
  /\ Simulation.SwapData.priceDifferencePercent d = App.SwapData.priceDifferencePercent d'
  /\ Simulation.SwapData.standardFee d = App.SwapData.standardFee d'.

(** The entry [app.js] makes of a round of a feed that always answers
    [data]. *)
Definition appEntryOf (feed : Oracle.PriceFeed) (data : Z -> Oracle.RoundData)
  (roundId : Z) : App.PriceData.t :=
  AppOracle.entry feed (data roundId).

(** The round was updated at or before [endTime]. *)
Definition updatedBy (data : Z -> Oracle.RoundData) (endTime : Q) (roundId : Z) : bool :=
  Qle_bool (inject_Z (Oracle.updatedAt (data roundId))) endTime.

(** Two reports agree on what does not depend on the fee formula. *)
Definition sameReport (r : Simulation.ResultData.t) (r' : AppReport.ResultData.t) : Prop :=
  Simulation.ResultData.totalSwaps r = AppReport.ResultData.totalSwaps r'
  /\ Simulation.ResultData.totalVolumeETH r = AppReport.ResultData.totalVolumeETH r'
  /\ Simulation.ResultData.totalVolumeUSDC r = AppReport.ResultData.totalVolumeUSDC r'
  /\ Simulation.ResultData.totalStandardFee r = AppReport.ResultData.totalStandardFee r'
  /\ Forall2 sameTrade (Simulation.ResultData.swaps r) (AppReport.ResultData.swaps r').



(** * Properties *)

(** ** Arithmetic of JavaScript numbers *)

#[local] Arguments Qred : simpl never.

Lemma fin_eq (x y : Q) : (x == y)%Q -> Fin (Qred x) = Fin (Qred y).
Proof. intros H. f_equal. apply Qred_complete, H. Qed.

Lemma mul_comm (a b : num) : a * b = b * a.
Proof.
  destruct a as [x| | |], b as [y| | |]; simpl; try reflexivity.
  apply fin_eq. ring.
Qed.


Lemma sgn_spec (q : Q) :
  match sgn q with
  | Eq => q == 0
  | Lt => q < 0
  | Gt => 0 < q
  end%Q.
Proof.
  unfold sgn, Qeq, Qlt. simpl.
  destruct (Z.compare_spec (Qnum q) 0); lia.
Qed.

Lemma sgn_Lt (q : Q) : sgn q = Lt -> (q < 0)%Q.
Proof. intros E. pose proof (sgn_spec q) as H. now rewrite E in H. Qed.

Lemma sgn_Gt (q : Q) : sgn q = Gt -> (0 < q)%Q.
Proof. intros E. pose proof (sgn_spec q) as H. now rewrite E in H. Qed.

Lemma sgn_Eq (q : Q) : sgn q = Eq -> (q == 0)%Q.
Proof. intros E. pose proof (sgn_spec q) as H. now rewrite E in H. Qed.

Lemma sgn_morph (x y : Q) : (x == y)%Q -> sgn x = sgn y.
Proof.
  intros E.
  destruct (sgn x) eqn:Ex, (sgn y) eqn:Ey; trivial; exfalso;
    first [apply sgn_Eq in Ex | apply sgn_Lt in Ex | apply sgn_Gt in Ex];
    first [apply sgn_Eq in Ey | apply sgn_Lt in Ey | apply sgn_Gt in Ey]; lra.
Qed.


Lemma sgn_Qred (q : Q) : sgn (Qred q) = sgn q.
Proof. apply sgn_morph, Qred_correct. Qed.

Lemma is_zero_false (q : Q) : is_zero (Fin q) = false -> ~ (q == 0)%Q.
Proof.
  simpl. intros H E. apply Qeq_bool_iff in E. congruence.
Qed.

Lemma leb_fin (x y : Q) : (x <= y)%Q -> leb (Fin x) (Fin y) = true.
Proof.
  intros H. unfold leb.
  pose proof (proj1 (Qle_alt x y) H) as H'.
  destruct (x ?= y)%Q; trivial. now elim H'.
Qed.

(** A number that is not NaN has an absolute value in [[0, +Infinity]], and
    the base rate plus a positive multiple of it is at least the base rate. *)
Lemma base_plus_scaled_abs (x : num) (k : Q) :
  (0 < k)%Q -> is_nan x = false ->
  leb n0_05 (n0_05 + (abs x * Fin k) / n100) = true
  /\ leb n0_05 (n0_05 + Fin k * abs x) = true.
Proof.
  intros Hk Hx.
  assert (Hs : sgn k = Gt).
  { destruct (sgn k) eqn:E; trivial;
      [apply sgn_Eq in E | apply sgn_Lt in E]; lra. }
  destruct x as [q| | |]; try discriminate Hx; simpl; rewrite ?Hs; simpl.
  - pose proof (Qabs_nonneg q) as Hq.
    assert (Hp : (0 <= Qabs q * k)%Q) by (apply Qmult_le_0_compat; lra).
    split; apply leb_fin; rewrite !Qred_correct.
    + setoid_replace (Qabs q * k / 100)%Q with ((Qabs q * k) * (1 # 100))%Q by field.
      assert (0 <= (Qabs q * k) * (1 # 100))%Q by (apply Qmult_le_0_compat; lra).
      lra.
    + rewrite Qmult_comm. lra.
  - split; reflexivity.
  - split; reflexivity.
Qed.

(** ** The sort and the matcher *)

Section MatcherFacts.
Variable P : Type.
Variable ts : P -> Z.

Lemma insert_In (x y : P) (l : list P) :
  In y (insert (byTimestampDesc ts) x l) <-> y = x \/ In y l.
Proof.
  induction l as [|z l IH]; simpl.
  - intuition.
  - destruct (byTimestampDesc ts x z <=? 0); simpl; rewrite ?IH; intuition.
Qed.

Lemma sort_In (y : P) (l : list P) :
  In y (sort (byTimestampDesc ts) l) <-> In y l.
Proof.
  induction l as [|x l IH]; simpl; [tauto|].
  rewrite insert_In, IH. intuition.
Qed.

(** The head of the sorted array carries the greatest timestamp. *)
Lemma sort_head_greatest (l : list P) :
  match hd_error (sort (byTimestampDesc ts) l) with
  | Some m => In m l /\ forall z, In z l -> ts z <= ts m
  | None => l = []
  end.
Proof.
  induction l as [|x l IH]; simpl; [reflexivity|].
  destruct (sort (byTimestampDesc ts) l) as [|y s] eqn:Hs; simpl in *.
  - subst l. split; [now left|]. intros z [<-|[]]. lia.
  - destruct IH as [Hy Hmax].
    unfold byTimestampDesc at 1.
    destruct (Z.leb_spec (ts y - ts x) 0); simpl.
    + split; [now left|]. intros z [<-|Hz]; [lia|]. specialize (Hmax z Hz). lia.
    + split; [now right|]. intros z [<-|Hz]; [lia|]. now apply Hmax.
Qed.

(** The observation the matcher returns is one of the list. *)
Lemma matcher_In (prices : list P) (t : Z) (o : P) :
  findChainlinkPriceData ts prices t = Some o -> In o prices.
Proof.
  unfold findChainlinkPriceData. intros H.
  pose proof (sort_head_greatest (filter (fun p => ts p <=? t) prices)) as M.
  rewrite H in M. destruct M as [Hin _].
  now apply filter_In in Hin.
Qed.

(** With every observation later than [t] the matcher returns nothing. *)
Lemma matcher_none (prices : list P) (t : Z) :
  (forall o, In o prices -> t < ts o) ->
  findChainlinkPriceData ts prices t = None.
Proof.
  intros Hlate. unfold findChainlinkPriceData.
  pose proof (sort_head_greatest (filter (fun p => ts p <=? t) prices)) as M.
  destruct (hd_error _) as [m|]; trivial.
  destruct M as [Hin _]. apply filter_In in Hin. destruct Hin as [Hin Hle].
  apply Z.leb_le in Hle. apply Hlate in Hin. lia.
Qed.

(** The matcher returns an observation whose timestamp is at most [t] and
    is the greatest among the observations at or before [t]; it returns
    nothing exactly when every observation is later than [t]. *)
Lemma findChainlinkPriceData_spec (prices : list P) (t : Z) :
  match findChainlinkPriceData ts prices t with
  | Some o => latestAtOrBefore ts prices t o
  | None => forall o, In o prices -> t < ts o
  end.
Proof.
  unfold findChainlinkPriceData, latestAtOrBefore.
  pose proof (sort_head_greatest (filter (fun p => ts p <=? t) prices)) as H.

  destruct (hd_error _) as [m|].
  - destruct H as [Hin Hmax].
    apply filter_In in Hin. destruct Hin as [Hin Hle].
    apply Z.leb_le in Hle. repeat split; trivial.
    intros o' Ho' Hle'. apply Hmax, filter_In. split; trivial.
    now apply Z.leb_le.
  - intros o Ho.
    destruct (Z.ltb_spec t (ts o)) as [|Hle]; trivial.
    assert (Hf : In o (filter (fun p => ts p <=? t) prices)).
    { apply filter_In. split; trivial. now apply Z.leb_le. }
    rewrite H in Hf. destruct Hf.
Qed.

End MatcherFacts.

(** ** Decimal strings and their order *)

Lemma digitChar_compare (d e : Z) :
  0 <= d < 10 -> 0 <= e < 10 ->
  Ascii.compare (digitChar d) (digitChar e) = (d ?= e).
Proof.
  intros Hd He.
  assert (Hcases : forall x, 0 <= x < 10 ->
             x = 0 \/ x = 1 \/ x = 2 \/ x = 3 \/ x = 4 \/ x = 5 \/ x = 6 \/ x = 7
             \/ x = 8 \/ x = 9) by (intros x Hx; lia).
  destruct (Hcases d Hd) as [->|[->|[->|[->|[->|[->|[->|[->|[->| ->]]]]]]]]];
    destruct (Hcases e He) as [->|[->|[->|[->|[->|[->|[->|[->|[->| ->]]]]]]]]];
    reflexivity.
Qed.

(** Strings of the same number of digits are ordered as the numbers they
    spell. *)
Lemma digits_compare (k : nat) (a b : Z) :
  0 <= a -> 0 <= b ->
  String.compare (digits k a) (digits k b)
  = (a mod 10 ^ Z.of_nat k ?= b mod 10 ^ Z.of_nat k).
Proof.
  intros Ha Hb. induction k as [|k IH].
  - cbn [digits String.compare Z.of_nat]. now rewrite Z.pow_0_r, !Z.mod_1_r.
  - cbn [digits String.compare].
    assert (Hpow : 0 < 10 ^ Z.of_nat k) by (apply Z.pow_pos_nonneg; lia).
    set (P := 10 ^ Z.of_nat k) in *.
    assert (Hsplit : forall n, (n mod 10 ^ Z.of_nat (S k) = n mod P + P * ((n / P) mod 10))%Z).
    { intros n. rewrite Nat2Z.inj_succ, Z.pow_succ_r by lia.
      rewrite Z.mul_comm. fold P. apply Z.rem_mul_r; lia. }
    rewrite (Hsplit a), (Hsplit b).
    pose proof (Z.mod_pos_bound (a / P) 10 ltac:(lia)) as Hda.
    pose proof (Z.mod_pos_bound (b / P) 10 ltac:(lia)) as Hdb.
    pose proof (Z.mod_pos_bound a P Hpow) as Hra.
    pose proof (Z.mod_pos_bound b P Hpow) as Hrb.
    rewrite (digitChar_compare Hda Hdb), IH.
    set (da := (a / P) mod 10) in *. set (db := (b / P) mod 10) in *.
    set (ra := a mod P) in *. set (rb := b mod P) in *.
    destruct (Z.compare_spec da db) as [Heq|Hlt|Hgt].
    + subst db. destruct (Z.compare_spec ra rb) as [Hr|Hr|Hr]; symmetry.
      * apply Z.compare_eq_iff. lia.
      * apply Z.compare_lt_iff. lia.
      * apply Z.compare_gt_iff. lia.
    + symmetry. apply Z.compare_lt_iff. nia.
    + symmetry. apply Z.compare_gt_iff. nia.
Qed.

Lemma width_digits (k : nat) :
  forall fuel n, sameDigits k n -> (k <= fuel)%nat -> width fuel n = S k.
Proof.
  unfold sameDigits. induction k as [|k IH]; intros fuel n Hn Hfuel.
  - cbn in Hn. destruct fuel as [|fuel]; cbn [width]; [reflexivity|].
    destruct (Z.ltb_spec n 10); [reflexivity | lia].
  - destruct fuel as [|fuel]; [lia|]. cbn [width].
    rewrite !Nat2Z.inj_succ, !Z.pow_succ_r in Hn by lia.
    assert (Hpow : 0 < 10 ^ Z.of_nat k) by (apply Z.pow_pos_nonneg; lia).
    destruct (Z.ltb_spec n 10); [nia|].
    f_equal. apply IH; [|lia].
    rewrite Nat2Z.inj_succ, Z.pow_succ_r by lia. split.
    + apply Z.div_le_lower_bound; lia.
    + apply Z.div_lt_upper_bound; lia.
Qed.

Lemma toString_digits (k : nat) (n : Z) :
  sameDigits k n -> toString n = digits (S k) n.
Proof.
  intros Hn. pose proof Hn as [Hlo Hhi].
  assert (Hpow : 0 < 10 ^ Z.of_nat k) by (apply Z.pow_pos_nonneg; lia).
  unfold toString, decimal.
  destruct (Z.ltb_spec n 0); [lia|].
  rewrite (@width_digits k); [reflexivity | exact Hn |].
  assert (Hlog : Z.of_nat k <= Z.log2 n).
  { apply Z.log2_le_pow2; [lia|].
    transitivity (10 ^ Z.of_nat k); [|exact Hlo].
    apply Z.pow_le_mono_l. lia. }
  lia.
Qed.

(** Between two integers written with the same number of digits, the order
    of the strings is the order of the numbers. *)
Lemma leb_toString (k : nat) (a b : Z) :
  sameDigits k a -> sameDigits k b ->
  String.leb (toString a) (toString b) = (a <=? b).
Proof.
  intros Ha Hb.
  rewrite (toString_digits Ha), (toString_digits Hb).
  unfold String.leb, Z.leb.
  assert (Hpow : 0 < 10 ^ Z.of_nat k) by (apply Z.pow_pos_nonneg; lia).
  destruct Ha as [Ha0 Ha1], Hb as [Hb0 Hb1].
  rewrite digits_compare by lia.
  now rewrite !Z.mod_small by lia.
Qed.

(** ** The matcher of [app.js] *)

Lemma app_matcher_spec (prices : list App.PriceData.t) (t : Z) :
  let qualifies o :=
    String.leb (toString (App.PriceData.timestamp o)) (toString t) in
  match App.findChainlinkPriceData prices t with
  | Some o =>
      In o prices /\ qualifies o = true
      /\ forall o', In o' prices -> qualifies o' = true ->
                    App.PriceData.timestamp o' <= App.PriceData.timestamp o
  | None => forall o, In o prices -> qualifies o = false
  end.
Proof.
  cbv zeta. unfold App.findChainlinkPriceData.
  pose proof (sort_head_greatest App.PriceData.timestamp
                (filter (fun p => String.leb (toString (App.PriceData.timestamp p))
                                             (toString t)) prices)) as H.
  destruct (hd_error _) as [o|].
  - destruct H as [Hin Hmax]. apply filter_In in Hin. destruct Hin as [Hin Hq].
    split; [exact Hin|]. split; [exact Hq|].
    intros o' Hin' Hq'. apply Hmax. apply filter_In. now split.
  - intros o Hin.
    destruct (String.leb _ _) eqn:Hq; [|reflexivity].
    assert (Hmem : In o (filter (fun p => String.leb
                                   (toString (App.PriceData.timestamp p))
                                   (toString t)) prices))
      by (apply filter_In; now split).
    rewrite H in Hmem. destruct Hmem.
Qed.


(** On timestamps written with the same number of digits the matcher of
    [app.js] is the numeric one. *)
Lemma app_matcher_same_digits (k : nat) (prices : list App.PriceData.t) (t : Z) :
  (forall o, In o prices -> sameDigits k (App.PriceData.timestamp o)) ->
  sameDigits k t ->
  App.findChainlinkPriceData prices t
  = findChainlinkPriceData App.PriceData.timestamp prices t.
Proof.
  intros Hprices Ht. unfold App.findChainlinkPriceData, findChainlinkPriceData.
  do 2 f_equal. apply filter_ext_in. intros o Hin.
  apply leb_toString with (k := k); [now apply Hprices | exact Ht].
Qed.

(** ** Well formed swaps *)

Lemma div_fin_nonzero (x y : Q) :
  ~ (x == 0)%Q -> ~ (y == 0)%Q ->
  exists p, Fin x / Fin y = Fin p /\ ~ (p == 0)%Q.
Proof.
  intros Hx Hy. unfold div.
  destruct (sgn y) eqn:E; [apply sgn_Eq in E; contradiction | |];
    (eexists; split; [reflexivity|]; rewrite Qred_correct;
     intros H; apply Hx;
     setoid_replace x with ((x / y) * y)%Q by (field; exact Hy);
     rewrite H; ring).
Qed.

(** The traded price of a well formed swap is a finite number other than 0. *)
Lemma direction_price (swap : Swap.t) :
  wellFormedSwap swap = true ->
  exists p, fst (fst (fst (fst
              (Simulation.direction (Swap.amount0 swap) (Swap.amount1 swap)))))
            = Fin p /\ ~ (p == 0)%Q.
Proof.
  unfold wellFormedSwap. intros H.
  apply andb_prop in H. destruct H as [H Hz1].
  apply andb_prop in H. destruct H as [H Hz0].
  apply andb_prop in H. destruct H as [Hf0 Hf1].
  destruct (Swap.amount0 swap) as [x| | |]; try discriminate Hf0.
  destruct (Swap.amount1 swap) as [y| | |]; try discriminate Hf1.
  apply negb_true_iff, is_zero_false in Hz0.
  apply negb_true_iff, is_zero_false in Hz1.
  unfold Simulation.direction.
  destruct (ltb (Fin x) n0); cbn [fst neg]; apply div_fin_nonzero; trivial;
    intros E; [apply Hz0 | apply Hz1]; lra.
Qed.

(** Against a finite oracle price, the deviation of a finite price other
    than 0 is a number: finite, or infinite when the oracle price is 0. *)
Lemma deviation_is_number (p : Q) (cp : num) :
  ~ (p == 0)%Q -> is_finite cp = true ->
  is_nan (((Fin p - cp) / cp) * n100) = false.
Proof.
  intros Hp Hcp. destruct cp as [c| | |]; try discriminate Hcp.
  unfold sub, neg, add, div.
  destruct (sgn c) eqn:E; try reflexivity.
  apply sgn_Eq in E. rewrite sgn_Qred.
  assert (Hs : sgn (p + - c) = sgn p) by (apply sgn_morph; lra).
  rewrite Hs.
  destruct (sgn p) eqn:E'; [apply sgn_Eq in E'; contradiction | |]; reflexivity.
Qed.


(** ** The fee engine *)

Lemma toISOString_ok (ms : Z) :
  Z.abs ms <= MAX_TIME_VALUE -> toISOString ms = Ok ms.
Proof.
  intros H. unfold toISOString.
  destruct (Z.leb_spec (Z.abs ms) MAX_TIME_VALUE); [reflexivity | lia].
Qed.

(** Opens a successful run of [computeSwapData] (of either script): the
    dates are in range, the direction test and the matcher have a value, and
    the record is the one the source builds. *)
Ltac open_swapData H :=
  unfold Simulation.computeSwapData, App.computeSwapData in H;
  destruct (toISOString _) eqn:?Hdate in H; cbn [bind] in H; [|discriminate H];
  destruct (Simulation.direction _ _)
    as [[[[?price ?volETH] ?volUSDC] ?buying] ?selling] eqn:?Hdir;
  match type of H with
  | context [App.findChainlinkPriceData ?l ?t] =>
      destruct (App.findChainlinkPriceData l t) as [?obs|] eqn:?Hfind
  | context [findChainlinkPriceData ?f ?l ?t] =>
      destruct (findChainlinkPriceData f l t) as [?obs|] eqn:?Hfind
  end;
  cbn [bind] in H;
  [ destruct (toISOString _) eqn:?Hiso in H; cbn [bind] in H; [|discriminate H] | ];
  try (destruct (App.dynamicFee _ _ _ _) as [?pdp ?dyn] eqn:?Hfee; cbn [bind] in H);
  injection H as <-;
  cbn [Simulation.SwapData.price Simulation.SwapData.chainlinkPrice
       Simulation.SwapData.dynamicLeveryFeePercent
       Simulation.SwapData.priceDifferencePercent
       Simulation.SwapData.isBuyingETH Simulation.SwapData.isSellingETH
       Simulation.SwapData.standardFee Simulation.SwapData.dynamicLeveryFee
       Simulation.SwapData.leveryEfficiencyPercent
       Simulation.SwapData.leveryHookPricePlusFee
       Simulation.SwapData.leveryHookPriceMinusFee
       Simulation.SwapData.chainlinkTimestamp Simulation.SwapData.timeDifference
       App.SwapData.price App.SwapData.chainlinkPrice
       App.SwapData.dynamicLeveryFeePercent App.SwapData.priceDifferencePercent
       App.SwapData.isBuyingETH App.SwapData.isSellingETH
       App.SwapData.standardFee App.SwapData.dynamicLeveryFee
       App.SwapData.leveryHookPricePlusFee
       App.SwapData.chainlinkTimestamp App.SwapData.timeDifference
       to_number] in *.

(** C1, on the code.  A swap at 1700000000 and two observations, at
    100000000 (price 2400) and at 999999999 (price 4000).  The second is the
    latest observation at or before the swap, and the 90 day script pairs
    the swap with it.  [app.js] compares the timestamps as strings: the
    string 999999999 is above the string 1700000000, the observation is
    filtered out, and the swap is paired with the older observation. *)
Theorem app_matcher_compares_strings :
  latestAtOrBefore App.PriceData.timestamp appNineDigitRounds
    (Swap.timestamp sampleBuy) (App.PriceData.make 999999999 (Fin 4000))
  /\ outcome (fun d => (Simulation.SwapData.chainlinkPrice d,
                        Simulation.SwapData.timeDifference d))
             (Simulation.computeSwapData nineDigitRounds sampleBuy)
     = Some (Val (Fin 4000), Val 700000001)
  /\ outcome (fun d => (App.SwapData.chainlinkPrice d,
                        App.SwapData.timeDifference d))
             (App.computeSwapData appNineDigitRounds sampleBuy)
     = Some (Val (Fin 2400), Val 1600000000).
Proof.
  split; [|split; vm_compute; reflexivity].
  split; [right; left; reflexivity|]. split; [cbn; lia|].
  intros o' [<-|[<-|[]]] _; cbn; lia.
Qed.

(** C2, as amended.  In the main simulation the dynamic fee percent of a
    swap with an oracle price is the base rate 0.05 plus 70 times the
    absolute deviation percent divided by 100, with no cap.  In [app.js] it
    is the base rate plus 0.9 times the absolute deviation percent when the
    oracle price is above the price of a buy or below the price of a sell,
    and the base rate otherwise. *)
Theorem dynamic_fee_formula_by_script
  (prices : list PriceData.t) (appPrices : list App.PriceData.t) (swap : Swap.t) :
  (forall d cp,
      Simulation.computeSwapData prices swap = Ok d ->
      Simulation.SwapData.chainlinkPrice d = Val cp ->
      Simulation.SwapData.dynamicLeveryFeePercent d
      = specDynamicFeePercent (Simulation.SwapData.priceDifferencePercent d))
  /\
  (forall d cp,
      App.computeSwapData appPrices swap = Ok d ->
      App.SwapData.chainlinkPrice d = Val cp ->
      App.SwapData.dynamicLeveryFeePercent d
      = if (gtb cp (App.SwapData.price d) && App.SwapData.isBuyingETH d)
           || (ltb cp (App.SwapData.price d) && App.SwapData.isSellingETH d)
        then n0_05 + n0_9 * abs (App.SwapData.priceDifferencePercent d)
        else n0_05).
Proof.
  split; intros d cp H Hcp; open_swapData H; try discriminate Hcp.
  - unfold specDynamicFeePercent, Simulation.dynamicFeePercent.
    now rewrite mul_comm.
  - injection Hcp as <-. unfold App.dynamicFee in Hfee.
    destruct (gtb _ _ && _); [|destruct (ltb _ _ && _)];
      injection Hfee as <- <-; reflexivity.
Qed.

(** A buy at 3000 against an oracle price of 3100, in each script. *)
Lemma dynamic_fee_formula_by_script_witness :
  (exists d,
      Simulation.computeSwapData roundAt3100 sampleBuy = Ok d
      /\ Simulation.SwapData.chainlinkPrice d = Val (Fin 3100)
      /\ Simulation.SwapData.dynamicLeveryFeePercent d
         = specDynamicFeePercent (Simulation.SwapData.priceDifferencePercent d))
  /\
  (exists d,
      App.computeSwapData appRoundAt3100 sampleBuy = Ok d
      /\ App.SwapData.chainlinkPrice d = Val (Fin 3100)
      /\ App.SwapData.dynamicLeveryFeePercent d
         = n0_05 + n0_9 * abs (App.SwapData.priceDifferencePercent d)).
Proof.
  destruct (dynamic_fee_formula_by_script roundAt3100 appRoundAt3100 sampleBuy)
    as [Hsim Happ].
  split; eexists; (split; [vm_compute; reflexivity|]); (split; [reflexivity|]).
  - exact (Hsim _ (Fin 3100) eq_refl eq_refl).
  - exact (Happ _ (Fin 3100) ltac:(vm_compute; reflexivity) eq_refl).
Defined.

(** C2, counterexample.  [app.js], a buy at 3000 against an oracle price of
    3100: the fee percent is 0.05 + 0.9 * 100/31 = 1831/620, and the formula
    of the claim gives 0.05 + 70 * (100/31) / 100 = 1431/620. *)
Lemma app_dynamic_fee_counterexample :
  outcome (fun d => (App.SwapData.chainlinkPrice d,
                     App.SwapData.dynamicLeveryFeePercent d,
                     specDynamicFeePercent (App.SwapData.priceDifferencePercent d)))
          (App.computeSwapData appRoundAt3100 sampleBuy)
  = Some (Val (Fin 3100), Fin (1831 # 620), Fin (1431 # 620))
  /\ Fin (1831 # 620) <> Fin (1431 # 620).
Proof. split; [vm_compute; reflexivity | discriminate]. Qed.

(** C4, as amended.  In the main simulation the hook price is the traded
    price plus [price * dynamicFeePercent / 100] for a buy (the field
    [leveryHookPricePlusFee]) and the traded price minus that amount for a
    sell (the field [leveryHookPriceMinusFee]); exactly one of the two
    directions holds.  In [app.js] the only hook price is
    [leveryHookPricePlusFee], and it is the traded price plus 0.9 times the
    absolute deviation percent, for a buy and for a sell alike. *)
Theorem hook_price_by_script
  (prices : list PriceData.t) (appPrices : list App.PriceData.t) (swap : Swap.t) :
  (forall d,
      Simulation.computeSwapData prices swap = Ok d ->
      Simulation.SwapData.isBuyingETH d = ltb (Swap.amount0 swap) n0
      /\ Simulation.SwapData.isSellingETH d = negb (Simulation.SwapData.isBuyingETH d)
      /\ Simulation.SwapData.leveryHookPricePlusFee d
         = (if Simulation.SwapData.isBuyingETH d
            then Some (specHookPrice true (Simulation.SwapData.price d)
                         (Simulation.SwapData.dynamicLeveryFeePercent d))
            else None)
      /\ Simulation.SwapData.leveryHookPriceMinusFee d
         = (if Simulation.SwapData.isBuyingETH d
            then None
            else Some (specHookPrice false (Simulation.SwapData.price d)
                         (Simulation.SwapData.dynamicLeveryFeePercent d))))
  /\
  (forall d,
      App.computeSwapData appPrices swap = Ok d ->
      App.SwapData.leveryHookPricePlusFee d
      = App.SwapData.price d
        + n0_9 * match App.SwapData.chainlinkPrice d with
                 | Val _ => abs (App.SwapData.priceDifferencePercent d)
                 | NA => n0
                 end).
Proof.
  split; intros d H; open_swapData H;
    unfold Simulation.direction in *;
    destruct (ltb (Swap.amount0 swap) n0); injection Hdir as <- <- <- <- <-;
    try (repeat split; reflexivity);
    unfold App.dynamicFee in Hfee; cbn [andb] in Hfee;
    repeat match type of Hfee with
           | context [if ?b then _ else _] => destruct b
           end;
    injection Hfee as <- <-; reflexivity.
Qed.

(** A sell at 3000 against an oracle price of 3100, in each script. *)
Lemma hook_price_by_script_witness :
  (exists d,
      Simulation.computeSwapData roundAt3100 sampleSell = Ok d
      /\ Simulation.SwapData.isBuyingETH d = false
      /\ Simulation.SwapData.isSellingETH d = true
      /\ Simulation.SwapData.leveryHookPricePlusFee d = None
      /\ Simulation.SwapData.leveryHookPriceMinusFee d
         = Some (specHookPrice false (Simulation.SwapData.price d)
                   (Simulation.SwapData.dynamicLeveryFeePercent d)))
  /\
  (exists d,
      App.computeSwapData appRoundAt3100 sampleSell = Ok d
      /\ App.SwapData.leveryHookPricePlusFee d
         = App.SwapData.price d + n0_9 * abs (App.SwapData.priceDifferencePercent d)).
Proof.
  destruct (hook_price_by_script roundAt3100 appRoundAt3100 sampleSell)
    as [Hsim Happ].
  split; eexists; (split; [vm_compute; reflexivity|]).
  - exact (Hsim _ eq_refl).
  - exact (Happ _ ltac:(vm_compute; reflexivity)).
Defined.

(** C4, counterexample.  [app.js], a sell at 3000 against an oracle price of
    3100: the hook price is 3000 + 0.9 * 100/31 = 93090/31, above the traded
    price, where the claim has 3000 - 3000 * 0.05 / 100 = 5997/2. *)
Lemma app_hook_price_counterexample :
  outcome (fun d => (App.SwapData.chainlinkPrice d,
                     App.SwapData.isSellingETH d,
                     App.SwapData.leveryHookPricePlusFee d,
                     specHookPrice (App.SwapData.isBuyingETH d) (App.SwapData.price d)
                       (App.SwapData.dynamicLeveryFeePercent d)))
          (App.computeSwapData appRoundAt3100 sampleSell)
  = Some (Val (Fin 3100), true, Fin (93090 # 31), Fin (5997 # 2))
  /\ Fin (93090 # 31) <> Fin (5997 # 2).
Proof. split; [vm_compute; reflexivity | discriminate]. Qed.







(** The notional size is the larger of the two absolute amounts. *)
Lemma swapAmountOf_larger (amount0 amount1 : num) :
  is_nan amount0 = false -> is_nan amount1 = false ->
  leb (abs amount0) (Simulation.swapAmountOf amount0 amount1) = true
  /\ leb (abs amount1) (Simulation.swapAmountOf amount0 amount1) = true.
Proof.
  intros H0 H1. unfold Simulation.swapAmountOf, gtb.
  destruct amount0 as [x| | |], amount1 as [y| | |];
    try discriminate H0; try discriminate H1; cbn [abs ltb];
    try (split; reflexivity); try (split; apply leb_fin; lra).
  destruct (Qcompare_spec (Qabs y) (Qabs x)); split; apply leb_fin; lra.
Qed.

(** C6, on the code: with no swap at all the report is written with an
    average efficiency of [0 / 0], which is NaN. *)
Theorem empty_report_average_is_nan (prices : list PriceData.t) :
  Simulation.report prices []
  = Ok (Simulation.ResultData.make n0 n0 n0 n0 n0 NaN []).
Proof. reflexivity. Qed.

(** ** The aggregator *)

(** The loop appends one record per swap and adds its fees and its
    efficiency to the running totals. *)
Lemma processSwaps_totals (prices : list PriceData.t) (swaps : list Swap.t) :
  forall st st',
    Simulation.processSwaps prices st swaps = Ok st' ->
    exists ds,
      Simulation.ResultData.swaps (Simulation.resultData st')
      = Simulation.ResultData.swaps (Simulation.resultData st) ++ ds
      /\ List.length ds = List.length swaps
      /\ Simulation.ResultData.totalSwaps (Simulation.resultData st')
         = fold_left add (map (fun _ => n1) ds)
             (Simulation.ResultData.totalSwaps (Simulation.resultData st))
      /\ Simulation.totalStandardFee st'
         = fold_left add (map Simulation.SwapData.standardFee ds)
             (Simulation.totalStandardFee st)
      /\ Simulation.totalDynamicLeveryFee st'
         = fold_left add (map Simulation.SwapData.dynamicLeveryFee ds)
             (Simulation.totalDynamicLeveryFee st)
      /\ Simulation.totalLeveryEfficiencyPercent st'
         = fold_left add (map Simulation.SwapData.leveryEfficiencyPercent ds)
             (Simulation.totalLeveryEfficiencyPercent st).
Proof.
  induction swaps as [|swap rest IH]; intros st st' H; cbn [Simulation.processSwaps] in H.
  - injection H as <-. exists []. rewrite app_nil_r. repeat split.
  - destruct (Simulation.processSwap prices st swap) as [st1|msg] eqn:Hstep;
      cbn [bind] in H; [|discriminate H].
    destruct (IH _ _ H) as (ds & Hds & Hlen & Hn & Hstd & Hdyn & Heff).
    unfold Simulation.processSwap in Hstep.
    destruct (Simulation.computeSwapData prices swap) as [d|msg] eqn:Hd;
      cbn [bind] in Hstep; [|discriminate Hstep].
    destruct (Simulation.direction _ _) as [[[[price volETH] volUSDC] buying] selling].
    injection Hstep as <-.
    cbn [Simulation.resultData Simulation.ResultData.swaps
         Simulation.ResultData.totalSwaps Simulation.totalStandardFee
         Simulation.totalDynamicLeveryFee Simulation.totalLeveryEfficiencyPercent] in *.
    exists (d :: ds). cbn [map fold_left List.length].
    rewrite Hds, <- app_assoc, Hlen. repeat split; assumption.
Qed.

(** The report of a run that did not throw: one record per swap, in
    order; the swap count, the two fee totals and the efficiency total are
    the sums over those records, and the average is the efficiency total
    divided by the count. *)
Theorem report_totals (prices : list PriceData.t) (swaps : list Swap.t)
  (r : Simulation.ResultData.t) :
  Simulation.report prices swaps = Ok r ->
  let ds := Simulation.ResultData.swaps r in
  List.length ds = List.length swaps
  /\ Simulation.ResultData.totalSwaps r = fold_left add (map (fun _ => n1) ds) n0
  /\ Simulation.ResultData.totalStandardFee r
     = fold_left add (map Simulation.SwapData.standardFee ds) n0
  /\ Simulation.ResultData.totalDynamicLeveryFee r
     = fold_left add (map Simulation.SwapData.dynamicLeveryFee ds) n0
  /\ Simulation.ResultData.averageLeveryEfficiencyPercent r
     = fold_left add (map Simulation.SwapData.leveryEfficiencyPercent ds) n0
       / Simulation.ResultData.totalSwaps r.
Proof.
  unfold Simulation.report. intros H.
  destruct (Simulation.processSwaps prices Simulation.initialLoopState swaps)
    as [st|msg] eqn:Hrun; cbn [bind] in H; [|discriminate H].
  injection H as <-.
  destruct (processSwaps_totals _ _ _ Hrun) as (ds & Hds & Hlen & Hn & Hstd & Hdyn & Heff).
  cbn [Simulation.resultData Simulation.initialLoopState Simulation.initialResultData
       Simulation.ResultData.swaps Simulation.ResultData.totalSwaps
       Simulation.totalStandardFee Simulation.totalDynamicLeveryFee
       Simulation.totalLeveryEfficiencyPercent app] in *.
  unfold Simulation.finalize.
  cbn [Simulation.ResultData.swaps Simulation.ResultData.totalSwaps
       Simulation.ResultData.totalStandardFee Simulation.ResultData.totalDynamicLeveryFee
       Simulation.ResultData.averageLeveryEfficiencyPercent].
  rewrite Hds. rewrite Hstd, Hdyn, Heff, Hn. repeat split. exact Hlen.
Qed.

(** A buy and a sell against the round at 3100: two records, fee totals
    that are the sums of the two fees, and the mean of the two efficiency
    figures. *)
Lemma report_totals_witness :
  exists r,
    Simulation.report roundAt3100 [sampleBuy; sampleSell] = Ok r
    /\ List.length (Simulation.ResultData.swaps r) = 2%nat
    /\ Simulation.ResultData.totalSwaps r = Fin 2
    /\ Simulation.ResultData.totalStandardFee r = Fin 3
    /\ Simulation.ResultData.totalDynamicLeveryFee r = Fin (4293 # 31)
    /\ Simulation.ResultData.averageLeveryEfficiencyPercent r = Fin (-4293 # 1922).
Proof.
  eexists. split; [vm_compute; reflexivity|].
  match goal with
  | |- List.length (Simulation.ResultData.swaps ?r) = _ /\ _ =>
      destruct (@report_totals roundAt3100 [sampleBuy; sampleSell] r eq_refl)
        as (Hlen & Hn & Hstd & Hdyn & Havg)
  end.
  split; [exact Hlen|].
  rewrite Hn, Hstd, Hdyn, Havg.
  repeat split; vm_compute; reflexivity.
Defined.

(** The worked example of the specification: 3000 USDC for 1 ETH against
    an oracle price of 3000 gives a traded price of 3000, a deviation of 0,
    the base rate as dynamic fee percent and a standard fee of
    3000 * 0.05 / 100. *)
Theorem worked_example :
  outcome (fun d => (Simulation.SwapData.price d,
                     Simulation.SwapData.priceDifferencePercent d,
                     Simulation.SwapData.dynamicLeveryFeePercent d,
                     Simulation.SwapData.standardFee d))
          (Simulation.computeSwapData roundAt3000 sampleBuy)
  = Some (Fin 3000, Fin 0, n0_05, (Fin 3000 * n0_05) / n100).
Proof. vm_compute. reflexivity. Qed.

(** ** The loop over a list of swaps *)

Lemma Qred_inject_Z (z : Z) : Qred (inject_Z z) = inject_Z z.
Proof.
  unfold Qred, inject_Z.
  pose proof (Z.ggcd_gcd z 1) as Hg.
  pose proof (Z.ggcd_correct_divisors z 1) as Hd.
  destruct (Z.ggcd z 1) as [g [aa bb]]. cbn [fst] in Hg.
  rewrite Z.gcd_1_r in Hg. subst g. destruct Hd as [Ha Hb].
  rewrite Z.mul_1_l in Ha, Hb. subst aa bb. reflexivity.
Qed.

Lemma of_Z_succ (k : Z) : of_Z k + n1 = of_Z (k + 1).
Proof.
  unfold of_Z, n1. cbn [add]. f_equal.
  rewrite <- (Qred_inject_Z (k + 1)). apply Qred_complete.
  rewrite inject_Z_plus. reflexivity.
Qed.

(** [totalSwaps] counts the swaps. *)
Lemma processSwaps_count (prices : list PriceData.t) (swaps : list Swap.t) :
  forall st st' k,
    Simulation.processSwaps prices st swaps = Ok st' ->
    Simulation.ResultData.totalSwaps (Simulation.resultData st) = of_Z k ->
    Simulation.ResultData.totalSwaps (Simulation.resultData st')
    = of_Z (k + Z.of_nat (List.length swaps)).
Proof.
  induction swaps as [|swap rest IH]; intros st st' k H Hk;
    cbn [Simulation.processSwaps] in H.
  - injection H as <-. cbn [List.length]. now rewrite Z.add_0_r.
  - destruct (Simulation.processSwap prices st swap) as [st1|msg] eqn:Hstep;
      cbn [bind] in H; [|discriminate H].
    apply (IH _ _ (k + 1)%Z) in H.
    + rewrite H. f_equal. cbn [List.length]. lia.
    + unfold Simulation.processSwap in Hstep.
      destruct (Simulation.computeSwapData prices swap) as [d|msg];
        cbn [bind] in Hstep; [|discriminate Hstep].
      destruct (Simulation.direction _ _) as [[[[price volETH] volUSDC] buying] selling].
      injection Hstep as <-.
      cbn [Simulation.resultData Simulation.ResultData.totalSwaps].
      rewrite Hk. apply of_Z_succ.
Qed.


Lemma processSwaps_app (prices : list PriceData.t) (front back : list Swap.t) :
  forall st,
    Simulation.processSwaps prices st (front ++ back)
    = (st1 <- Simulation.processSwaps prices st front ;;
       Simulation.processSwaps prices st1 back).
Proof.
  induction front as [|swap front IH]; intros st;
    cbn [app Simulation.processSwaps bind]; [reflexivity|].
  destruct (Simulation.processSwap prices st swap) as [st1|msg]; cbn [bind];
    [apply IH | reflexivity].
Qed.

(** Every swap adds its two volumes, whatever their signs. *)
Lemma processSwaps_volumes_all (prices : list PriceData.t) (swaps : list Swap.t) :
  forall st st',
    Simulation.processSwaps prices st swaps = Ok st' ->
    Simulation.ResultData.totalVolumeETH (Simulation.resultData st')
    = fold_left add
        (map (fun s => if ltb (Swap.amount0 s) n0 then Swap.amount1 s
                       else - Swap.amount1 s) swaps)
        (Simulation.ResultData.totalVolumeETH (Simulation.resultData st))
    /\ Simulation.ResultData.totalVolumeUSDC (Simulation.resultData st')
       = fold_left add
           (map (fun s => if ltb (Swap.amount0 s) n0 then - Swap.amount0 s
                          else Swap.amount0 s) swaps)
           (Simulation.ResultData.totalVolumeUSDC (Simulation.resultData st)).
Proof.
  induction swaps as [|swap rest IH]; intros st st' H;
    cbn [Simulation.processSwaps] in H.
  - injection H as <-. split; reflexivity.
  - destruct (Simulation.processSwap prices st swap) as [st1|msg] eqn:Hstep;
      cbn [bind] in H; [|discriminate H].
    destruct (IH _ _ H) as [HE HU]. rewrite HE, HU. cbn [map fold_left].
    unfold Simulation.processSwap in Hstep.
    destruct (Simulation.computeSwapData prices swap) as [d|msg];
      cbn [bind] in Hstep; [|discriminate Hstep].
    unfold Simulation.direction in Hstep.
    destruct (ltb (Swap.amount0 swap) n0); injection Hstep as <-; split; reflexivity.
Qed.

(** C10.  A swap with no observation at or before it, anywhere in the list
    of swaps.  Its record is built (its date being representable) with the
    "N/A" marker, a dynamic fee percent of exactly 0.05 and both fee amounts
    equal to the notional size times 0.05 / 100, where the notional size is
    the larger of the two absolute amounts.  In every report of the run the
    record stands at the position of the swap, the swap is counted in
    [totalSwaps], both fee totals are the sums over all records, this one
    included, and both volume totals are the sums over all swaps, this one
    included. *)
Theorem unmatched_swap_still_counted
  (prices : list PriceData.t) (before after : list Swap.t) (swap : Swap.t) :
  validDate (Swap.timestamp swap) ->
  (forall o, In o prices -> Swap.timestamp swap < PriceData.timestamp o) ->
  let amount0 := Swap.amount0 swap in
  let amount1 := Swap.amount1 swap in
  let swapAmount := Simulation.swapAmountOf amount0 amount1 in
  let swaps := before ++ swap :: after in
  exists d,
    Simulation.computeSwapData prices swap = Ok d
    /\ Simulation.SwapData.chainlinkPrice d = NA
    /\ Simulation.SwapData.dynamicLeveryFeePercent d = n0_05
    /\ Simulation.SwapData.standardFee d = (swapAmount * n0_05) / n100
    /\ Simulation.SwapData.dynamicLeveryFee d = (swapAmount * n0_05) / n100
    /\ (swapAmount = abs amount0 \/ swapAmount = abs amount1)
    /\ (is_nan amount0 = false -> is_nan amount1 = false ->
        leb (abs amount0) swapAmount = true /\ leb (abs amount1) swapAmount = true)
    /\ forall r,
         Simulation.report prices swaps = Ok r ->
         exists ds1 ds2,
           Simulation.ResultData.swaps r = ds1 ++ d :: ds2
           /\ List.length ds1 = List.length before
           /\ List.length ds2 = List.length after
           /\ Simulation.ResultData.totalSwaps r = of_Z (Z.of_nat (List.length swaps))
           /\ Simulation.ResultData.totalStandardFee r
              = fold_left add
                  (map Simulation.SwapData.standardFee (ds1 ++ d :: ds2)) n0
           /\ Simulation.ResultData.totalDynamicLeveryFee r
              = fold_left add
                  (map Simulation.SwapData.dynamicLeveryFee (ds1 ++ d :: ds2)) n0
           /\ Simulation.ResultData.totalVolumeETH r
              = fold_left add
                  (map (fun s => if ltb (Swap.amount0 s) n0 then Swap.amount1 s
                                 else - Swap.amount1 s) swaps) n0
           /\ Simulation.ResultData.totalVolumeUSDC r
              = fold_left add
                  (map (fun s => if ltb (Swap.amount0 s) n0 then - Swap.amount0 s
                                 else Swap.amount0 s) swaps) n0.
Proof.
  intros Hdate Hlate amount0 amount1 swapAmount swaps.
  assert (Hd : exists d,
             Simulation.computeSwapData prices swap = Ok d
             /\ Simulation.SwapData.chainlinkPrice d = NA
             /\ Simulation.SwapData.dynamicLeveryFeePercent d = n0_05
             /\ Simulation.SwapData.standardFee d = (swapAmount * n0_05) / n100
             /\ Simulation.SwapData.dynamicLeveryFee d = (swapAmount * n0_05) / n100).
  { unfold Simulation.computeSwapData.
    rewrite toISOString_ok by exact Hdate.
    rewrite matcher_none by exact Hlate. cbn [bind].
    destruct (Simulation.direction _ _) as [[[[price volETH] volUSDC] buying] selling].
    eexists. split; [reflexivity|]. repeat split. }
  destruct Hd as (d & Hd & Hna & Hfee & Hstd & Hdyn).
  exists d. repeat (split; [assumption|]).
  split; [unfold swapAmount, Simulation.swapAmountOf; destruct (gtb _ _); auto|].
  split; [apply swapAmountOf_larger|].
  intros r Hreport. unfold Simulation.report in Hreport.
  destruct (Simulation.processSwaps prices Simulation.initialLoopState swaps)
    as [st'|msg] eqn:Hrun; cbn [bind] in Hreport; [|discriminate Hreport].
  injection Hreport as <-.
  (* the whole run *)
  destruct (processSwaps_totals _ _ _ Hrun) as (ds & Hds & _ & _ & Htstd & Htdyn & _).
  destruct (processSwaps_volumes_all _ _ _ Hrun) as [HE HU].
  pose proof (@processSwaps_count prices swaps _ _ 0 Hrun eq_refl) as Hcount.
  (* the three parts of the run *)
  unfold swaps in Hrun. rewrite processSwaps_app in Hrun.
  destruct (Simulation.processSwaps prices Simulation.initialLoopState before)
    as [st1|msg] eqn:Hbefore; cbn [bind Simulation.processSwaps] in Hrun;
    [|discriminate Hrun].
  destruct (Simulation.processSwap prices st1 swap) as [st2|msg] eqn:Hstep;
    cbn [bind] in Hrun; [|discriminate Hrun].
  destruct (processSwaps_totals _ _ _ Hbefore) as (ds1 & Hds1 & Hlen1 & _).
  destruct (processSwaps_totals _ _ _ Hrun) as (ds2 & Hds2 & Hlen2 & _).
  unfold Simulation.processSwap in Hstep. rewrite Hd in Hstep. cbn [bind] in Hstep.
  destruct (Simulation.direction _ _) as [[[[price volETH] volUSDC] buying] selling].
  injection Hstep as <-.
  cbn [Simulation.resultData Simulation.ResultData.swaps Simulation.initialLoopState
       Simulation.initialResultData app] in *.
  assert (Hall : ds = ds1 ++ d :: ds2).
  { rewrite <- Hds, Hds2, Hds1, <- app_assoc. reflexivity. }
  exists ds1, ds2. unfold Simulation.finalize.
  cbn [Simulation.ResultData.swaps Simulation.ResultData.totalSwaps
       Simulation.ResultData.totalStandardFee Simulation.ResultData.totalDynamicLeveryFee
       Simulation.ResultData.totalVolumeETH Simulation.ResultData.totalVolumeUSDC].
  rewrite <- Hall.
  split; [exact Hds|]. split; [exact Hlen1|]. split; [exact Hlen2|].
  split; [exact Hcount|]. split; [exact Htstd|]. split; [exact Htdyn|].
  split; [exact HE | exact HU].
Qed.

(** A run of three swaps against the round at 3100, the second made before
    that round: three records, the second with the marker and a fee of
    1500 * 0.05 / 100 on each side, fee totals 3.75 and 58923/620, 2.5 ETH
    and 7500 USDC. *)
Lemma unmatched_swap_still_counted_witness :
  validDate (Swap.timestamp earlyBuy)
  /\ (forall o, In o roundAt3100 -> Swap.timestamp earlyBuy < PriceData.timestamp o)
  /\ exists d r ds1 ds2,
       Simulation.computeSwapData roundAt3100 earlyBuy = Ok d
       /\ Simulation.SwapData.chainlinkPrice d = NA
       /\ Simulation.SwapData.dynamicLeveryFeePercent d = Fin (1 # 20)
       /\ Simulation.SwapData.standardFee d = Fin (3 # 4)
       /\ Simulation.SwapData.dynamicLeveryFee d = Fin (3 # 4)
       /\ Simulation.report roundAt3100 [sampleSell; earlyBuy; sampleBuy] = Ok r
       /\ Simulation.ResultData.swaps r = ds1 ++ d :: ds2
       /\ List.length ds1 = 1%nat /\ List.length ds2 = 1%nat
       /\ Simulation.ResultData.totalSwaps r = Fin 3
       /\ Simulation.ResultData.totalStandardFee r = Fin (15 # 4)
       /\ Simulation.ResultData.totalVolumeETH r = Fin (5 # 2)
       /\ Simulation.ResultData.totalVolumeUSDC r = Fin 7500.
Proof.
  assert (Hdate : validDate (Swap.timestamp earlyBuy)).
  { unfold validDate, MAX_TIME_VALUE. simpl. lia. }
  assert (Hlate : forall o, In o roundAt3100 ->
                            Swap.timestamp earlyBuy < PriceData.timestamp o).
  { intros o [<-|[]]. simpl. lia. }
  split; [exact Hdate|]. split; [exact Hlate|].
  destruct (@unmatched_swap_still_counted roundAt3100 [sampleSell] [sampleBuy] earlyBuy
              Hdate Hlate)
    as (d & Hd & Hna & Hfee & Hstd & Hdyn & _ & _ & Hreport).
  destruct (Simulation.report roundAt3100 [sampleSell; earlyBuy; sampleBuy])
    as [r|msg] eqn:Hrun; [|vm_compute in Hrun; discriminate Hrun].
  destruct (Hreport r Hrun)
    as (ds1 & ds2 & Hds & Hlen1 & Hlen2 & Hcount & Htstd & _ & HE & HU).
  exists d, r, ds1, ds2.
  split; [exact Hd|]. split; [exact Hna|]. split; [exact Hfee|].
  split; [rewrite Hstd; vm_compute; reflexivity|].
  split; [rewrite Hdyn; vm_compute; reflexivity|].
  split; [reflexivity|]. split; [exact Hds|].
  split; [exact Hlen1|]. split; [exact Hlen2|].
  split; [exact Hcount|].
  split; [|split; [rewrite HE | rewrite HU]; vm_compute; reflexivity].
  pose proof Hrun as Hval. vm_compute in Hval. injection Hval as <-. reflexivity.
Defined.

(** ** The trade ingestor *)

Section IngestorFacts.
Import Ingestor.
Variable subgraph : Subgraph.
Variable startTime : Z.

Lemma lastIdOf_last (front : list Swap.t) (lastRecord : Swap.t) (default : string) :
  lastIdOf (front ++ [lastRecord]) default = Swap.id lastRecord.
Proof. unfold lastIdOf. now rewrite rev_unit. Qed.

(** Once [hasMore] is false the loop returns, whatever fuel is left. *)
Lemma loop_done (fuel : nat) (acc : list Swap.t) (cursor : string)
  (sent : list Request) :
  loop fuel subgraph startTime (mkState acc cursor false) sent = Some (Ok acc, sent).
Proof. destruct fuel; reflexivity. Qed.

(** More fuel does not change what the loop returns. *)
Lemma loop_more_fuel (fuel : nat) :
  forall fuel' st sent r,
    loop fuel subgraph startTime st sent = Some r ->
    (fuel <= fuel')%nat ->
    loop fuel' subgraph startTime st sent = Some r.
Proof.
  induction fuel as [|fuel IH]; intros fuel' st sent r Hrun Hle.
  - destruct st as [acc cursor [|]]; [discriminate Hrun|].
    rewrite loop_done. now rewrite loop_done in Hrun.
  - destruct fuel' as [|fuel']; [lia|].
    cbn [loop] in *. destruct (hasMore st); [|exact Hrun].
    destruct (iteration _ st) as [st'|msg]; [|exact Hrun].
    apply IH; [exact Hrun | lia].
Qed.

(** One more iteration on a full page. *)
Lemma loop_full_page (fuel : nat) (acc : list Swap.t) (cursor : string)
  (sent : list Request) (pool : Pool) (front : list Swap.t) (lastRecord : Swap.t) :
  subgraph ((startTime / 1000)%Z, cursor) = Ok (Some pool) ->
  (PAGE_SIZE <= List.length (swaps pool))%nat ->
  swaps pool = front ++ [lastRecord] ->
  loop (S fuel) subgraph startTime (mkState acc cursor true) sent
  = loop fuel subgraph startTime
      (mkState (acc ++ swaps pool) (Swap.id lastRecord) true)
      (sent ++ [((startTime / 1000)%Z, cursor)]).
Proof.
  intros Hpage Hfull Hlast.
  cbn [loop hasMore]. unfold requestOf. cbn [lastId].
  rewrite Hpage. unfold iteration. cbn [bind allSwaps lastId hasMore].
  destruct (Nat.ltb_spec (List.length (swaps pool)) PAGE_SIZE); [lia|].
  rewrite Hlast at 2. now rewrite lastIdOf_last.
Qed.

(** One more iteration on a short page ends the loop. *)
Lemma loop_short_page (fuel : nat) (acc : list Swap.t) (cursor : string)
  (sent : list Request) (pool : Pool) :
  subgraph ((startTime / 1000)%Z, cursor) = Ok (Some pool) ->
  (List.length (swaps pool) < PAGE_SIZE)%nat ->
  loop (S fuel) subgraph startTime (mkState acc cursor true) sent
  = Some (Ok (acc ++ swaps pool), sent ++ [((startTime / 1000)%Z, cursor)]).
Proof.
  intros Hpage Hshort.
  cbn [loop hasMore]. unfold requestOf. cbn [lastId].
  rewrite Hpage. unfold iteration. cbn [bind allSwaps lastId hasMore].
  destruct (Nat.ltb_spec (List.length (swaps pool)) PAGE_SIZE); [|lia].
  apply loop_done.
Qed.

(** The loop reaches every state that a chain of full pages describes. *)
Lemma loop_reaches (sent : list Request) (cursor : string) (acc : list Swap.t) :
  FullPages subgraph startTime sent cursor acc ->
  exists k, forall fuel,
    loop (k + fuel) subgraph startTime initialState []
    = loop fuel subgraph startTime (mkState acc cursor true) sent.
Proof.
  induction 1 as [|sent cursor acc pool front lastRecord _ [k IH] Hpage Hfull Hlast].
  - exists O. reflexivity.
  - exists (S k). intros fuel.
    replace (S k + fuel)%nat with (k + S fuel)%nat by lia.
    rewrite IH. now apply loop_full_page with (front := front).
Qed.

(** A normal return comes from a short page at the end of such a chain. *)
Lemma loop_returns (fuel : nat) :
  forall sent cursor acc res sent',
    FullPages subgraph startTime sent cursor acc ->
    loop fuel subgraph startTime (mkState acc cursor true) sent = Some (Ok res, sent') ->
    exists sent0 cursor0 acc0 pool,
      FullPages subgraph startTime sent0 cursor0 acc0
      /\ subgraph ((startTime / 1000)%Z, cursor0) = Ok (Some pool)
      /\ (List.length (swaps pool) < PAGE_SIZE)%nat
      /\ res = acc0 ++ swaps pool
      /\ sent' = sent0 ++ [((startTime / 1000)%Z, cursor0)].
Proof.
  induction fuel as [|fuel IH]; intros sent cursor acc res sent' Hchain Hrun.
  - discriminate Hrun.
  - destruct (subgraph ((startTime / 1000)%Z, cursor)) as [[pool|]|msg] eqn:Hpage.
    + destruct (Nat.ltb_spec (List.length (swaps pool)) PAGE_SIZE) as [Hshort|Hfull].
      * rewrite (@loop_short_page fuel acc cursor sent pool Hpage Hshort) in Hrun.
        injection Hrun as <- <-.
        exists sent, cursor, acc, pool. auto.
      * destruct (exists_last (l := swaps pool)) as (front & lastRecord & Hlast).
        { intros E. rewrite E in Hfull. unfold PAGE_SIZE in Hfull. simpl in Hfull. lia. }
        rewrite (@loop_full_page fuel acc cursor sent pool front lastRecord
                   Hpage Hfull Hlast) in Hrun.
        eapply IH; [|exact Hrun].
        eapply pages_next; eassumption.
    + cbn [loop hasMore] in Hrun. unfold requestOf in Hrun. cbn [lastId] in Hrun.
      rewrite Hpage in Hrun. discriminate Hrun.
    + cbn [loop hasMore] in Hrun. unfold requestOf in Hrun. cbn [lastId] in Hrun.
      rewrite Hpage in Hrun. discriminate Hrun.
Qed.

(** C9.  [fetchSwaps] sends the identifier of the last record of a page as
    the cursor of the next request.  It returns normally exactly when, after
    a run of full pages, a page holds fewer than 1000 records (an empty page
    included), and it then returns every record read, in order.  When the
    pool is absent from an answer it throws "Pool not found" with that
    request as the last one sent: nothing is asked again. *)
Theorem fetchSwaps_pagination :
  (forall res sent,
      (exists fuel, fetchSwaps fuel subgraph startTime = Some (Ok res, sent))
      <->
      (exists sent0 cursor acc pool,
          FullPages subgraph startTime sent0 cursor acc
          /\ subgraph ((startTime / 1000)%Z, cursor) = Ok (Some pool)
          /\ (List.length (swaps pool) < PAGE_SIZE)%nat
          /\ res = acc ++ swaps pool
          /\ sent = sent0 ++ [((startTime / 1000)%Z, cursor)]))
  /\
  (forall sent0 cursor acc,
      FullPages subgraph startTime sent0 cursor acc ->
      subgraph ((startTime / 1000)%Z, cursor) = Ok None ->
      exists fuel,
        fetchSwaps fuel subgraph startTime
        = Some (Throw "Pool not found", sent0 ++ [((startTime / 1000)%Z, cursor)])).
Proof.
  split.
  - intros res sent. split.
    + intros [fuel Hrun]. eapply loop_returns; [apply pages_none | exact Hrun].
    + intros (sent0 & cursor & acc & pool & Hchain & Hpage & Hshort & -> & ->).
      destruct (@loop_reaches sent0 cursor acc Hchain) as [k Hk].
      exists (k + 1)%nat. unfold fetchSwaps. rewrite Hk.
      now apply loop_short_page.
  - intros sent0 cursor acc Hchain Hpage.
    destruct (@loop_reaches sent0 cursor acc Hchain) as [k Hk].
    exists (k + 1)%nat. unfold fetchSwaps. rewrite Hk.
    cbn [loop hasMore]. unfold requestOf. cbn [lastId].
    rewrite Hpage. reflexivity.
Qed.

End IngestorFacts.

(** A full page followed by a page of two swaps, and a missing pool. *)
Lemma fetchSwaps_pagination_witness :
  (exists fuel,
      Ingestor.fetchSwaps fuel twoPages 1700000000000
      = Some (Ok (fullPage ++ [sampleBuy; sampleBuy]),
              [(1700000000, EmptyString); (1700000000, Swap.id sampleSell)]))
  /\
  (exists fuel,
      Ingestor.fetchSwaps fuel noPool 1700000000000
      = Some (Throw "Pool not found", [(1700000000, EmptyString)])).
Proof.
  split.
  - apply (proj1 (fetchSwaps_pagination twoPages 1700000000000)).
    exists [(1700000000, EmptyString)], (Swap.id sampleSell), fullPage,
      (Ingestor.mkPool [sampleBuy; sampleBuy]).
    split; [|repeat split].
    + apply (@pages_next twoPages 1700000000000 [] EmptyString []
               (Ingestor.mkPool fullPage) (repeat sampleBuy 999) sampleSell).
      * apply pages_none.
      * reflexivity.
      * apply Nat.leb_le. vm_compute. reflexivity.
      * reflexivity.
    + apply Nat.ltb_lt. vm_compute. reflexivity.
  - apply (proj2 (fetchSwaps_pagination noPool 1700000000000) [] EmptyString []).
    + apply pages_none.
    + reflexivity.
Defined.

(** ** The oracle history builder *)

Section OracleFacts.
Import Oracle.
Variable feed : PriceFeed.

(** A fetch with retries asks for its round only, at least once and at most
    [more + 1] times, every time when it ends in a throw, and leaves the
    rounds file alone. *)
Lemma attemptFrom_requests (more : nat) (roundId : Z) :
  forall w,
    roundsFile (snd (attemptFrom more feed roundId w)) = roundsFile w
    /\ exists k, (1 <= k <= S more)%nat
              /\ requested (snd (attemptFrom more feed roundId w))
                 = repeat roundId k ++ requested w
              /\ (forall e, fst (attemptFrom more feed roundId w) = Throw e ->
                            k = S more).
Proof.
  induction more as [|more IH]; intros w; cbn [attemptFrom];
    unfold callGetRoundData;
    destruct (getRoundData feed (requested w) roundId) as [d|msg];
    cbn [fst snd roundsFile requested];
    try (split; [reflexivity|]; exists 1%nat;
         split; [lia|]; split; [reflexivity|]; intros e; (discriminate || reflexivity)).
  destruct (IH (mkWorld (roundsFile w) (roundId :: requested w)))
    as (Hfile & k & Hk & Hreq & Hthrow).
  split; [exact Hfile|].
  exists (S k). split; [lia|]. split.
  - rewrite Hreq. cbn [requested].
    change (roundId :: requested w) with ([roundId] ++ requested w).
    rewrite app_assoc. f_equal.
    change [roundId] with (repeat roundId 1). rewrite <- repeat_app.
    f_equal. lia.
  - intros e He. f_equal. now apply (Hthrow e).
Qed.

Lemma fetchRoundDataWithRetry_requests (roundId : Z) (w : World) :
  roundsFile (snd (fetchRoundDataWithRetry feed roundId w)) = roundsFile w
  /\ exists k, (1 <= k <= MAX_RETRIES)%nat
            /\ requested (snd (fetchRoundDataWithRetry feed roundId w))
               = repeat roundId k ++ requested w.
Proof.
  destruct (attemptFrom_requests (MAX_RETRIES - 1) roundId w)
    as (Hfile & k & Hk & Hreq & _).
  split; [exact Hfile|]. exists k. split; [exact Hk | exact Hreq].
Qed.

(** [fetchRoundDataWithRetry] asks for its round at least once and at most
    [MAX_RETRIES] times and for no other round; it throws only after
    [MAX_RETRIES] requests; it does not touch the rounds file. *)
Theorem retries_are_bounded (roundId : Z) (w : World) :
  let run := fetchRoundDataWithRetry feed roundId w in
  roundsFile (snd run) = roundsFile w
  /\ exists k, (1 <= k <= MAX_RETRIES)%nat
            /\ requested (snd run) = repeat roundId k ++ requested w
            /\ (forall e, fst run = Throw e -> k = MAX_RETRIES).
Proof.
  cbv zeta. unfold fetchRoundDataWithRetry.
  destruct (attemptFrom_requests (MAX_RETRIES - 1) roundId w)
    as (Hfile & k & Hk & Hreq & Hthrow).
  split; [exact Hfile|]. exists k.
  split; [exact Hk|]. split; [exact Hreq | exact Hthrow].
Qed.

(** The [while] loop only asks for rounds from 0 to the one below its
    starting round, and hands back a round between 0 and the starting one. *)
Lemma walkBack_requests (startTime endTime : Q) (roundId : Z) (roundData : RoundData)
  (prices : list PriceData.t) (w : World) :
  exists new,
    requested (snd (walkBack feed startTime endTime roundId roundData prices w))
    = new ++ requested w
    /\ Forall (fun id => 0 <= id < roundId) new.
Proof.
  funelim (walkBack feed startTime endTime roundId roundData prices w).
  - (* the loop condition is false *)
    exists []. split; [reflexivity | constructor].
  - (* the fetch of the round below succeeded *)
    match goal with
    | IH : exists _, _ |- _ => destruct IH as (new & Hnew & Hall)
    end.
    match goal with
    | E : fetchRoundDataWithRetry _ _ _ = _ |- _ =>
        destruct (fetchRoundDataWithRetry_requests (roundId - 1)%Z w) as (_ & k & _ & Hk);
        rewrite E in Hk; cbn [snd] in Hk
    end.
    assert (Hpos : 0 < roundId).
    { pose proof Hcond as Hc. unfold keepWalking in Hc.
      apply andb_prop in Hc. now apply Z.ltb_lt. }
    exists (new ++ repeat (roundId - 1)%Z k). split.
    + rewrite Hnew, Hk. now rewrite app_assoc.
    + apply Forall_app. split.
      * eapply Forall_impl; [|exact Hall]. cbn. lia.
      * apply Forall_forall. intros id Hid. apply repeat_spec in Hid. lia.
  - (* the fetch failed after the retries *)
    match goal with
    | E : fetchRoundDataWithRetry _ _ _ = _ |- _ =>
        destruct (fetchRoundDataWithRetry_requests (roundId - 1)%Z w) as (_ & k & _ & Hk);
        rewrite E in Hk; cbn [snd] in Hk
    end.
    assert (Hpos : 0 < roundId).
    { pose proof Hcond as Hc. unfold keepWalking in Hc.
      apply andb_prop in Hc. now apply Z.ltb_lt. }
    exists (repeat (roundId - 1)%Z k). split; [exact Hk|].
    apply Forall_forall. intros id Hid. apply repeat_spec in Hid. lia.
Qed.

(** The [while] loop, one iteration unfolded. *)
Lemma walkBack_step (startTime endTime : Q) (roundId : Z) (roundData : RoundData)
  (prices : list PriceData.t) (w : World) :
  walkBack feed startTime endTime roundId roundData prices w
  = if keepWalking startTime roundId roundData then
      match fetchRoundDataWithRetry feed (roundId - 1)%Z w with
      | (Ok roundData', w') =>
          walkBack feed startTime endTime (roundId - 1)%Z roundData'
            (collect feed endTime roundId roundData prices) w'
      | (Throw e, w') => (Throw e, w')
      end
    else (Ok (roundId, roundData, prices), w).
Proof.
  funelim (walkBack feed startTime endTime roundId roundData prices w);
    rewrite Hcond;
    try match goal with
        | E : fetchRoundDataWithRetry _ _ _ = _ |- _ => rewrite E
        end;
    congruence.
Qed.

(** The loop of extra rounds pushes the [n] rounds below [roundId], whatever
    they are and whatever [prices] already holds. *)
Lemma extraRounds_pushes (n : nat) :
  forall (roundId : Z) (prices prices' : list PriceData.t) (w w' : World),
    extraRounds n feed roundId prices w = (Ok prices', w') ->
    map PriceData.roundId prices'
    = map PriceData.roundId prices
      ++ map (fun i => (roundId - Z.of_nat i)%Z) (seq 1 n).
Proof.
  induction n as [|n IH]; intros roundId prices prices' w w' H;
    cbn [extraRounds] in H.
  - injection H as <- _. cbn [seq map]. now rewrite app_nil_r.
  - unfold bindM in H.
    destruct (fetchRoundDataWithRetry feed (roundId - 1)%Z w) as [[roundData|msg] w1];
      [|discriminate H].
    apply IH in H. rewrite H, map_app, <- app_assoc. f_equal.
    cbn [map seq entry PriceData.roundId app]. f_equal.
    rewrite <- (seq_shift n 1), map_map. apply map_ext. intros i. lia.
Qed.

(** The round the [while] loop hands back is between 0 and the round it
    started from, and the loop condition is false there. *)
Lemma walkBack_result (startTime endTime : Q) (roundId : Z) (roundData : RoundData)
  (prices : list PriceData.t) (w : World) :
  forall r rd prices' w',
    walkBack feed startTime endTime roundId roundData prices w
    = (Ok (r, rd, prices'), w') ->
    0 <= roundId ->
    0 <= r <= roundId /\ keepWalking startTime r rd = false.
Proof.
  funelim (walkBack feed startTime endTime roundId roundData prices w);
    intros r rd prices' w0 Hrun Hnonneg.
  - injection Hrun as <- <- _ _. split; [lia | assumption].
  - assert (Hpos : 0 < roundId).
    { pose proof Hcond as Hc. unfold keepWalking in Hc.
      apply andb_prop in Hc. now apply Z.ltb_lt. }
    match goal with
    | IH : forall _ _ _ _, _ -> _ -> _ |- _ =>
        eapply IH in Hrun; [|lia]; destruct Hrun as [Hr Hstop]
    end.
    split; [lia | exact Hstop].
  - discriminate Hrun.
Qed.

(** What a successful build returns ends with the five rounds below the
    round [r] at which the walk stopped, [0 <= r <= latestRound]; the same
    list is written to the rounds file. *)
Theorem build_ends_with_extra_rounds (startTime endTime : Q) (w w' : World)
  (prices : list PriceData.t) :
  fetchHistoricalChainlinkPrices feed startTime endTime w = (Ok prices, w') ->
  0 <= latestRound feed ->
  exists r front,
    0 <= r <= latestRound feed
    /\ map PriceData.roundId prices
       = front ++ [r - 1; r - 2; r - 3; r - 4; r - 5]%Z
    /\ roundsFile w' = Some prices.
Proof.
  unfold fetchHistoricalChainlinkPrices, bindM, readRoundsFile, writeRoundsFile, ret.
  intros H Hlatest.
  destruct (fetchRoundDataWithRetry feed (latestRound feed) w) as [[roundData|msg] w1];
    [|discriminate H].
  destruct (walkBack _ _ _ _ _ _ _) as [[[[r rd] walked]|msg] w2] eqn:Hwalk;
    [|discriminate H].
  destruct (extraRounds EXTRA_ROUNDS feed r walked w2) as [[prices'|msg] w3] eqn:Hextra;
    [|discriminate H].
  injection H as <- <-.
  eapply walkBack_result in Hwalk; [|exact Hlatest]. destruct Hwalk as [Hr _].
  apply extraRounds_pushes in Hextra.
  exists r, (map PriceData.roundId walked). split; [exact Hr|].
  split; [exact Hextra | reflexivity].
Qed.

End OracleFacts.

(** The steady feed and a window from 1450 to 5000: the walk stops at round
    14 and the build ends with rounds 13 to 9. *)
Lemma build_ends_with_extra_rounds_witness :
  0 <= Oracle.latestRound steadyFeed
  /\ exists prices w' r front,
       Oracle.fetchHistoricalChainlinkPrices steadyFeed (1450 # 1) (5000 # 1) emptyWorld
       = (Ok prices, w')
       /\ 0 <= r <= Oracle.latestRound steadyFeed
       /\ map PriceData.roundId prices = front ++ [r - 1; r - 2; r - 3; r - 4; r - 5]%Z
       /\ Oracle.roundsFile w' = Some prices.
Proof.
  assert (Hlatest : 0 <= Oracle.latestRound steadyFeed) by (simpl; lia).
  split; [exact Hlatest|].
  eexists. eexists.
  assert (Hrun : Oracle.fetchHistoricalChainlinkPrices steadyFeed (1450 # 1) (5000 # 1)
                   emptyWorld
                 = (Ok (steadyRounds [20; 19; 18; 17; 16; 15; 13; 12; 11; 10; 9]),
                    Oracle.mkWorld
                      (Some (steadyRounds [20; 19; 18; 17; 16; 15; 13; 12; 11; 10; 9]))
                      [9; 10; 11; 12; 13; 14; 15; 16; 17; 18; 19; 20]))
    by (vm_compute; reflexivity).
  destruct (@build_ends_with_extra_rounds steadyFeed _ _ _ _ _ Hrun Hlatest)
    as (r & front & Hr & Hids & Hfile).
  exists r, front. split; [exact Hrun|]. split; [exact Hr|].
  split; [exact Hids | exact Hfile].
Defined.

(** ** Running the builder twice against an unchanged feed *)

Section UnchangedFeed.
Import Oracle.
Variable feed : PriceFeed.
Variable data : Z -> RoundData.

(** The feed answers every request, always with the same data. *)
Hypothesis unchanged :
  forall earlier roundId, getRoundData feed earlier roundId = Ok (data roundId).


Lemma fetch_unchanged (roundId : Z) (w : World) :
  fetchRoundDataWithRetry feed roundId w
  = (Ok (data roundId), mkWorld (roundsFile w) (roundId :: requested w)).
Proof.
  unfold fetchRoundDataWithRetry, MAX_RETRIES. cbn [Nat.sub attemptFrom].
  unfold callGetRoundData. now rewrite unchanged.
Qed.

Lemma cached_app (prices more : list PriceData.t) (roundId : Z) :
  cached (prices ++ more) roundId = cached prices roundId || cached more roundId.
Proof. unfold cached. apply existsb_app. Qed.

(** [collect] appends at most the entry of its round, and afterwards a round
    inside the window is in the list. *)
Lemma collect_spec (endTime : Q) (roundId : Z) (roundData : RoundData)
  (prices : list PriceData.t) :
  (exists added, collect feed endTime roundId roundData prices = prices ++ added)
  /\ (Qle_bool (inject_Z (updatedAt roundData)) endTime = true ->
      cached (collect feed endTime roundId roundData prices) roundId = true).
Proof.
  unfold collect.
  destruct (Qle_bool _ endTime); cbn [andb].
  - destruct (cached prices roundId) eqn:Hc; cbn [negb].
    + split; [exists []; now rewrite app_nil_r | trivial].
    + split; [eexists; reflexivity|]. intros _.
      rewrite cached_app. apply orb_true_iff. right.
      unfold cached, entry. cbn. now rewrite Z.eqb_refl.
  - split; [exists []; now rewrite app_nil_r | discriminate].
Qed.

(** A list in which the round is already present is left as it is. *)
Lemma collect_known (endTime : Q) (roundId : Z) (roundData : RoundData)
  (prices : list PriceData.t) :
  (Qle_bool (inject_Z (updatedAt roundData)) endTime = true ->
   cached prices roundId = true) ->
  collect feed endTime roundId roundData prices = prices.
Proof.
  unfold collect. intros H.
  destruct (Qle_bool _ endTime); cbn [andb]; trivial.
  now rewrite H.
Qed.

(** A walk that ended at round [r] ends there again, and appends nothing,
    when it starts from a list that holds every round the first walk
    left in its result. *)
Lemma walk_again (startTime endTime : Q) (roundId : Z) (roundData : RoundData)
  (prices : list PriceData.t) (w : World) :
  forall r rd prices' w',
    walkBack feed startTime endTime roundId roundData prices w
    = (Ok (r, rd, prices'), w') ->
    (exists added, prices' = prices ++ added)
    /\ forall known w2,
        (forall id, cached prices' id = true -> cached known id = true) ->
        fst (walkBack feed startTime endTime roundId roundData known w2)
        = Ok (r, rd, known).
Proof.
  funelim (walkBack feed startTime endTime roundId roundData prices w);
    intros r rd prices' w0 Hrun.
  - injection Hrun as <- <- <- _.
    split; [exists []; now rewrite app_nil_r|].
    intros known w2 _. rewrite walkBack_step, Hcond. reflexivity.
  - match goal with
    | E : fetchRoundDataWithRetry _ _ _ = _ |- _ =>
        rewrite fetch_unchanged in E; injection E as <- <-
    end.
    match goal with
    | IH : forall _ _ _ _, _ -> _ |- _ =>
        destruct (IH _ _ _ _ Hrun) as [[added Hadded] Hagain]
    end.
    destruct (collect_spec endTime roundId roundData prices) as [[first Hfirst] Hin].
    split.
    + exists (first ++ added). rewrite Hadded, Hfirst. now rewrite app_assoc.
    + intros known w2 Hknown.
      rewrite walkBack_step, Hcond, fetch_unchanged.
      rewrite collect_known.
      * now apply Hagain.
      * intros Hwindow. apply Hknown. rewrite Hadded, cached_app.
        apply orb_true_iff. left. now apply Hin.
  - discriminate Hrun.
Qed.

(** Against this feed the loop of extra rounds cannot fail. *)
Lemma extraRounds_unchanged (n : nat) :
  forall (roundId : Z) (prices : list PriceData.t) (w : World),
    fst (extraRounds n feed roundId prices w)
    = Ok (prices
          ++ map (fun i => entry feed (roundId - Z.of_nat i)%Z
                             (data (roundId - Z.of_nat i)%Z))
                 (seq 1 n)).
Proof.
  induction n as [|n IH]; intros roundId prices w; cbn [extraRounds].
  - cbn. now rewrite app_nil_r.
  - unfold bindM. rewrite fetch_unchanged, IH, <- app_assoc.
    cbn [app seq map]. rewrite <- (seq_shift n 1), map_map.
    rewrite (map_ext
               (fun i => entry feed (roundId - 1 - Z.of_nat i)%Z
                           (data (roundId - 1 - Z.of_nat i)%Z))
               (fun i => entry feed (roundId - Z.of_nat (S i))%Z
                           (data (roundId - Z.of_nat (S i))%Z))).
    + reflexivity.
    + intros i. replace (roundId - 1 - Z.of_nat i)%Z with (roundId - Z.of_nat (S i))%Z
        by lia. reflexivity.
Qed.

(** The build, unfolded against this feed: the walk, then the extra rounds. *)
Lemma build_unchanged (startTime endTime : Q) (w : World) :
  let prices := match roundsFile w with Some prices => prices | None => [] end in
  let w1 := mkWorld (roundsFile w) (latestRound feed :: requested w) in
  fst (fetchHistoricalChainlinkPrices feed startTime endTime w)
  = match walkBack feed startTime endTime (latestRound feed) (data (latestRound feed)) prices w1 with
    | (Ok (r, _, walked), w2) => fst (extraRounds EXTRA_ROUNDS feed r walked w2)
    | (Throw e, _) => Throw e
    end.
Proof.
  cbv zeta. unfold fetchHistoricalChainlinkPrices, bindM, readRoundsFile.
  rewrite fetch_unchanged.
  destruct (walkBack _ _ _ _ _ _ _) as [[[[r rd] walked]|e] w2]; [|reflexivity].
  destruct (extraRounds EXTRA_ROUNDS _ r walked w2) as [[prices'|e] w3]; reflexivity.
Qed.

(** A list followed by a part of itself repeats a round identifier. *)
Lemma repeated_rounds (front extra : list PriceData.t) :
  extra <> [] ->
  ~ NoDup (map PriceData.roundId ((front ++ extra) ++ extra)).
Proof.
  destruct extra as [|x xs]; [congruence|]. intros _ Hnodup.
  rewrite map_app in Hnodup. cbn [map] in Hnodup.
  apply NoDup_remove_2 in Hnodup. apply Hnodup.
  apply in_or_app. left. apply in_map, in_or_app. right. now left.
Qed.

(** Against an unchanged feed, a build that starts from the rounds file
    written by an earlier build returns the cached rounds followed, once
    more, by the five extra rounds the earlier build ended with: their
    round identifiers are in the result twice. *)
Theorem rerun_appends_extra_rounds_again (startTime endTime : Q)
  (cache : list PriceData.t) (w1 : World) (requestedBefore : list Z) :
  fetchHistoricalChainlinkPrices feed startTime endTime emptyWorld = (Ok cache, w1) ->
  exists front extra,
    cache = front ++ extra
    /\ List.length extra = EXTRA_ROUNDS
    /\ roundsFile w1 = Some cache
    /\ fst (fetchHistoricalChainlinkPrices feed startTime endTime
              (mkWorld (Some cache) requestedBefore))
       = Ok (cache ++ extra)
    /\ ~ NoDup (map PriceData.roundId (cache ++ extra)).
Proof.
  intros Hfirst.
  assert (Hfile : roundsFile w1 = Some cache).
  { revert Hfirst.
    unfold fetchHistoricalChainlinkPrices, bindM, readRoundsFile, writeRoundsFile, ret.
    destruct (fetchRoundDataWithRetry _ _ _) as [[rd0|e] w0]; [|discriminate].
    destruct (walkBack _ _ _ _ _ _ _) as [[[[r rd] walked]|e] w2]; [|discriminate].
    destruct (extraRounds _ _ _ _ _) as [[prices'|e] w3]; [|discriminate].
    now intros [= <- <-]. }
  pose proof (build_unchanged startTime endTime emptyWorld) as Hbuild.
  rewrite Hfirst in Hbuild. cbv zeta in Hbuild. cbn [fst emptyWorld roundsFile requested] in Hbuild.
  destruct (walkBack feed startTime endTime (latestRound feed) (data (latestRound feed)) [] _)
    as [[[[r rd] walked]|e] w2] eqn:Hwalk; [|discriminate Hbuild].
  rewrite extraRounds_unchanged in Hbuild. injection Hbuild as Hcache.
  destruct (walk_again _ _ _ _ _ _ Hwalk) as [_ Hagain].
  eexists walked, _. split; [exact Hcache|].
  split; [reflexivity|].
  split; [exact Hfile|].
  split; [|rewrite Hcache at 1; now apply repeated_rounds].
  rewrite build_unchanged. cbv zeta. cbn [roundsFile requested].
  pose proof (Hagain cache (mkWorld (Some cache) (latestRound feed :: requestedBefore))) as Hsecond.
  destruct (walkBack feed startTime endTime (latestRound feed) (data (latestRound feed)) cache _)
    as [[[[r' rd'] walked']|e] w2'].
  - cbn [fst] in Hsecond.
    assert (E : Ok (r', rd', walked') = Ok (r, rd, cache)).
    { apply Hsecond. intros id. rewrite Hcache, cached_app.
      intros H. rewrite H. reflexivity. }
    injection E as -> -> ->.
    rewrite extraRounds_unchanged. reflexivity.
  - cbn [fst] in Hsecond.
    assert (E : @Throw (Z * RoundData * list PriceData.t) e = Ok (r, rd, cache)).
    { apply Hsecond. intros id. rewrite Hcache, cached_app.
      intros H. rewrite H. reflexivity. }
    discriminate E.
Qed.

End UnchangedFeed.

(** The steady feed, window from 1450 to 5000. *)
Lemma rerun_appends_extra_rounds_again_witness :
  (forall earlier roundId,
      Oracle.getRoundData steadyFeed earlier roundId
      = Ok (Oracle.mkRound (100 * roundId) (roundId * 100000000)))
  /\ exists cache w1 front extra,
       Oracle.fetchHistoricalChainlinkPrices steadyFeed (1450 # 1) (5000 # 1) emptyWorld
       = (Ok cache, w1)
       /\ cache = front ++ extra
       /\ List.length extra = Oracle.EXTRA_ROUNDS
       /\ Oracle.roundsFile w1 = Some cache
       /\ fst (Oracle.fetchHistoricalChainlinkPrices steadyFeed (1450 # 1) (5000 # 1)
                 (Oracle.mkWorld (Some cache) []))
          = Ok (cache ++ extra)
       /\ ~ NoDup (map PriceData.roundId (cache ++ extra)).
Proof.
  assert (Hfeed : forall earlier roundId,
             Oracle.getRoundData steadyFeed earlier roundId
             = Ok (Oracle.mkRound (100 * roundId) (roundId * 100000000)))
    by reflexivity.
  split; [exact Hfeed|].
  eexists. eexists.
  assert (Hrun : Oracle.fetchHistoricalChainlinkPrices steadyFeed (1450 # 1) (5000 # 1)
                   emptyWorld
                 = (Ok (steadyRounds [20; 19; 18; 17; 16; 15; 13; 12; 11; 10; 9]),
                    Oracle.mkWorld
                      (Some (steadyRounds [20; 19; 18; 17; 16; 15; 13; 12; 11; 10; 9]))
                      [9; 10; 11; 12; 13; 14; 15; 16; 17; 18; 19; 20]))
    by (vm_compute; reflexivity).
  destruct (@rerun_appends_extra_rounds_again steadyFeed _ Hfeed _ _ _ _ [] Hrun)
    as (front & extra & H).
  exists front, extra. split; [exact Hrun | exact H].
Defined.

(** C7, on the code.  A feed with latest round 2 whose rounds are all
    later than the start of the window: the [while] loop stops at round 0,
    and the loop of extra rounds goes on to round -1.  The feed that rejects
    negative identifiers is asked for round -1 five times (the retries) and
    the build throws; the lenient feed is asked for rounds -1 to -5, and
    they are part of the returned observations.  The walk of [app.js] asks
    for round -1 in the same way. *)
Theorem extra_rounds_go_below_zero :
  Oracle.fetchHistoricalChainlinkPrices shortFeed
    (1700000000 # 1) (2100000000 # 1) emptyWorld
  = (Throw "value out-of-bounds",
     Oracle.mkWorld None [-1; -1; -1; -1; -1; 0; 1; 2])
  /\
  outcome (map PriceData.roundId)
    (fst (Oracle.fetchHistoricalChainlinkPrices lenientShortFeed
            (1700000000 # 1) (2100000000 # 1) emptyWorld))
  = Some [2; 1; -1; -2; -3; -4; -5]
  /\
  Oracle.requested
    (snd (Oracle.fetchHistoricalChainlinkPrices lenientShortFeed
            (1700000000 # 1) (2100000000 # 1) emptyWorld))
  = [-5; -4; -3; -2; -1; 0; 1; 2]
  /\
  AppOracle.fetchHistoricalChainlinkPrices shortFeed
    (1700000000 # 1) (2100000000 # 1) emptyWorld
  = (Throw "value out-of-bounds", Oracle.mkWorld None [-1; 0; 1; 2]).
Proof. repeat split; vm_compute; reflexivity. Qed.

(** C8, on the code.  The steady feed, window from 1450 to 5000: the first
    run, without a rounds file, returns rounds 20 to 15 and the extra rounds
    13 to 9, and writes them to the file.  The second run, started from
    that file against the same feed, adds nothing inside the window and
    pushes the extra rounds 13 to 9 a second time. *)
Theorem rerun_duplicates_extra_rounds :
  let firstRun :=
    Oracle.fetchHistoricalChainlinkPrices steadyFeed (1450 # 1) (5000 # 1) emptyWorld in
  let cache := steadyRounds [20; 19; 18; 17; 16; 15; 13; 12; 11; 10; 9] in
  let secondRun :=
    Oracle.fetchHistoricalChainlinkPrices steadyFeed (1450 # 1) (5000 # 1)
      (Oracle.mkWorld (Some cache) []) in
  fst firstRun = Ok cache
  /\ Oracle.roundsFile (snd firstRun) = Some cache
  /\ fst secondRun = Ok (cache ++ steadyRounds [13; 12; 11; 10; 9])
  /\ Oracle.roundsFile (snd secondRun)
     = Some (cache ++ steadyRounds [13; 12; 11; 10; 9]).
Proof. repeat split; vm_compute; reflexivity. Qed.

(** * Further properties *)

(** ** The oracle history builder, for every feed *)

Section BuilderFacts.
Import Oracle.
Variable feed : PriceFeed.

(** What a fetch with retries returns: the answer of the first attempt that
    succeeds, or the error of the last attempt when all of them fail. *)
Lemma attemptFrom_first_success (more : nat) (roundId : Z) :
  forall w,
    match fst (attemptFrom more feed roundId w) with
    | Ok d =>
        exists k, (k <= more)%nat
                  /\ answerAt feed w roundId k = Ok d
                  /\ failsBefore feed w roundId k
    | Throw e =>
        answerAt feed w roundId more = Throw e
        /\ failsBefore feed w roundId (S more)
    end.
Proof.
  induction more as [|more IH]; intros w; cbn [attemptFrom];
    unfold callGetRoundData;
    destruct (getRoundData feed (requested w) roundId) as [d|msg] eqn:Hfirst;
    cbn [fst].
  - exists O. split; [lia|]. split; [exact Hfirst|]. intros j Hj. lia.
  - split; [exact Hfirst|]. intros j Hj. exists msg.
    replace j with O by lia. exact Hfirst.
  - exists O. split; [lia|]. split; [exact Hfirst|]. intros j Hj. lia.
  - specialize (IH (mkWorld (roundsFile w) (roundId :: requested w))).
    assert (Hshift : forall k,
               answerAt feed (mkWorld (roundsFile w) (roundId :: requested w)) roundId k
               = answerAt feed w roundId (S k)).
    { intros k. unfold answerAt. cbn [requested]. f_equal.
      change (roundId :: requested w) with ([roundId] ++ requested w).
      rewrite app_assoc. f_equal.
      change [roundId] with (repeat roundId 1). rewrite <- repeat_app.
      f_equal. lia. }
    destruct (fst (attemptFrom more feed roundId _)) as [d|e].
    + destruct IH as (k & Hk & Hans & Hfail).
      exists (S k). split; [lia|]. split; [now rewrite <- Hshift|].
      intros [|j] Hj; [exists msg; exact Hfirst|].
      rewrite <- Hshift. apply Hfail. lia.
    + destruct IH as (Hans & Hfail).
      split; [now rewrite <- Hshift|].
      intros [|j] Hj; [exists msg; exact Hfirst|].
      rewrite <- Hshift. apply Hfail. lia.
Qed.

(** [fetchRoundDataWithRetry] returns the answer of the first of its five
    attempts that succeeds, and throws the error of the fifth attempt when
    all five fail. *)
Theorem retry_returns_first_success (roundId : Z) (w : World) :
  match fst (fetchRoundDataWithRetry feed roundId w) with
  | Ok d =>
      exists k, (k < MAX_RETRIES)%nat
                /\ answerAt feed w roundId k = Ok d
                /\ failsBefore feed w roundId k
  | Throw e =>
      answerAt feed w roundId (MAX_RETRIES - 1) = Throw e
      /\ failsBefore feed w roundId MAX_RETRIES
  end.
Proof.
  unfold fetchRoundDataWithRetry.
  pose proof (attemptFrom_first_success (MAX_RETRIES - 1) roundId w) as H.
  destruct (fst (attemptFrom (MAX_RETRIES - 1) feed roundId w)) as [d|e].
  - destruct H as (k & Hk & Hans & Hfail).
    exists k. split; [unfold MAX_RETRIES in *; lia|]. now split.
  - exact H.
Qed.

(** The [while] loop and the loop of extra rounds leave the rounds file
    alone. *)
Lemma walkBack_file (startTime endTime : Q) (roundId : Z) (roundData : RoundData)
  (prices : list PriceData.t) (w : World) :
  roundsFile (snd (walkBack feed startTime endTime roundId roundData prices w))
  = roundsFile w.
Proof.
  funelim (walkBack feed startTime endTime roundId roundData prices w).
  - reflexivity.
  - match goal with
    | E : fetchRoundDataWithRetry _ _ _ = _, IH : roundsFile _ = _ |- _ =>
        rewrite IH;
        destruct (fetchRoundDataWithRetry_requests feed (roundId - 1)%Z w) as [Hfile _];
        rewrite E in Hfile; exact Hfile
    end.
  - match goal with
    | E : fetchRoundDataWithRetry _ _ _ = _ |- _ =>
        destruct (fetchRoundDataWithRetry_requests feed (roundId - 1)%Z w) as [Hfile _];
        rewrite E in Hfile; exact Hfile
    end.
Qed.

Lemma extraRounds_file (n : nat) :
  forall (roundId : Z) (prices : list PriceData.t) (w : World),
    roundsFile (snd (extraRounds n feed roundId prices w)) = roundsFile w.
Proof.
  induction n as [|n IH]; intros roundId prices w; cbn [extraRounds]; [reflexivity|].
  unfold bindM.
  destruct (fetchRoundDataWithRetry_requests feed (roundId - 1)%Z w) as [Hfile _].
  destruct (fetchRoundDataWithRetry feed (roundId - 1)%Z w) as [[roundData|msg] w1];
    cbn [snd] in Hfile; [|exact Hfile].
  now rewrite IH.
Qed.

(** The rounds file after a build: the list returned, or the file as it
    was when the build throws. *)
Lemma build_file (startTime endTime : Q) (w : World) :
  match fetchHistoricalChainlinkPrices feed startTime endTime w with
  | (Ok prices, w') => roundsFile w' = Some prices
  | (Throw _, w') => roundsFile w' = roundsFile w
  end.
Proof.
  unfold fetchHistoricalChainlinkPrices, bindM, readRoundsFile, writeRoundsFile, ret.
  destruct (fetchRoundDataWithRetry_requests feed (latestRound feed) w) as [Hfile0 _].
  destruct (fetchRoundDataWithRetry feed (latestRound feed) w) as [[roundData|msg] w1];
    cbn [fst snd] in *; [|exact Hfile0].
  pose proof (walkBack_file startTime endTime (latestRound feed) roundData
                match roundsFile w with Some prices => prices | None => [] end w1)
    as Hfile1.
  destruct (walkBack _ _ _ _ _ _ _) as [[[[r rd] walked]|msg] w2];
    cbn [fst snd] in *; [|congruence].
  pose proof (extraRounds_file EXTRA_ROUNDS r walked w2) as Hfile2.
  destruct (extraRounds _ _ _ _ _) as [[prices'|msg] w3];
    cbn [fst snd roundsFile] in *; [reflexivity | congruence].
Qed.

(** A build that throws has not written the rounds file: the file is as it
    was before the build. *)
Theorem failed_build_leaves_rounds_file (startTime endTime : Q) (w : World) (e : string) :
  fst (fetchHistoricalChainlinkPrices feed startTime endTime w) = Throw e ->
  roundsFile (snd (fetchHistoricalChainlinkPrices feed startTime endTime w))
  = roundsFile w.
Proof.
  intros H. pose proof (build_file startTime endTime w) as Hfile.
  destruct (fetchHistoricalChainlinkPrices feed startTime endTime w) as [[prices|msg] w'];
    [discriminate H | exact Hfile].
Qed.

(** [cached] tells whether a round identifier is in the list. *)
Lemma cached_In (prices : list PriceData.t) (roundId : Z) :
  cached prices roundId = true <-> In roundId (map PriceData.roundId prices).
Proof.
  unfold cached. rewrite existsb_exists, in_map_iff. split.
  - intros (p & Hin & Heq). apply Z.eqb_eq in Heq. now exists p.
  - intros (p & Heq & Hin). exists p. split; [exact Hin | now apply Z.eqb_eq].
Qed.

(** What the [while] loop adds: only rounds between the one it stops at and
    the one it starts from, updated after [startTime] and at or before
    [endTime]; and it adds no round identifier twice, nor one that the list
    held. *)
Lemma walkBack_adds (startTime endTime : Q) (roundId : Z) (roundData : RoundData)
  (prices : list PriceData.t) (w : World) :
  forall r rd walked w',
    walkBack feed startTime endTime roundId roundData prices w
    = (Ok (r, rd, walked), w') ->
    exists added,
      walked = prices ++ added
      /\ Forall (fun p => (startTime < inject_Z (PriceData.timestamp p))%Q
                          /\ (inject_Z (PriceData.timestamp p) <= endTime)%Q
                          /\ r < PriceData.roundId p <= roundId) added
      /\ (NoDup (map PriceData.roundId prices) ->
          NoDup (map PriceData.roundId walked)).
Proof.
  funelim (walkBack feed startTime endTime roundId roundData prices w);
    intros r rd walked w0 Hrun.
  - injection Hrun as <- <- <- _.
    exists []. rewrite app_nil_r. split; [reflexivity|]. split; [constructor | trivial].
  - assert (Hcond' : (startTime < inject_Z (updatedAt roundData))%Q /\ 0 < roundId).
    { pose proof Hcond as Hc. unfold keepWalking in Hc.
      apply andb_prop in Hc. destruct Hc as [Hts Hpos].
      apply Z.ltb_lt in Hpos. split; [|exact Hpos].
      apply negb_true_iff in Hts. apply Qnot_le_lt. intros Hle.
      apply Qle_bool_iff in Hle. congruence. }
    destruct Hcond' as [Hafter Hpos].
    assert (Hr : r <= roundId - 1).
    { pose proof Hrun as Hres. eapply walkBack_result in Hres; lia. }
    match goal with
    | IH : forall _ _ _ _, _ -> _ |- _ =>
        destruct (IH _ _ _ _ Hrun) as (added & Hwalked & Hall & Hnodup)
    end.
    unfold collect in *.
    destruct (Qle_bool (inject_Z (updatedAt roundData)) endTime) eqn:Hend;
      cbn [andb] in *.
    + destruct (cached prices roundId) eqn:Hc; cbn [negb] in *.
      * exists added. split; [exact Hwalked|]. split; [|exact Hnodup].
        eapply Forall_impl; [|exact Hall]. cbn. intros p Hp. split; [|split]; try apply Hp.
        lia.
      * exists (entry feed roundId roundData :: added).
        split; [rewrite Hwalked, <- app_assoc; reflexivity|]. split.
        -- constructor.
           ++ cbn [entry PriceData.timestamp PriceData.roundId].
              split; [exact Hafter|]. split; [now apply Qle_bool_iff | lia].
           ++ eapply Forall_impl; [|exact Hall]. cbn. intros p Hp.
              split; [|split]; try apply Hp. lia.
        -- intros Hprices. apply Hnodup.
           rewrite map_app. cbn [map entry PriceData.roundId].
           apply NoDup_app; [exact Hprices | repeat constructor; intros [] |].
           intros id Hid [<-|[]]. apply cached_In in Hid. congruence.
    + exists added. split; [exact Hwalked|]. split; [|exact Hnodup].
      eapply Forall_impl; [|exact Hall]. cbn. intros p Hp. split; [|split]; try apply Hp.
      lia.
  - discriminate Hrun.
Qed.

(** The loop of extra rounds appends exactly [n] entries. *)
Lemma extraRounds_appends (n : nat) :
  forall (roundId : Z) (prices prices' : list PriceData.t) (w w' : World),
    extraRounds n feed roundId prices w = (Ok prices', w') ->
    exists extra, prices' = prices ++ extra /\ List.length extra = n.
Proof.
  induction n as [|n IH]; intros roundId prices prices' w w' H; cbn [extraRounds] in H.
  - injection H as <- _. exists []. now rewrite app_nil_r.
  - unfold bindM in H.
    destruct (fetchRoundDataWithRetry feed (roundId - 1)%Z w) as [[roundData|msg] w1];
      [|discriminate H].
    apply IH in H. destruct H as (extra & -> & Hlen).
    exists (entry feed (roundId - 1)%Z roundData :: extra).
    rewrite <- app_assoc. split; [reflexivity|]. cbn [List.length]. now rewrite Hlen.
Qed.

(** A successful build returns the rounds of the rounds file, in their
    order, then the rounds added by the walk, then five extra rounds.  The
    rounds added by the walk were updated after [startTime] and at or before
    [endTime] and are rounds from 1 to the latest round. *)
Theorem build_appends_window_rounds (startTime endTime : Q) (w w' : World)
  (prices : list PriceData.t) :
  fetchHistoricalChainlinkPrices feed startTime endTime w = (Ok prices, w') ->
  exists added extra,
    prices = match roundsFile w with Some cache => cache | None => [] end
             ++ added ++ extra
    /\ List.length extra = EXTRA_ROUNDS
    /\ Forall (fun p => (startTime < inject_Z (PriceData.timestamp p))%Q
                        /\ (inject_Z (PriceData.timestamp p) <= endTime)%Q
                        /\ 0 < PriceData.roundId p <= latestRound feed) added.
Proof.
  unfold fetchHistoricalChainlinkPrices, bindM, readRoundsFile, writeRoundsFile, ret.
  intros H.
  destruct (fetchRoundDataWithRetry feed (latestRound feed) w) as [[roundData|msg] w1];
    [|discriminate H].
  destruct (walkBack _ _ _ _ _ _ _) as [[[[r rd] walked]|msg] w2] eqn:Hwalk;
    [|discriminate H].
  destruct (extraRounds EXTRA_ROUNDS feed r walked w2) as [[prices'|msg] w3] eqn:Hextra;
    [|discriminate H].
  injection H as <- _.
  destruct (walkBack_adds _ _ _ _ _ _ Hwalk) as (added & -> & Hall & _).
  assert (Hr : 0 <= r \/ added = []).
  { destruct (Z_le_gt_dec 0 (latestRound feed)) as [Hnonneg|Hneg].
    - left. pose proof Hwalk as Hres.
      eapply walkBack_result in Hres; [lia | exact Hnonneg].
    - right. destruct added as [|p added]; [reflexivity|].
      apply Forall_inv in Hall. rewrite walkBack_step in Hwalk.
      unfold keepWalking in Hwalk.
      destruct (0 <? latestRound feed) eqn:Hpos; [apply Z.ltb_lt in Hpos; lia|].
      rewrite andb_false_r in Hwalk. injection Hwalk as <- _ _ _. lia. }
  apply extraRounds_appends in Hextra.
  destruct Hextra as (extra & -> & Hlen).
  exists added, extra. rewrite <- app_assoc. split; [reflexivity|]. split; [exact Hlen|].
  destruct Hr as [Hr| ->]; [|constructor].
  eapply Forall_impl; [|exact Hall]. cbn. intros p Hp. split; [|split]; try apply Hp.
  lia.
Qed.

(** When the round identifiers of the rounds file are distinct, so are the
    round identifiers of a successful build once its five extra rounds are
    left out: the walk adds no identifier twice and none that the file
    holds. *)
Theorem walk_keeps_round_ids_distinct (startTime endTime : Q) (w w' : World)
  (prices : list PriceData.t) :
  fetchHistoricalChainlinkPrices feed startTime endTime w = (Ok prices, w') ->
  NoDup (map PriceData.roundId
           match roundsFile w with Some cache => cache | None => [] end) ->
  exists body extra,
    prices = body ++ extra
    /\ List.length extra = EXTRA_ROUNDS
    /\ NoDup (map PriceData.roundId body).
Proof.
  unfold fetchHistoricalChainlinkPrices, bindM, readRoundsFile, writeRoundsFile, ret.
  intros H Hcache.
  destruct (fetchRoundDataWithRetry feed (latestRound feed) w) as [[roundData|msg] w1];
    [|discriminate H].
  destruct (walkBack _ _ _ _ _ _ _) as [[[[r rd] walked]|msg] w2] eqn:Hwalk;
    [|discriminate H].
  destruct (extraRounds EXTRA_ROUNDS feed r walked w2) as [[prices'|msg] w3] eqn:Hextra;
    [|discriminate H].
  injection H as <- _.
  destruct (walkBack_adds _ _ _ _ _ _ Hwalk) as (added & Hwalked & _ & Hnodup).
  exists walked.
  apply extraRounds_appends in Hextra.
  destruct Hextra as (extra & -> & Hlen).
  exists extra. split; [reflexivity|]. split; [exact Hlen|]. now apply Hnodup.
Qed.

End BuilderFacts.

(** ** The build against an unchanged feed, in closed form *)

Lemma roundsDown_S (hi : Z) (n : nat) :
  roundsDown hi (S n) = hi :: roundsDown (hi - 1) n.
Proof.
  unfold roundsDown. cbn [seq map]. f_equal; [lia|].
  rewrite <- seq_shift, map_map. apply map_ext. intros i. lia.
Qed.

Lemma roundsDown_In (hi : Z) (n : nat) (roundId : Z) :
  In roundId (roundsDown hi n) <-> hi - Z.of_nat n < roundId <= hi.
Proof.
  unfold roundsDown. rewrite in_map_iff. split.
  - intros (i & <- & Hi). apply in_seq in Hi. lia.
  - intros H. exists (Z.to_nat (hi - roundId)). split; [lia|].
    apply in_seq. lia.
Qed.

Section UnchangedFeedShape.
Import Oracle.
Variable feed : PriceFeed.
Variable data : Z -> RoundData.
Hypothesis unchanged :
  forall earlier roundId, getRoundData feed earlier roundId = Ok (data roundId).
Variable startTime endTime : Q.

(** The walk against this feed: where it stops and what it adds. *)
Lemma walk_unchanged (n : nat) :
  forall (roundId : Z) (prices : list PriceData.t) (w : World),
    roundId <= Z.of_nat n ->
    exists r,
      stopsAt data startTime roundId r
      /\ fst (walkBack feed startTime endTime roundId (data roundId) prices w)
         = Ok (r, data r,
               prices ++ map (entryOf feed data)
                             (filter (addedByWalk data endTime prices)
                                     (roundsDown roundId (Z.to_nat (roundId - r))))).
Proof.
  assert (Hstop : forall roundId prices w,
             keepWalking startTime roundId (data roundId) = false ->
             exists r,
               stopsAt data startTime roundId r
               /\ fst (walkBack feed startTime endTime roundId (data roundId) prices w)
                  = Ok (r, data r,
                        prices ++ map (entryOf feed data)
                                      (filter (addedByWalk data endTime prices)
                                              (roundsDown roundId
                                                 (Z.to_nat (roundId - r)))))).
  { intros roundId prices w Hcond. exists roundId. split.
    - split; [lia|]. split; [exact Hcond|]. intros id Hid. lia.
    - rewrite walkBack_step, Hcond, Z.sub_diag. cbn. now rewrite app_nil_r. }
  induction n as [|n IH]; intros roundId prices w Hle.
  - apply Hstop. unfold keepWalking.
    destruct (Z.ltb_spec 0 roundId); [lia|]. apply andb_false_r.
  - destruct (keepWalking startTime roundId (data roundId)) eqn:Hcond;
      [|now apply Hstop].
    assert (Hpos : 0 < roundId).
    { unfold keepWalking in Hcond. apply andb_prop in Hcond. now apply Z.ltb_lt. }
    destruct (IH (roundId - 1)%Z (collect feed endTime roundId (data roundId) prices)
                (mkWorld (roundsFile w) ((roundId - 1)%Z :: requested w)))
      as (r & (Hr & Hfalse & Htrue) & Hwalk); [lia|].
    exists r. split.
    + split; [lia|]. split; [exact Hfalse|]. intros id Hid.
      destruct (Z.eq_dec id roundId) as [->|]; [exact Hcond | apply Htrue; lia].
    + rewrite walkBack_step, Hcond.
      rewrite (@fetch_unchanged feed data unchanged). rewrite Hwalk. do 2 f_equal.
      replace (Z.to_nat (roundId - r)) with (S (Z.to_nat (roundId - 1 - r))) by lia.
      rewrite roundsDown_S. cbn [filter].
      assert (Hrest : filter (addedByWalk data endTime
                                (collect feed endTime roundId (data roundId) prices))
                        (roundsDown (roundId - 1) (Z.to_nat (roundId - 1 - r)))
                      = filter (addedByWalk data endTime prices)
                          (roundsDown (roundId - 1) (Z.to_nat (roundId - 1 - r)))).
      { apply filter_ext_in. intros id Hid. apply roundsDown_In in Hid.
        unfold addedByWalk, collect. f_equal. f_equal.
        destruct (_ && _); [|reflexivity].
        rewrite cached_app. unfold cached at 2, entry. cbn.
        destruct (Z.eqb_spec roundId id); [lia|]. now rewrite orb_false_r. }
      rewrite Hrest. unfold collect, addedByWalk at 2.
      destruct (_ && _); [|reflexivity].
      cbn [map]. rewrite <- app_assoc. reflexivity.
Qed.

(** The build against this feed, in closed form. *)
Lemma build_closed_form (w : World) :
  let cache := match roundsFile w with Some cache => cache | None => [] end in
  exists r,
    stopsAt data startTime (latestRound feed) r
    /\ fst (fetchHistoricalChainlinkPrices feed startTime endTime w)
       = Ok (cache
             ++ map (entryOf feed data)
                    (filter (addedByWalk data endTime cache)
                            (roundsDown (latestRound feed)
                               (Z.to_nat (latestRound feed - r))))
             ++ map (entryOf feed data) (roundsDown (r - 1) EXTRA_ROUNDS)).
Proof.
  cbv zeta.
  destruct (@walk_unchanged (Z.to_nat (latestRound feed)) (latestRound feed)
              match roundsFile w with Some cache => cache | None => [] end
              (mkWorld (roundsFile w) (latestRound feed :: requested w)))
    as (r & Hstops & Hwalk); [lia|].
  exists r. split; [exact Hstops|].
  pose proof (@build_unchanged feed data unchanged startTime endTime w) as Hbuild.
  cbv zeta in Hbuild. rewrite Hbuild.
  destruct (walkBack _ _ _ _ _ _ _) as [[[[r' rd'] walked']|e] w2];
    cbn [fst] in Hwalk; [|discriminate Hwalk].
  injection Hwalk as -> -> ->.
  rewrite (@extraRounds_unchanged feed data unchanged). f_equal.
  rewrite <- app_assoc. do 2 f_equal.
  unfold roundsDown, EXTRA_ROUNDS. cbn [seq map]. unfold entryOf.
  repeat (f_equal; try lia).
Qed.

(** Against a feed that always answers, and always the same, a build
    returns the rounds of the rounds file, then, from the latest round down
    to the round above the one where the walk stops, the rounds updated at or
    before [endTime] that the file does not hold, then the five rounds below
    the round where the walk stops.  That round itself is not among the
    rounds the build adds. *)
Theorem build_of_unchanged_feed (w : World) :
  let cache := match roundsFile w with Some cache => cache | None => [] end in
  exists r,
    stopsAt data startTime (latestRound feed) r
    /\ (let walked := filter (addedByWalk data endTime cache)
                        (roundsDown (latestRound feed)
                           (Z.to_nat (latestRound feed - r))) in
        let extra := roundsDown (r - 1) EXTRA_ROUNDS in
        fst (fetchHistoricalChainlinkPrices feed startTime endTime w)
        = Ok (cache ++ map (entryOf feed data) walked ++ map (entryOf feed data) extra)
        /\ ~ In r (walked ++ extra)).
Proof.
  cbv zeta.
  destruct (build_closed_form w) as (r & Hstops & Hbuild).
  exists r. split; [exact Hstops|]. split; [exact Hbuild|].
  intros Hin. apply in_app_or in Hin. destruct Hin as [Hin|Hin].
  - apply filter_In in Hin. destruct Hin as [Hin _].
    apply roundsDown_In in Hin. destruct Hstops as [Hle _]. lia.
  - apply roundsDown_In in Hin. lia.
Qed.

End UnchangedFeedShape.

(** The feed that never answers, started from a rounds file with one round. *)
Lemma failed_build_leaves_rounds_file_witness :
  fst (Oracle.fetchHistoricalChainlinkPrices deadFeed (1450 # 1) (5000 # 1)
         (Oracle.mkWorld (Some (steadyRounds [20])) []))
  = Throw "Timeout"
  /\ Oracle.roundsFile
       (snd (Oracle.fetchHistoricalChainlinkPrices deadFeed (1450 # 1) (5000 # 1)
               (Oracle.mkWorld (Some (steadyRounds [20])) [])))
     = Some (steadyRounds [20]).
Proof.
  assert (Hthrow : fst (Oracle.fetchHistoricalChainlinkPrices deadFeed (1450 # 1)
                          (5000 # 1) (Oracle.mkWorld (Some (steadyRounds [20])) []))
                   = Throw "Timeout") by (vm_compute; reflexivity).
  split; [exact Hthrow|].
  exact (@failed_build_leaves_rounds_file deadFeed (1450 # 1) (5000 # 1)
           (Oracle.mkWorld (Some (steadyRounds [20])) []) "Timeout" Hthrow).
Defined.

(** The steady feed, window from 1450 to 5000, rounds 20 and 19 in the file. *)
Lemma build_appends_window_rounds_witness :
  exists prices w' added extra,
    Oracle.fetchHistoricalChainlinkPrices steadyFeed (1450 # 1) (5000 # 1)
      (Oracle.mkWorld (Some (steadyRounds [20; 19])) [])
    = (Ok prices, w')
    /\ prices = steadyRounds [20; 19] ++ added ++ extra
    /\ List.length extra = Oracle.EXTRA_ROUNDS
    /\ Forall (fun p => (1450 # 1 < inject_Z (PriceData.timestamp p))%Q
                        /\ (inject_Z (PriceData.timestamp p) <= 5000 # 1)%Q
                        /\ 0 < PriceData.roundId p <= 20) added.
Proof.
  eexists. eexists.
  assert (Hrun : Oracle.fetchHistoricalChainlinkPrices steadyFeed (1450 # 1) (5000 # 1)
                   (Oracle.mkWorld (Some (steadyRounds [20; 19])) [])
                 = (Ok (steadyRounds [20; 19; 18; 17; 16; 15; 13; 12; 11; 10; 9]),
                    Oracle.mkWorld
                      (Some (steadyRounds [20; 19; 18; 17; 16; 15; 13; 12; 11; 10; 9]))
                      [9; 10; 11; 12; 13; 14; 15; 16; 17; 18; 19; 20]))
    by (vm_compute; reflexivity).
  destruct (@build_appends_window_rounds steadyFeed _ _ _ _ _ Hrun)
    as (added & extra & H).
  exists added, extra. split; [exact Hrun | exact H].
Defined.

(** The steady feed, window from 1450 to 5000, no rounds file. *)
Lemma walk_keeps_round_ids_distinct_witness :
  NoDup (map PriceData.roundId (@nil PriceData.t))
  /\ exists prices w' body extra,
       Oracle.fetchHistoricalChainlinkPrices steadyFeed (1450 # 1) (5000 # 1) emptyWorld
       = (Ok prices, w')
       /\ prices = body ++ extra
       /\ List.length extra = Oracle.EXTRA_ROUNDS
       /\ NoDup (map PriceData.roundId body).
Proof.
  assert (Hnone : NoDup (map PriceData.roundId (@nil PriceData.t))) by constructor.
  split; [exact Hnone|].
  eexists. eexists.
  assert (Hrun : Oracle.fetchHistoricalChainlinkPrices steadyFeed (1450 # 1) (5000 # 1)
                   emptyWorld
                 = (Ok (steadyRounds [20; 19; 18; 17; 16; 15; 13; 12; 11; 10; 9]),
                    Oracle.mkWorld
                      (Some (steadyRounds [20; 19; 18; 17; 16; 15; 13; 12; 11; 10; 9]))
                      [9; 10; 11; 12; 13; 14; 15; 16; 17; 18; 19; 20]))
    by (vm_compute; reflexivity).
  destruct (@walk_keeps_round_ids_distinct steadyFeed _ _ _ _ _ Hrun Hnone)
    as (body & extra & H).
  exists body, extra. split; [exact Hrun | exact H].
Defined.

(** The steady feed, window from 1450 to 5000, rounds 20 and 19 in the
    file: the walk stops at round 14, adds rounds 18 to 15, and the extra
    rounds are 13 to 9. *)
Lemma build_of_unchanged_feed_witness :
  (forall earlier roundId,
      Oracle.getRoundData steadyFeed earlier roundId
      = Ok (Oracle.mkRound (100 * roundId) (roundId * 100000000)))
  /\ exists r,
       stopsAt (fun roundId => Oracle.mkRound (100 * roundId) (roundId * 100000000))
         (1450 # 1) 20 r
       /\ fst (Oracle.fetchHistoricalChainlinkPrices steadyFeed (1450 # 1) (5000 # 1)
                 (Oracle.mkWorld (Some (steadyRounds [20; 19])) []))
          = Ok (steadyRounds [20; 19]
                ++ map (entryOf steadyFeed
                          (fun roundId =>
                             Oracle.mkRound (100 * roundId) (roundId * 100000000)))
                       (filter (addedByWalk
                                  (fun roundId =>
                                     Oracle.mkRound (100 * roundId) (roundId * 100000000))
                                  (5000 # 1) (steadyRounds [20; 19]))
                               (roundsDown 20 (Z.to_nat (20 - r))))
                ++ map (entryOf steadyFeed
                          (fun roundId =>
                             Oracle.mkRound (100 * roundId) (roundId * 100000000)))
                       (roundsDown (r - 1) Oracle.EXTRA_ROUNDS)).
Proof.
  assert (Hfeed : forall earlier roundId,
             Oracle.getRoundData steadyFeed earlier roundId
             = Ok (Oracle.mkRound (100 * roundId) (roundId * 100000000)))
    by reflexivity.
  split; [exact Hfeed|].
  destruct (@build_of_unchanged_feed steadyFeed _ Hfeed (1450 # 1) (5000 # 1)
              (Oracle.mkWorld (Some (steadyRounds [20; 19])) []))
    as (r & Hstops & Hbuild & _).
  exists r. split; [exact Hstops | exact Hbuild].
Defined.

(** ** The trade ingestor, further *)

Section IngestorMore.
Import Ingestor.
Variable subgraph : Subgraph.
Variable startTime : Z.

(** While every page is full the loop goes on. *)
Lemma loop_goes_on (fuel : nat) :
  (forall request, exists pool,
      subgraph request = Ok (Some pool)
      /\ (PAGE_SIZE <= List.length (swaps pool))%nat) ->
  forall acc cursor sent,
    loop fuel subgraph startTime (mkState acc cursor true) sent = None.
Proof.
  intros Hfull. induction fuel as [|fuel IH]; intros acc cursor sent; [reflexivity|].
  cbn [loop hasMore].
  destruct (Hfull (requestOf startTime (mkState acc cursor true)))
    as (pool & Hpage & Hlen).
  rewrite Hpage. unfold iteration. cbn [bind allSwaps lastId hasMore].
  destruct (Nat.ltb_spec (List.length (swaps pool)) PAGE_SIZE); [lia|].
  apply IH.
Qed.

(** Against a subgraph that answers every request with a page of 1000
    records or more, [fetchSwaps] never returns: no amount of fuel brings the
    loop to an end. *)
Theorem fetchSwaps_never_returns_on_full_pages :
  (forall request, exists pool,
      subgraph request = Ok (Some pool)
      /\ (PAGE_SIZE <= List.length (swaps pool))%nat) ->
  forall fuel, fetchSwaps fuel subgraph startTime = None.
Proof.
  intros Hfull fuel. unfold fetchSwaps, initialState. now apply loop_goes_on.
Qed.

(** A request that fails ends [fetchSwaps] with the error of that request,
    sent once; the swaps of the pages read before are not returned. *)
Theorem fetchSwaps_failed_request (sent0 : list Request) (cursor : string)
  (acc : list Swap.t) (e : string) :
  FullPages subgraph startTime sent0 cursor acc ->
  subgraph ((startTime / 1000)%Z, cursor) = Throw e ->
  (exists fuel,
      fetchSwaps fuel subgraph startTime
      = Some (Throw e, sent0 ++ [((startTime / 1000)%Z, cursor)]))
  /\ forall fuel r,
       fetchSwaps fuel subgraph startTime = Some r ->
       r = (Throw e, sent0 ++ [((startTime / 1000)%Z, cursor)]).
Proof.
  intros Hchain Hpage.
  destruct (@loop_reaches subgraph startTime sent0 cursor acc Hchain) as [k Hk].
  assert (Hrun : fetchSwaps (k + 1) subgraph startTime
                 = Some (Throw e, sent0 ++ [((startTime / 1000)%Z, cursor)])).
  { unfold fetchSwaps. rewrite Hk. cbn [loop hasMore]. unfold requestOf. cbn [lastId].
    rewrite Hpage. reflexivity. }
  split; [exists (k + 1)%nat; exact Hrun|].
  intros fuel r Hr. unfold fetchSwaps in *.
  pose proof (@loop_more_fuel subgraph startTime fuel (Nat.max fuel (k + 1))
                initialState [] r Hr (Nat.le_max_l _ _)) as H1.
  pose proof (@loop_more_fuel subgraph startTime (k + 1) (Nat.max fuel (k + 1))
                initialState [] _ Hrun (Nat.le_max_r _ _)) as H2.
  congruence.
Qed.

(** Full pages of at most 1000 records hold 1000 records each. *)
Lemma full_pages_length (sent : list Request) (cursor : string) (acc : list Swap.t) :
  (forall request pool,
      subgraph request = Ok (Some pool) ->
      (List.length (swaps pool) <= PAGE_SIZE)%nat) ->
  FullPages subgraph startTime sent cursor acc ->
  List.length acc = (List.length sent * PAGE_SIZE)%nat.
Proof.
  intros Hmax. induction 1 as [|sent cursor acc pool front lastRecord _ IH Hpage Hfull _].
  - reflexivity.
  - apply Hmax in Hpage. rewrite !length_app, IH. cbn [List.length]. lia.
Qed.

(** When the subgraph keeps to the page size of the query (no page holds
    more than 1000 records), the number of requests of a run of [fetchSwaps]
    that returns is the number of swaps returned divided by 1000, plus
    one. *)
Theorem fetchSwaps_request_count (fuel : nat) (res : list Swap.t) (sent : list Request) :
  (forall request pool,
      subgraph request = Ok (Some pool) ->
      (List.length (swaps pool) <= PAGE_SIZE)%nat) ->
  fetchSwaps fuel subgraph startTime = Some (Ok res, sent) ->
  List.length sent = (List.length res / PAGE_SIZE + 1)%nat.
Proof.
  intros Hmax Hrun. unfold fetchSwaps, initialState in Hrun.
  destruct (@loop_returns subgraph startTime fuel [] EmptyString [] res sent
              (pages_none subgraph startTime) Hrun)
    as (sent0 & cursor & acc & pool & Hchain & _ & Hshort & -> & ->).
  rewrite !length_app, (full_pages_length Hmax Hchain). cbn [List.length].
  assert (Hpos : (0 < PAGE_SIZE)%nat) by (unfold PAGE_SIZE; lia).
  rewrite Nat.div_add_l by lia.
  rewrite (Nat.div_small _ _ Hshort). lia.
Qed.

End IngestorMore.

(** A subgraph whose every page is the same full page. *)
Lemma fetchSwaps_never_returns_on_full_pages_witness :
  (forall request, exists pool,
      alwaysFull request = Ok (Some pool)
      /\ (Ingestor.PAGE_SIZE <= List.length (Ingestor.swaps pool))%nat)
  /\ Ingestor.fetchSwaps 50 alwaysFull 1700000000000 = None.
Proof.
  assert (Hfull : forall request, exists pool,
             alwaysFull request = Ok (Some pool)
             /\ (Ingestor.PAGE_SIZE <= List.length (Ingestor.swaps pool))%nat).
  { intros request. exists (Ingestor.mkPool fullPage). split; [reflexivity|].
    apply Nat.leb_le. vm_compute. reflexivity. }
  split; [exact Hfull|].
  exact (@fetchSwaps_never_returns_on_full_pages alwaysFull 1700000000000 Hfull 50%nat).
Defined.

(** A subgraph that cannot be reached: the first request fails. *)
Lemma fetchSwaps_failed_request_witness :
  FullPages offline 1700000000000 [] EmptyString []
  /\ offline (1700000000, EmptyString) = Throw "Network Error"
  /\ exists fuel,
       Ingestor.fetchSwaps fuel offline 1700000000000
       = Some (Throw "Network Error", [(1700000000, EmptyString)]).
Proof.
  assert (Hchain : FullPages offline 1700000000000 [] EmptyString [])
    by apply pages_none.
  split; [exact Hchain|]. split; [reflexivity|].
  exact (proj1 (@fetchSwaps_failed_request offline 1700000000000 [] EmptyString []
                  "Network Error" Hchain eq_refl)).
Defined.

(** One full page and a page of two swaps: 1002 swaps in two requests. *)
Lemma fetchSwaps_request_count_witness :
  (forall request pool,
      twoPages request = Ok (Some pool) ->
      (List.length (Ingestor.swaps pool) <= Ingestor.PAGE_SIZE)%nat)
  /\ exists res sent,
       Ingestor.fetchSwaps 2 twoPages 1700000000000 = Some (Ok res, sent)
       /\ List.length res = 1002%nat
       /\ List.length sent = (List.length res / Ingestor.PAGE_SIZE + 1)%nat.
Proof.
  assert (Hmax : forall request pool,
             twoPages request = Ok (Some pool) ->
             (List.length (Ingestor.swaps pool) <= Ingestor.PAGE_SIZE)%nat).
  { intros request pool. unfold twoPages.
    destruct (String.eqb _ _); [|destruct (String.eqb _ _)]; intros [= <-];
      apply Nat.leb_le; vm_compute; reflexivity. }
  split; [exact Hmax|].
  eexists. eexists.
  assert (Hrun : Ingestor.fetchSwaps 2 twoPages 1700000000000
                 = Some (Ok (fullPage ++ [sampleBuy; sampleBuy]),
                         [(1700000000, EmptyString); (1700000000, Swap.id sampleSell)]))
    by (vm_compute; reflexivity).
  split; [exact Hrun|]. split; [vm_compute; reflexivity|].
  exact (@fetchSwaps_request_count twoPages 1700000000000 2%nat _ _ Hmax Hrun).
Defined.

(** ** Signs and order of JavaScript numbers *)

Lemma sgn_opp (q : Q) : sgn (- q) = CompOpp (sgn q).
Proof.
  unfold sgn. destruct q as [n d]. cbn. destruct n; reflexivity.
Qed.

Lemma sgn_div (x y : Q) :
  sgn (x / y) = match sgn y with
                | Eq => Eq
                | Gt => sgn x
                | Lt => CompOpp (sgn x)
                end.
Proof.
  unfold sgn. destruct x as [nx dx], y as [ny dy]. unfold Qdiv, Qmult, Qinv. cbn.
  destruct ny as [|py|py]; cbn.
  - now rewrite Z.mul_0_r.
  - destruct nx; reflexivity.
  - destruct nx; reflexivity.
Qed.

Lemma ltb_zero_l (q : Q) : ltb n0 (Fin q) = match sgn q with Gt => true | _ => false end.
Proof.
  unfold ltb, n0, sgn, Qcompare. cbn. rewrite Z.mul_1_r.
  destruct (Qnum q); reflexivity.
Qed.

Lemma ltb_zero_r (q : Q) : ltb (Fin q) n0 = match sgn q with Lt => true | _ => false end.
Proof.
  unfold ltb, n0, sgn, Qcompare. cbn. rewrite Z.mul_1_r.
  destruct (Qnum q); reflexivity.
Qed.

Lemma ltb_fin (x y : Q) : (x < y)%Q -> ltb (Fin x) (Fin y) = true.
Proof.
  intros H. unfold ltb. pose proof (proj1 (Qlt_alt x y) H) as H'. now rewrite H'.
Qed.


(** ** The record of one swap *)

Lemma wellFormed_amounts (swap : Swap.t) :
  wellFormedSwap swap = true ->
  exists x y, Swap.amount0 swap = Fin x /\ Swap.amount1 swap = Fin y
              /\ ~ (x == 0)%Q /\ ~ (y == 0)%Q.
Proof.
  unfold wellFormedSwap. intros H.
  apply andb_prop in H. destruct H as [H Hz1].
  apply andb_prop in H. destruct H as [H Hz0].
  apply andb_prop in H. destruct H as [Hf0 Hf1].
  destruct (Swap.amount0 swap) as [x| | |]; try discriminate Hf0.
  destruct (Swap.amount1 swap) as [y| | |]; try discriminate Hf1.
  apply negb_true_iff, is_zero_false in Hz0.
  apply negb_true_iff, is_zero_false in Hz1.
  now exists x, y.
Qed.

Lemma leb_fin_inv (x y : Q) : leb (Fin x) (Fin y) = true -> (x <= y)%Q.
Proof.
  unfold leb. intros H. apply Qle_alt. intros E. now rewrite E in H.
Qed.

Lemma ltb_fin_inv (x y : Q) : ltb (Fin x) (Fin y) = true -> (x < y)%Q.
Proof.
  unfold ltb. intros H. apply Qlt_alt. now destruct (x ?= y)%Q.
Qed.

Lemma sgn_pos (q : Q) : (0 < q)%Q -> sgn q = Gt.
Proof.
  intros H. destruct (sgn q) eqn:E; trivial;
    [apply sgn_Eq in E | apply sgn_Lt in E]; lra.
Qed.

Lemma sgn_neg (q : Q) : (q < 0)%Q -> sgn q = Lt.
Proof.
  intros H. destruct (sgn q) eqn:E; trivial;
    [apply sgn_Eq in E | apply sgn_Gt in E]; lra.
Qed.



(** The dynamic fee percent of either script is at least the base rate. *)
Lemma dynamicFeePercent_base (p : Q) (cp : marked num) :
  ~ (p == 0)%Q ->
  (forall c, cp = Val c -> is_finite c = true) ->
  leb n0_05 (Simulation.dynamicFeePercent (Fin p) cp) = true
  /\ forall buying selling,
       leb n0_05 (snd (App.dynamicFee (Fin p) buying selling cp)) = true.
Proof.
  intros Hp Hcp. destruct cp as [c|]; [|split; reflexivity].
  specialize (Hcp c eq_refl).
  pose proof (@deviation_is_number p c Hp Hcp) as Hdev.
  split.
  - unfold Simulation.dynamicFeePercent.
    now apply (base_plus_scaled_abs _ (k := 70)).
  - intros buying selling. unfold App.dynamicFee.
    destruct (gtb _ _ && _); [|destruct (ltb _ _ && _)]; cbn [snd];
      try reflexivity; now apply (base_plus_scaled_abs _ (k := 9 # 10)).
Qed.


(** The direction flags and the sign of the traded price. *)
Lemma direction_sign (x y : Q) :
  ~ (x == 0)%Q -> ~ (y == 0)%Q ->
  exists p volETH volUSDC,
    Simulation.direction (Fin x) (Fin y)
    = (Fin p, volETH, volUSDC, ltb (Fin x) n0, negb (ltb (Fin x) n0))
    /\ ltb n0 (Fin p) = xorb (ltb (Fin x) n0) (ltb (Fin y) n0).
Proof.
  intros Hx Hy. unfold Simulation.direction.
  rewrite !ltb_zero_r.
  destruct (sgn y) eqn:Ey; [apply sgn_Eq in Ey; contradiction | |];
    (destruct (sgn x) eqn:Ex; [apply sgn_Eq in Ex; contradiction | |]);
    cbn [neg div negb xorb]; rewrite ?sgn_opp, ?Ey; cbn [CompOpp];
    do 3 eexists; (split; [reflexivity|]);
    rewrite ltb_zero_l, sgn_Qred, sgn_div, ?sgn_opp, ?Ex, ?Ey; reflexivity.
Qed.


(** The efficiency of a purchase at or above a positive oracle price, and
    of a sale at or below it, under a percentage of at least 0.05. *)
Lemma efficiency_negative_num (p c : Q) (g : num) :
  (0 < c)%Q -> (0 < p)%Q -> leb n0_05 g = true ->
  ((c <= p)%Q ->
   ltb (((Fin c - (Fin p + (Fin p * g) / n100)) / Fin c) * n100) n0 = true)
  /\ ((p <= c)%Q ->
      ltb ((((Fin p - (Fin p * g) / n100) - Fin c) / Fin c) * n100) n0 = true).
Proof.
  intros Hc Hp Hg.
  pose proof (sgn_pos Hc) as Ec. pose proof (sgn_pos Hp) as Ep.
  pose proof (Qinv_lt_0_compat c Hc) as Hinv.
  destruct g as [q| | |]; try discriminate Hg.
  - apply leb_fin_inv in Hg.
    assert (Hpq : (0 < p * q)%Q) by (apply Qmult_lt_0_compat; lra).
    assert (Hfee : (Fin p * Fin q) / n100 = Fin (Qred (Qred (p * q) / 100)))
      by reflexivity.
    rewrite Hfee. unfold sub, neg, add, div, mul, n100, n0. rewrite Ec.
    split; intros Hle; apply ltb_fin; rewrite !Qred_correct.
    + assert (Hn : (0 < (p + p * q * (1 # 100) - c) * / c)%Q)
        by (apply Qmult_lt_0_compat; [lra | assumption]).
      setoid_replace ((c + - (p + p * q / 100)) / c * 100)%Q
        with (- (100) * ((p + p * q * (1 # 100) - c) * / c))%Q by (field; lra).
      set (t := ((p + p * q * (1 # 100) - c) * / c)%Q) in *. lra.
    + assert (Hn : (0 < (c + p * q * (1 # 100) - p) * / c)%Q)
        by (apply Qmult_lt_0_compat; [lra | assumption]).
      setoid_replace ((p + - (p * q / 100) + - c) / c * 100)%Q
        with (- (100) * ((c + p * q * (1 # 100) - p) * / c))%Q by (field; lra).
      set (t := ((c + p * q * (1 # 100) - p) * / c)%Q) in *. lra.
  - cbn [mul]. rewrite Ep. cbn [inf_of div n100 sgn Qnum Z.compare add sub neg].
    rewrite Ec. split; reflexivity.
Qed.

(** In the 90 day script, against a positive finite oracle price: a
    purchase of ETH at or above the oracle price, and a sale at a positive
    price at or below it, both have a negative efficiency. *)
Theorem efficiency_negative_without_better_price
  (prices : list PriceData.t) (swap : Swap.t) (d : Simulation.SwapData.t) (cp : num) :
  wellFormedSwap swap = true ->
  finitePrices PriceData.price prices ->
  Simulation.computeSwapData prices swap = Ok d ->
  Simulation.SwapData.chainlinkPrice d = Val cp ->
  ltb n0 cp = true ->
  (if Simulation.SwapData.isBuyingETH d
   then leb cp (Simulation.SwapData.price d)
   else leb (Simulation.SwapData.price d) cp && ltb n0 (Simulation.SwapData.price d))
  = true ->
  ltb (Simulation.SwapData.leveryEfficiencyPercent d) n0 = true.
Proof.
  intros Hwf Hfin H Hcp Hpos Hside.
  destruct (wellFormed_amounts swap Hwf) as (x & y & Hx & Hy & Hx0 & Hy0).
  destruct (direction_price swap Hwf) as (p' & Hp & Hp0).
  assert (Hbase : forall c, is_finite c = true ->
                    leb n0_05 (Simulation.dynamicFeePercent (Fin p') (Val c)) = true).
  { intros c Hc. apply (@dynamicFeePercent_base p' (Val c)); trivial.
    now intros c' [= <-]. }
  open_swapData H; [|discriminate Hcp].
  destruct (direction_sign Hx0 Hy0) as (p & vE & vU & Hd & Hsign).
  rewrite Hx, Hy, Hd in Hdir. injection Hdir as <- <- <- <- <-.
  cbn [fst] in Hp. injection Hp as <-.
  injection Hcp as <-.
  apply matcher_In in Hfind. apply Hfin in Hfind.
  specialize (Hbase _ Hfind).
  destruct (PriceData.price obs) as [c| | |]; try discriminate Hfind.
  apply ltb_fin_inv in Hpos.
  destruct (x ?= 0)%Q; cbn [negb].
  2: { apply leb_fin_inv in Hside.
       assert (Hp : (0 < p)%Q) by lra.
       exact (proj1 (@efficiency_negative_num p c _ Hpos Hp Hbase) Hside). }
  all: apply andb_prop in Hside; destruct Hside as [Hle Hp];
    apply leb_fin_inv in Hle; apply ltb_fin_inv in Hp;
    exact (proj2 (@efficiency_negative_num p c _ Hpos Hp Hbase) Hle).
Qed.



(** A sale at 3000 against an oracle price of 3100. *)
Lemma efficiency_negative_without_better_price_witness :
  wellFormedSwap sampleSell = true
  /\ finitePrices PriceData.price roundAt3100
  /\ exists d,
       Simulation.computeSwapData roundAt3100 sampleSell = Ok d
       /\ Simulation.SwapData.chainlinkPrice d = Val (Fin 3100)
       /\ Simulation.SwapData.isBuyingETH d = false
       /\ leb (Simulation.SwapData.price d) (Fin 3100) = true
       /\ ltb (Simulation.SwapData.leveryEfficiencyPercent d) n0 = true.
Proof.
  assert (Hfin : finitePrices PriceData.price roundAt3100).
  { intros o [<-|[]]. reflexivity. }
  split; [reflexivity|]. split; [exact Hfin|].
  eexists. split; [vm_compute; reflexivity|].
  split; [reflexivity|]. split; [reflexivity|]. split; [reflexivity|].
  exact (@efficiency_negative_without_better_price roundAt3100 sampleSell _ (Fin 3100)
           eq_refl Hfin eq_refl eq_refl eq_refl eq_refl).
Defined.

(** ** The report of a run *)

Lemma toISOString_inv (ms : Z) (r : result IsoString) :
  toISOString ms = r ->
  match r with
  | Ok _ => Z.abs ms <= MAX_TIME_VALUE
  | Throw msg => msg = "Invalid time value"%string /\ ~ Z.abs ms <= MAX_TIME_VALUE
  end.
Proof.
  unfold toISOString. intros <-.
  destruct (Z.leb_spec (Z.abs ms) MAX_TIME_VALUE); [assumption | split; [reflexivity | lia]].
Qed.

(** The record of a swap is built when its date and the dates of the
    observations are representable. *)
Lemma computeSwapData_runs (prices : list PriceData.t) (swap : Swap.t) :
  (forall o, In o prices -> validDate (PriceData.timestamp o)) ->
  validDate (Swap.timestamp swap) ->
  exists d, Simulation.computeSwapData prices swap = Ok d.
Proof.
  intros Hprices Hswap. unfold Simulation.computeSwapData.
  rewrite (toISOString_ok _ Hswap). cbn [bind].
  destruct (Simulation.direction _ _) as [[[[price volETH] volUSDC] buying] selling].
  destruct (findChainlinkPriceData _ _ _) as [obs|] eqn:Hfind.
  - apply matcher_In in Hfind. apply Hprices in Hfind.
    rewrite (toISOString_ok _ Hfind). cbn [bind]. eexists. reflexivity.
  - cbn [bind]. eexists. reflexivity.
Qed.

(** What a run of [computeSwapData] tells about the date of the swap. *)
Lemma computeSwapData_dates (prices : list PriceData.t) (swap : Swap.t) :
  match Simulation.computeSwapData prices swap with
  | Ok _ => validDate (Swap.timestamp swap)
  | Throw msg => msg = "Invalid time value"%string
  end.
Proof.
  unfold Simulation.computeSwapData.
  pose proof (@toISOString_inv (Swap.timestamp swap * 1000) _ eq_refl) as Hdate.
  destruct (toISOString (Swap.timestamp swap * 1000)); cbn [bind]; [|apply Hdate].
  destruct (Simulation.direction _ _) as [[[[price volETH] volUSDC] buying] selling].
  destruct (findChainlinkPriceData _ _ _) as [obs|]; cbn [bind]; [|exact Hdate].
  pose proof (@toISOString_inv (PriceData.timestamp obs * 1000) _ eq_refl) as Hobs.
  destruct (toISOString (PriceData.timestamp obs * 1000)); cbn [bind];
    [exact Hdate | apply Hobs].
Qed.

Lemma processSwaps_dates (prices : list PriceData.t) (swaps : list Swap.t) :
  forall st,
    match Simulation.processSwaps prices st swaps with
    | Ok _ => forall swap, In swap swaps -> validDate (Swap.timestamp swap)
    | Throw msg => msg = "Invalid time value"%string
    end.
Proof.
  induction swaps as [|swap rest IH]; intros st; cbn [Simulation.processSwaps].
  - intros swap [].
  - unfold Simulation.processSwap.
    pose proof (computeSwapData_dates prices swap) as Hd.
    destruct (Simulation.computeSwapData prices swap) as [d|msg]; cbn [bind]; [|exact Hd].
    destruct (Simulation.direction _ _) as [[[[price volETH] volUSDC] buying] selling].
    cbn [bind].
    match goal with
    | |- match Simulation.processSwaps _ ?st1 _ with _ => _ end =>
        specialize (IH st1); destruct (Simulation.processSwaps prices st1 rest)
    end; [|exact IH].
    intros s [<-|Hin]; [exact Hd | now apply IH].
Qed.

Lemma processSwaps_runs (prices : list PriceData.t) (swaps : list Swap.t) :
  (forall o, In o prices -> validDate (PriceData.timestamp o)) ->
  (forall swap, In swap swaps -> validDate (Swap.timestamp swap)) ->
  forall st, exists st', Simulation.processSwaps prices st swaps = Ok st'.
Proof.
  intros Hprices. induction swaps as [|swap rest IH]; intros Hswaps st;
    cbn [Simulation.processSwaps].
  - now exists st.
  - unfold Simulation.processSwap.
    destruct (@computeSwapData_runs prices swap Hprices (Hswaps swap (or_introl eq_refl)))
      as (d & ->).
    cbn [bind].
    destruct (Simulation.direction _ _) as [[[[price volETH] volUSDC] buying] selling].
    cbn [bind]. apply IH. intros s Hs. apply Hswaps. now right.
Qed.

(** The 90 day script, observations with representable dates: the report is
    produced exactly when the date of every swap is representable; and
    whatever the observations, the only error the aggregation can raise is
    the RangeError of [toISOString]. *)
Theorem report_fails_only_on_dates (prices : list PriceData.t) (swaps : list Swap.t) :
  (forall msg, Simulation.report prices swaps = Throw msg ->
               msg = "Invalid time value"%string)
  /\ ((forall o, In o prices -> validDate (PriceData.timestamp o)) ->
      ((forall swap, In swap swaps -> validDate (Swap.timestamp swap))
       <-> exists r, Simulation.report prices swaps = Ok r)).
Proof.
  unfold Simulation.report.
  pose proof (processSwaps_dates prices swaps Simulation.initialLoopState) as Hd.
  split.
  - intros msg H.
    destruct (Simulation.processSwaps _ _ _); cbn [bind] in H; [discriminate H|].
    now injection H as <-.
  - intros Hprices. split.
    + intros Hswaps.
      destruct (@processSwaps_runs prices swaps Hprices Hswaps Simulation.initialLoopState)
        as (st & ->).
      cbn [bind]. eexists. reflexivity.
    + intros (r & H).
      destruct (Simulation.processSwaps _ _ _); cbn [bind] in H; [exact Hd | discriminate H].
Qed.

(** One swap dated beyond the range of [Date] among two: no report. *)
Lemma report_fails_only_on_dates_witness :
  (forall o, In o roundAt3000 -> validDate (PriceData.timestamp o))
  /\ Simulation.report roundAt3000 [sampleBuy; farFuture] = Throw "Invalid time value"
  /\ ~ validDate (Swap.timestamp farFuture)
  /\ exists r, Simulation.report roundAt3000 [sampleBuy; sampleSell] = Ok r.
Proof.
  assert (Hprices : forall o, In o roundAt3000 -> validDate (PriceData.timestamp o)).
  { intros o [<-|[]]. vm_compute. discriminate. }
  split; [exact Hprices|].
  split; [|split].
  - destruct (Simulation.report roundAt3000 [sampleBuy; farFuture]) as [r|msg] eqn:H.
    + vm_compute in H. discriminate H.
    + f_equal.
      exact (proj1 (report_fails_only_on_dates roundAt3000 [sampleBuy; farFuture]) msg H).
  - vm_compute. intros H. now apply H.
  - apply (proj2 (report_fails_only_on_dates roundAt3000 [sampleBuy; sampleSell]) Hprices).
    intros swap [<-|[<-|[]]]; vm_compute; discriminate.
Defined.

Lemma abs_of_pos (q : Q) : sgn q = Gt -> Fin q = abs (Fin q).
Proof.
  destruct q as [n d]. unfold sgn. cbn. destruct n; try discriminate. reflexivity.
Qed.

Lemma abs_of_neg (q : Q) : sgn q = Lt -> - Fin q = abs (Fin q).
Proof.
  destruct q as [n d]. unfold sgn. cbn. destruct n; try discriminate. reflexivity.
Qed.

(** The volumes a swap of opposite signs adds to the two totals. *)
Lemma direction_volumes (x y : Q) :
  xorb (ltb (Fin x) n0) (ltb (Fin y) n0) = true ->
  ~ (x == 0)%Q -> ~ (y == 0)%Q ->
  exists price buying selling,
    Simulation.direction (Fin x) (Fin y)
    = (price, abs (Fin y), abs (Fin x), buying, selling).
Proof.
  intros Hsign Hx Hy. unfold Simulation.direction.
  rewrite !ltb_zero_r in *.
  destruct (sgn x) eqn:Ex; [apply sgn_Eq in Ex; contradiction | |];
    (destruct (sgn y) eqn:Ey; [apply sgn_Eq in Ey; contradiction | |]);
    try discriminate Hsign; do 3 eexists.
  - rewrite <- (@abs_of_pos y Ey), <- (@abs_of_neg x Ex). reflexivity.
  - rewrite <- (@abs_of_neg y Ey), <- (@abs_of_pos x Ex). reflexivity.
Qed.

Lemma processSwaps_volumes (prices : list PriceData.t) (swaps : list Swap.t) :
  (forall swap, In swap swaps ->
     wellFormedSwap swap = true
     /\ xorb (ltb (Swap.amount0 swap) n0) (ltb (Swap.amount1 swap) n0) = true) ->
  forall st st',
    Simulation.processSwaps prices st swaps = Ok st' ->
    Simulation.ResultData.totalVolumeETH (Simulation.resultData st')
    = fold_left add (map (fun swap => abs (Swap.amount1 swap)) swaps)
        (Simulation.ResultData.totalVolumeETH (Simulation.resultData st))
    /\ Simulation.ResultData.totalVolumeUSDC (Simulation.resultData st')
       = fold_left add (map (fun swap => abs (Swap.amount0 swap)) swaps)
           (Simulation.ResultData.totalVolumeUSDC (Simulation.resultData st))
    /\ map Simulation.SwapData.transactionHash
         (Simulation.ResultData.swaps (Simulation.resultData st'))
       = map Simulation.SwapData.transactionHash
           (Simulation.ResultData.swaps (Simulation.resultData st))
         ++ map Swap.transaction swaps.
Proof.
  induction swaps as [|swap rest IH]; intros Hswaps st st' H;
    cbn [Simulation.processSwaps] in H.
  - injection H as <-. cbn [map fold_left]. rewrite app_nil_r. repeat split.
  - destruct (Simulation.processSwap prices st swap) as [st1|msg] eqn:Hstep;
      cbn [bind] in H; [|discriminate H].
    apply IH in H; [|intros s Hs; apply Hswaps; now right].
    destruct H as (HE & HU & Hswapsd).
    destruct (Hswaps swap (or_introl eq_refl)) as [Hwf Hsign].
    destruct (wellFormed_amounts swap Hwf) as (x & y & Hx & Hy & Hx0 & Hy0).
    unfold Simulation.processSwap in Hstep.
    destruct (Simulation.computeSwapData prices swap) as [d|msg] eqn:Hd;
      cbn [bind] in Hstep; [|discriminate Hstep].
    assert (Hhash : Simulation.SwapData.transactionHash d = Swap.transaction swap).
    { open_swapData Hd; reflexivity. }
    rewrite Hx, Hy in Hsign, Hstep.
    destruct (@direction_volumes x y Hsign Hx0 Hy0) as (price & buying & selling & Hdir).
    rewrite Hdir in Hstep. injection Hstep as <-.
    cbn [Simulation.resultData Simulation.ResultData.swaps
         Simulation.ResultData.totalVolumeETH Simulation.ResultData.totalVolumeUSDC] in *.
    cbn [map fold_left]. rewrite Hx, Hy, HE, HU, Hswapsd, map_app, <- app_assoc.
    cbn [map app]. rewrite Hhash. repeat split.
Qed.

(** The 90 day script, swaps that are well formed and whose two amounts
    have opposite signs: the ETH volume of the report is the sum of the
    absolute [amount1], the USDC volume the sum of the absolute [amount0],
    and the records follow the swaps, one for one and in the same order. *)
Theorem report_volumes (prices : list PriceData.t) (swaps : list Swap.t)
  (r : Simulation.ResultData.t) :
  (forall swap, In swap swaps ->
     wellFormedSwap swap = true
     /\ xorb (ltb (Swap.amount0 swap) n0) (ltb (Swap.amount1 swap) n0) = true) ->
  Simulation.report prices swaps = Ok r ->
  Simulation.ResultData.totalVolumeETH r
  = fold_left add (map (fun swap => abs (Swap.amount1 swap)) swaps) n0
  /\ Simulation.ResultData.totalVolumeUSDC r
     = fold_left add (map (fun swap => abs (Swap.amount0 swap)) swaps) n0
  /\ map Simulation.SwapData.transactionHash (Simulation.ResultData.swaps r)
     = map Swap.transaction swaps.
Proof.
  unfold Simulation.report. intros Hswaps H.
  destruct (Simulation.processSwaps prices Simulation.initialLoopState swaps)
    as [st|msg] eqn:Hrun; cbn [bind] in H; [|discriminate H].
  injection H as <-.
  exact (@processSwaps_volumes prices swaps Hswaps _ _ Hrun).
Qed.

(** A purchase and a sale of 1 ETH for 3000 USDC: 2 ETH and 6000 USDC. *)
Lemma report_volumes_witness :
  exists r,
    Simulation.report roundAt3100 [sampleBuy; sampleSell] = Ok r
    /\ Simulation.ResultData.totalVolumeETH r = Fin 2
    /\ Simulation.ResultData.totalVolumeUSDC r = Fin 6000
    /\ map Simulation.SwapData.transactionHash (Simulation.ResultData.swaps r)
       = ["0xa"; "0xb"]%string.
Proof.
  eexists. split; [vm_compute; reflexivity|].
  match goal with
  | |- Simulation.ResultData.totalVolumeETH ?r = _ /\ _ =>
      destruct (@report_volumes roundAt3100 [sampleBuy; sampleSell] r) as (HE & HU & Hs)
  end.
  - intros swap [<-|[<-|[]]]; split; reflexivity.
  - reflexivity.
  - rewrite HE, HU, Hs. repeat split.
Defined.

(** ** The generic retry wrapper *)

Section RetryFacts.
Variables W A : Type.
Variable fetchFunction : W -> result A * W.

Lemma retry_attemptFrom (more : nat) :
  forall w,
    match Retry.attemptFrom fetchFunction more w with
    | (Ok a, w') =>
        exists k, (k <= more)%nat
                  /\ fetchFunction (afterCalls fetchFunction k w) = (Ok a, w')
                  /\ forall j, (j < k)%nat ->
                       exists e, fst (fetchFunction (afterCalls fetchFunction j w)) = Throw e
    | (Throw e, w') =>
        fetchFunction (afterCalls fetchFunction more w) = (Throw e, w')
        /\ forall j, (j <= more)%nat ->
             exists e', fst (fetchFunction (afterCalls fetchFunction j w)) = Throw e'
    end.
Proof.
  induction more as [|more IH]; intros w; cbn [Retry.attemptFrom];
    destruct (fetchFunction w) as [[a|msg] w1] eqn:Hfirst.
  - exists O. split; [lia|]. split; [exact Hfirst|]. intros j Hj. lia.
  - split; [exact Hfirst|]. intros j Hj. replace j with O by lia.
    exists msg. cbn [afterCalls]. now rewrite Hfirst.
  - exists O. split; [lia|]. split; [exact Hfirst|]. intros j Hj. lia.
  - specialize (IH w1).
    assert (Hshift : forall k, afterCalls fetchFunction (S k) w
                               = afterCalls fetchFunction k w1).
    { intros k. cbn [afterCalls]. now rewrite Hfirst. }
    destruct (Retry.attemptFrom fetchFunction more w1) as [[a|e] w'].
    + destruct IH as (k & Hk & Hans & Hfail).
      exists (S k). split; [lia|]. split; [now rewrite Hshift|].
      intros [|j] Hj; [exists msg; cbn [afterCalls]; now rewrite Hfirst|].
      rewrite Hshift. apply Hfail. lia.
    + destruct IH as (Hans & Hfail).
      split; [now rewrite Hshift|].
      intros [|j] Hj; [exists msg; cbn [afterCalls]; now rewrite Hfirst|].
      rewrite Hshift. apply Hfail. lia.
Qed.

(** [fetchWithRetry] calls the function until a call returns, five times
    at most: it returns what the first successful call returns and leaves
    the state that call leaves; when the five calls throw, it throws the
    error of the fifth. *)
Theorem fetchWithRetry_first_success (w : W) :
  match Retry.fetchWithRetry fetchFunction w with
  | (Ok a, w') =>
      exists k, (k < Oracle.MAX_RETRIES)%nat
                /\ fetchFunction (afterCalls fetchFunction k w) = (Ok a, w')
                /\ forall j, (j < k)%nat ->
                     exists e, fst (fetchFunction (afterCalls fetchFunction j w)) = Throw e
  | (Throw e, w') =>
      fetchFunction (afterCalls fetchFunction (Oracle.MAX_RETRIES - 1) w) = (Throw e, w')
      /\ forall j, (j < Oracle.MAX_RETRIES)%nat ->
           exists e', fst (fetchFunction (afterCalls fetchFunction j w)) = Throw e'
  end.
Proof.
  unfold Retry.fetchWithRetry.
  pose proof (retry_attemptFrom (Oracle.MAX_RETRIES - 1) w) as H.
  destruct (Retry.attemptFrom fetchFunction (Oracle.MAX_RETRIES - 1) w) as [[a|e] w'].
  - destruct H as (k & Hk & Hans & Hfail). exists k.
    split; [unfold Oracle.MAX_RETRIES in *; lia|]. split; assumption.
  - destruct H as (Hans & Hfail). split; [exact Hans|].
    intros j Hj. apply Hfail. unfold Oracle.MAX_RETRIES in *. lia.
Qed.

End RetryFacts.

(** Two resets of the connection, then an answer at the third call. *)
Lemma fetchWithRetry_first_success_witness :
  Retry.fetchWithRetry thirdTimeLucky O = (Ok 2%nat, 3%nat)
  /\ exists k, (k < Oracle.MAX_RETRIES)%nat
               /\ thirdTimeLucky (afterCalls thirdTimeLucky k O) = (Ok 2%nat, 3%nat).
Proof.
  split; [reflexivity|].
  pose proof (fetchWithRetry_first_success thirdTimeLucky O) as H.
  change (Retry.fetchWithRetry thirdTimeLucky O) with (@Ok nat 2%nat, 3%nat) in H.
  destruct H as (k & Hk & Hans & _). exists k. split; assumption.
Defined.

(** ** The two scripts on the same data *)

Section MatcherMap.
Variables P P' : Type.
Variable ts : P -> Z.
Variable ts' : P' -> Z.
Variable f : P -> P'.
Hypothesis same_ts : forall p, ts' (f p) = ts p.

Lemma insert_map (x : P) (l : list P) :
  insert (byTimestampDesc ts') (f x) (map f l) = map f (insert (byTimestampDesc ts) x l).
Proof.
  induction l as [|y l IH]; cbn [insert map]; [reflexivity|].
  unfold byTimestampDesc at 1 3. rewrite !same_ts.
  destruct (ts y - ts x <=? 0); cbn [map]; [reflexivity | now rewrite IH].
Qed.

Lemma sort_map (l : list P) :
  sort (byTimestampDesc ts') (map f l) = map f (sort (byTimestampDesc ts) l).
Proof.
  induction l as [|x l IH]; cbn [sort map]; [reflexivity|].
  now rewrite IH, insert_map.
Qed.

Lemma matcher_map (prices : list P) (t : Z) :
  findChainlinkPriceData ts' (map f prices) t
  = option_map f (findChainlinkPriceData ts prices t).
Proof.
  unfold findChainlinkPriceData.
  assert (Hfilter : filter (fun p => ts' p <=? t) (map f prices)
                    = map f (filter (fun p => ts p <=? t) prices)).
  { induction prices as [|p l IH]; cbn [filter map]; [reflexivity|].
    rewrite same_ts. destruct (ts p <=? t); cbn [map]; now rewrite IH. }
  rewrite Hfilter, sort_map.
  now destruct (sort (byTimestampDesc ts) _).
Qed.

End MatcherMap.

Section ScriptsAgree.
Variable k : nat.
Variable prices : list PriceData.t.
Hypothesis prices_digits :
  forall o, In o prices -> sameDigits k (PriceData.timestamp o).

(** On these observations the filter of [app.js] keeps what the filter of
    the 90 day script keeps. *)
Lemma app_matcher_agrees (t : Z) :
  sameDigits k t ->
  App.findChainlinkPriceData (map forgetRound prices) t
  = option_map forgetRound (findChainlinkPriceData PriceData.timestamp prices t).
Proof.
  intros Ht.
  rewrite (@app_matcher_same_digits k); [| |exact Ht].
  - apply (@matcher_map _ _ PriceData.timestamp App.PriceData.timestamp forgetRound
             (fun p => eq_refl)).
  - intros o Hin. apply in_map_iff in Hin. destruct Hin as (p & <- & Hp).
    now apply prices_digits.
Qed.

(** The records the two scripts make of one swap. *)
Lemma computeSwapData_agree (swap : Swap.t) :
  sameDigits k (Swap.timestamp swap) ->
  match Simulation.computeSwapData prices swap,
        App.computeSwapData (map forgetRound prices) swap with
  | Ok d, Ok d' => sameTrade d d'
  | Throw e, Throw e' => e = e'
  | _, _ => False
  end.
Proof.
  intros Hswap. unfold Simulation.computeSwapData, App.computeSwapData.
  rewrite (@app_matcher_agrees _ Hswap).
  destruct (toISOString (Swap.timestamp swap * 1000)); cbn [bind]; [|reflexivity].
  destruct (Simulation.direction _ _) as [[[[price volETH] volUSDC] buying] selling].
  destruct (findChainlinkPriceData PriceData.timestamp prices (Swap.timestamp swap))
    as [obs|]; cbn [option_map bind forgetRound App.PriceData.timestamp App.PriceData.price].
  - destruct (toISOString (PriceData.timestamp obs * 1000)); cbn [bind]; [|reflexivity].
    destruct (App.dynamicFee _ _ _ _) as [pdp dyn].
    repeat split.
  - destruct (App.dynamicFee _ _ _ _) as [pdp dyn].
    repeat split.
Qed.

(** The states of the two loops agree on what does not depend on the fee
    formula. *)
Lemma processSwaps_agree (swaps : list Swap.t) :
  (forall swap, In swap swaps -> sameDigits k (Swap.timestamp swap)) ->
  forall st st',
    let agree s s' :=
      Simulation.ResultData.totalSwaps (Simulation.resultData s)
      = AppReport.ResultData.totalSwaps (AppReport.resultData s')
      /\ Simulation.ResultData.totalVolumeETH (Simulation.resultData s)
         = AppReport.ResultData.totalVolumeETH (AppReport.resultData s')
      /\ Simulation.ResultData.totalVolumeUSDC (Simulation.resultData s)
         = AppReport.ResultData.totalVolumeUSDC (AppReport.resultData s')
      /\ Simulation.totalStandardFee s = AppReport.totalStandardFee s'
      /\ Forall2 sameTrade (Simulation.ResultData.swaps (Simulation.resultData s))
           (AppReport.ResultData.swaps (AppReport.resultData s')) in
    agree st st' ->
    match Simulation.processSwaps prices st swaps,
          AppReport.processSwaps (map forgetRound prices) st' swaps with
    | Ok s, Ok s' => agree s s'
    | Throw e, Throw e' => e = e'
    | _, _ => False
    end.
Proof.
  cbv zeta.
  induction swaps as [|swap rest IH]; intros Hswaps st st' Hagree;
    cbn [Simulation.processSwaps AppReport.processSwaps]; [exact Hagree|].
  unfold Simulation.processSwap, AppReport.processSwap.
  pose proof (@computeSwapData_agree swap (Hswaps swap (or_introl eq_refl))) as Hd.
  destruct (Simulation.computeSwapData prices swap) as [d|e],
           (App.computeSwapData (map forgetRound prices) swap) as [d'|e'];
    cbn [bind]; try contradiction; [|exact Hd].
  destruct (Simulation.direction _ _) as [[[[price volETH] volUSDC] buying] selling].
  cbn [bind]. apply IH; [intros s Hs; apply Hswaps; now right|].
  destruct Hagree as (Hn & HE & HU & Hstd & Hrecords).
  cbn [Simulation.resultData AppReport.resultData
       Simulation.ResultData.totalSwaps AppReport.ResultData.totalSwaps
       Simulation.ResultData.totalVolumeETH AppReport.ResultData.totalVolumeETH
       Simulation.ResultData.totalVolumeUSDC AppReport.ResultData.totalVolumeUSDC
       Simulation.totalStandardFee AppReport.totalStandardFee
       Simulation.ResultData.swaps AppReport.ResultData.swaps].
  rewrite Hn, HE, HU, Hstd.
  assert (Hfee : Simulation.SwapData.standardFee d = App.SwapData.standardFee d')
    by apply Hd.
  rewrite Hfee. repeat split.
  apply Forall2_app; [exact Hrecords | constructor; [exact Hd | constructor]].
Qed.

Lemma report_agree (swaps : list Swap.t) :
  (forall swap, In swap swaps -> sameDigits k (Swap.timestamp swap)) ->
  match Simulation.report prices swaps,
        AppReport.report (map forgetRound prices) swaps with
  | Ok r, Ok r' => sameReport r r'
  | Throw e, Throw e' => e = e'
  | _, _ => False
  end.
Proof.
  intros Hswaps. unfold Simulation.report, AppReport.report.
  pose proof (@processSwaps_agree swaps Hswaps
                Simulation.initialLoopState AppReport.initialLoopState) as H.
  cbv zeta in H.
  assert (Hinit : Forall2 sameTrade
                    (Simulation.ResultData.swaps
                       (Simulation.resultData Simulation.initialLoopState))
                    (AppReport.ResultData.swaps
                       (AppReport.resultData AppReport.initialLoopState)))
    by constructor.
  specialize (H (conj eq_refl (conj eq_refl (conj eq_refl (conj eq_refl Hinit))))).
  destruct (Simulation.processSwaps _ _ _) as [s|e],
           (AppReport.processSwaps _ _ _) as [s'|e']; cbn [bind]; exact H.
Qed.

(** The same swaps and the same observations, all timestamps written with
    the same number of digits (ten, for the dates from 2001 to 2286): the
    two scripts either both fail, with the same error, or both report; and
    then their reports agree on the number of swaps, on both volumes and on
    the standard fee total, and their records agree, swap by swap, on the
    dates, the amounts, the direction, the traded price, the matched
    observation, the signed deviation and the standard fee. *)
Theorem scripts_agree_outside_fee_formula (swaps : list Swap.t) :
  (forall swap, In swap swaps -> sameDigits k (Swap.timestamp swap)) ->
  match Simulation.report prices swaps,
        AppReport.report (map forgetRound prices) swaps with
  | Ok r, Ok r' =>
      Simulation.ResultData.totalSwaps r = AppReport.ResultData.totalSwaps r'
      /\ Simulation.ResultData.totalVolumeETH r = AppReport.ResultData.totalVolumeETH r'
      /\ Simulation.ResultData.totalVolumeUSDC r = AppReport.ResultData.totalVolumeUSDC r'
      /\ Simulation.ResultData.totalStandardFee r
         = AppReport.ResultData.totalStandardFee r'
      /\ Forall2 sameTrade (Simulation.ResultData.swaps r) (AppReport.ResultData.swaps r')
  | Throw e, Throw e' => e = e'
  | _, _ => False
  end.
Proof.
  intros Hswaps. pose proof (@report_agree swaps Hswaps) as H.
  destruct (Simulation.report prices swaps) as [r|e],
           (AppReport.report (map forgetRound prices) swaps) as [r'|e'];
    exact H.
Qed.

End ScriptsAgree.

(** A purchase and a sale at 1700000000 against a round at 1699999000. *)
Lemma scripts_agree_outside_fee_formula_witness :
  (forall o, In o roundAt3100 -> sameDigits 9 (PriceData.timestamp o))
  /\ (forall swap, In swap [sampleBuy; sampleSell] ->
                   sameDigits 9 (Swap.timestamp swap))
  /\ exists r r',
       Simulation.report roundAt3100 [sampleBuy; sampleSell] = Ok r
       /\ AppReport.report (map forgetRound roundAt3100) [sampleBuy; sampleSell] = Ok r'
       /\ Simulation.ResultData.totalSwaps r = AppReport.ResultData.totalSwaps r'
       /\ Simulation.ResultData.totalStandardFee r
          = AppReport.ResultData.totalStandardFee r'
       /\ Forall2 sameTrade (Simulation.ResultData.swaps r)
            (AppReport.ResultData.swaps r').
Proof.
  assert (Hprices : forall o, In o roundAt3100 -> sameDigits 9 (PriceData.timestamp o)).
  { intros o [<-|[]]. unfold sameDigits. cbn. lia. }
  assert (Hswaps : forall swap, In swap [sampleBuy; sampleSell] ->
                                sameDigits 9 (Swap.timestamp swap)).
  { intros swap [<-|[<-|[]]]; unfold sameDigits; cbn; lia. }
  split; [exact Hprices|]. split; [exact Hswaps|].
  pose proof (@scripts_agree_outside_fee_formula 9 roundAt3100 Hprices
                [sampleBuy; sampleSell] Hswaps) as H.
  destruct (Simulation.report roundAt3100 [sampleBuy; sampleSell]) as [r|e] eqn:Hr;
    [|vm_compute in Hr; discriminate Hr].
  destruct (AppReport.report (map forgetRound roundAt3100) [sampleBuy; sampleSell])
    as [r'|e'] eqn:Hr'; [|contradiction].
  exists r, r'. repeat split; apply H.
Defined.

(** ** The two oracle builders on the same feed *)

Section AppBuilderFacts.
Import Oracle.
Variable feed : PriceFeed.

(** The [while] loop of [app.js], one iteration unfolded. *)
Lemma app_walkBack_step (startTime endTime : Q) (roundId : Z) (roundData : RoundData)
  (prices : list App.PriceData.t) (w : World) :
  AppOracle.walkBack feed startTime endTime roundId roundData prices w
  = if keepWalking startTime roundId roundData then
      match callGetRoundData feed (roundId - 1)%Z w with
      | (Ok roundData', w') =>
          AppOracle.walkBack feed startTime endTime (roundId - 1)%Z roundData'
            (AppOracle.collect feed endTime roundData prices) w'
      | (Throw e, w') => (Throw e, w')
      end
    else (Ok (roundId, roundData, prices), w).
Proof.
  funelim (AppOracle.walkBack feed startTime endTime roundId roundData prices w);
    rewrite Hcond; unfold callGetRoundData;
    try match goal with
        | E : getRoundData _ _ _ = _ |- _ => rewrite E
        end;
    congruence.
Qed.

Variable data : Z -> RoundData.
Hypothesis unchanged :
  forall earlier roundId, getRoundData feed earlier roundId = Ok (data roundId).
Variable startTime endTime : Q.

Lemma call_unchanged (roundId : Z) (w : World) :
  callGetRoundData feed roundId w
  = (Ok (data roundId), mkWorld (roundsFile w) (roundId :: requested w)).
Proof. unfold callGetRoundData. now rewrite unchanged. Qed.

Lemma app_walk_unchanged (n : nat) :
  forall (roundId : Z) (prices : list App.PriceData.t) (w : World),
    roundId <= Z.of_nat n ->
    exists r,
      stopsAt data startTime roundId r
      /\ fst (AppOracle.walkBack feed startTime endTime roundId (data roundId) prices w)
         = Ok (r, data r,
               prices ++ map (appEntryOf feed data)
                             (filter (updatedBy data endTime)
                                     (roundsDown roundId (Z.to_nat (roundId - r))))).
Proof.
  assert (Hstop : forall roundId prices w,
             keepWalking startTime roundId (data roundId) = false ->
             exists r,
               stopsAt data startTime roundId r
               /\ fst (AppOracle.walkBack feed startTime endTime roundId (data roundId)
                         prices w)
                  = Ok (r, data r,
                        prices ++ map (appEntryOf feed data)
                                      (filter (updatedBy data endTime)
                                              (roundsDown roundId
                                                 (Z.to_nat (roundId - r)))))).
  { intros roundId prices w Hcond. exists roundId. split.
    - split; [lia|]. split; [exact Hcond|]. intros id Hid. lia.
    - rewrite app_walkBack_step, Hcond, Z.sub_diag. cbn. now rewrite app_nil_r. }
  induction n as [|n IH]; intros roundId prices w Hle.
  - apply Hstop. unfold keepWalking.
    destruct (Z.ltb_spec 0 roundId); [lia|]. apply andb_false_r.
  - destruct (keepWalking startTime roundId (data roundId)) eqn:Hcond;
      [|now apply Hstop].
    assert (Hpos : 0 < roundId).
    { unfold keepWalking in Hcond. apply andb_prop in Hcond. now apply Z.ltb_lt. }
    destruct (IH (roundId - 1)%Z (AppOracle.collect feed endTime (data roundId) prices)
                (mkWorld (roundsFile w) ((roundId - 1)%Z :: requested w)))
      as (r & (Hr & Hfalse & Htrue) & Hwalk); [lia|].
    exists r. split.
    + split; [lia|]. split; [exact Hfalse|]. intros id Hid.
      destruct (Z.eq_dec id roundId) as [->|]; [exact Hcond | apply Htrue; lia].
    + rewrite app_walkBack_step, Hcond, call_unchanged, Hwalk. do 2 f_equal.
      replace (Z.to_nat (roundId - r)) with (S (Z.to_nat (roundId - 1 - r))) by lia.
      rewrite roundsDown_S. cbn [filter].
      unfold AppOracle.collect, updatedBy at 2.
      destruct (Qle_bool _ _); [|reflexivity].
      cbn [map]. rewrite <- app_assoc. reflexivity.
Qed.

Lemma app_extraRounds_unchanged (n : nat) :
  forall (roundId : Z) (prices : list App.PriceData.t) (w : World),
    fst (AppOracle.extraRounds n feed roundId prices w)
    = Ok (prices ++ map (appEntryOf feed data) (roundsDown (roundId - 1) n)).
Proof.
  induction n as [|n IH]; intros roundId prices w; cbn [AppOracle.extraRounds].
  - cbn. now rewrite app_nil_r.
  - unfold bindM. rewrite call_unchanged, IH, <- app_assoc, roundsDown_S.
    reflexivity.
Qed.

(** The build of [app.js] against this feed, in closed form. *)
Lemma app_build_closed_form (w : World) :
  exists r,
    stopsAt data startTime (latestRound feed) r
    /\ fst (AppOracle.fetchHistoricalChainlinkPrices feed startTime endTime w)
       = Ok (map (appEntryOf feed data)
                 (filter (updatedBy data endTime)
                         (roundsDown (latestRound feed)
                            (Z.to_nat (latestRound feed - r))))
             ++ map (appEntryOf feed data) (roundsDown (r - 1) EXTRA_ROUNDS)).
Proof.
  destruct (@app_walk_unchanged (Z.to_nat (latestRound feed)) (latestRound feed) []
              (mkWorld (roundsFile w) (latestRound feed :: requested w)))
    as (r & Hstops & Hwalk); [lia|].
  exists r. split; [exact Hstops|].
  unfold AppOracle.fetchHistoricalChainlinkPrices, bindM. rewrite call_unchanged.
  destruct (AppOracle.walkBack _ _ _ _ _ _ _) as [[[[r' rd'] walked']|e] w2];
    cbn [fst] in Hwalk; [|discriminate Hwalk].
  injection Hwalk as -> -> ->.
  pose proof (app_extraRounds_unchanged EXTRA_ROUNDS r
                ([] ++ map (appEntryOf feed data)
                         (filter (updatedBy data endTime)
                                 (roundsDown (latestRound feed)
                                    (Z.to_nat (latestRound feed - r))))) w2) as Hextra.
  destruct (AppOracle.extraRounds _ _ _ _ _) as [[prices'|e] w3];
    cbn [fst] in Hextra; [|discriminate Hextra].
  injection Hextra as ->. reflexivity.
Qed.

(** The walk stops at one round only. *)
Lemma stopsAt_unique (latest r r' : Z) :
  stopsAt data startTime latest r -> stopsAt data startTime latest r' -> r = r'.
Proof.
  intros (Hle & Hfalse & Htrue) (Hle' & Hfalse' & Htrue').
  destruct (Z.lt_trichotomy r r') as [Hlt|[Heq|Hgt]]; [|exact Heq|].
  - rewrite Htrue in Hfalse' by lia. discriminate.
  - rewrite Htrue' in Hfalse by lia. discriminate.
Qed.

Lemma builders_agree (w w' : World) :
  roundsFile w = None ->
  exists prices,
    fst (fetchHistoricalChainlinkPrices feed startTime endTime w) = Ok prices
    /\ fst (AppOracle.fetchHistoricalChainlinkPrices feed startTime endTime w')
       = Ok (map forgetRound prices).
Proof.
  intros Hfile.
  destruct (@build_closed_form feed data unchanged startTime endTime w)
    as (r & Hstops & Hbuild).
  destruct (app_build_closed_form w') as (r' & Hstops' & Happ).
  rewrite (stopsAt_unique Hstops' Hstops) in Happ.
  rewrite Hfile in Hbuild. cbn [app] in Hbuild.
  eexists. split; [exact Hbuild|].
  rewrite Happ, map_app, !map_map.
  change (fun x : Z => forgetRound (entryOf feed data x)) with (appEntryOf feed data).
  do 3 f_equal.
  apply filter_ext. intros id. unfold addedByWalk, updatedBy. cbn [cached existsb negb].
  now rewrite andb_true_r.
Qed.

(** First run, no rounds file yet, against a feed that always answers and
    always the same: the 90 day script builds the history that [app.js]
    builds, entry for entry, with the round identifier added to each. *)
Theorem builders_agree_on_first_run (w w' : World) :
  roundsFile w = None ->
  exists prices,
    fst (fetchHistoricalChainlinkPrices feed startTime endTime w) = Ok prices
    /\ fst (AppOracle.fetchHistoricalChainlinkPrices feed startTime endTime w')
       = Ok (map forgetRound prices).
Proof. exact (builders_agree w w'). Qed.

End AppBuilderFacts.

(** The steady feed, first run, window from 1450 to 5000: eleven rounds. *)
Lemma builders_agree_on_first_run_witness :
  (forall earlier roundId,
      Oracle.getRoundData steadyFeed earlier roundId
      = Ok (Oracle.mkRound (100 * roundId) (roundId * 100000000)))
  /\ Oracle.roundsFile emptyWorld = None
  /\ exists prices,
       fst (Oracle.fetchHistoricalChainlinkPrices steadyFeed (1450 # 1) (5000 # 1)
              emptyWorld) = Ok prices
       /\ fst (AppOracle.fetchHistoricalChainlinkPrices steadyFeed (1450 # 1) (5000 # 1)
                 emptyWorld) = Ok (map forgetRound prices)
       /\ List.length prices = 11%nat.
Proof.
  assert (Hfeed : forall earlier roundId,
             Oracle.getRoundData steadyFeed earlier roundId
             = Ok (Oracle.mkRound (100 * roundId) (roundId * 100000000)))
    by reflexivity.
  split; [exact Hfeed|]. split; [reflexivity|].
  destruct (@builders_agree_on_first_run steadyFeed _ Hfeed (1450 # 1) (5000 # 1)
              emptyWorld emptyWorld eq_refl) as (prices & Hbuild & Happ).
  exists prices. split; [exact Hbuild|]. split; [exact Happ|].
  assert (Hrun : fst (Oracle.fetchHistoricalChainlinkPrices steadyFeed (1450 # 1)
                        (5000 # 1) emptyWorld)
                 = Ok (steadyRounds [20; 19; 18; 17; 16; 15; 13; 12; 11; 10; 9]))
    by (vm_compute; reflexivity).
  rewrite Hrun in Hbuild. injection Hbuild as <-. reflexivity.
Defined.

(** ** A whole run *)

Lemma loop_sends (subgraph : Ingestor.Subgraph) (startTime : Z) (fuel : nat) :
  forall st sent r sent',
    Ingestor.loop fuel subgraph startTime st sent = Some (r, sent') ->
    exists more, sent' = sent ++ more
                 /\ (Ingestor.hasMore st = true -> more <> []).
Proof.
  induction fuel as [|fuel IH]; intros st sent r sent' H; cbn [Ingestor.loop] in H.
  - destruct (Ingestor.hasMore st); [discriminate H|].
    injection H as _ <-. exists []. split; [now rewrite app_nil_r | discriminate].
  - destruct (Ingestor.hasMore st).
    + destruct (Ingestor.iteration _ st) as [st'|msg].
      * apply IH in H. destruct H as (more & -> & _).
        exists (Ingestor.requestOf startTime st :: more).
        split; [now rewrite <- app_assoc | discriminate].
      * injection H as _ <-. eexists. split; [reflexivity | discriminate].
    + injection H as _ <-. exists []. split; [now rewrite app_nil_r | discriminate].
Qed.


(** A run of the 90 day script that ends.  When the price history could not
    be built, the error is caught, the subgraph has not been asked anything,
    no report is written and the rounds file is as it was.  Otherwise the
    rounds file holds the new history, whether or not the rest of the run
    succeeds, the subgraph has been asked at least once, and the run ends
    with a report or with a caught error, never both and never neither. *)
Theorem main_outcomes (feed : Oracle.PriceFeed) (subgraph : Ingestor.Subgraph)
  (daysAgo now : Z) (fuel : nat) (w : Oracle.World)
  (run : Main.Run Simulation.ResultData.t) :
  Main.main feed subgraph daysAgo now fuel w = Some run ->
  match fst (Oracle.fetchHistoricalChainlinkPrices feed (Main.seconds daysAgo)
               (Main.seconds now) w) with
  | Throw error =>
      Main.caught run = Some error
      /\ Main.outputFile run = None
      /\ Main.sent run = []
      /\ Oracle.roundsFile (Main.world run) = Oracle.roundsFile w
  | Ok chainlinkPrices =>
      Oracle.roundsFile (Main.world run) = Some chainlinkPrices
      /\ Main.sent run <> []
      /\ match Main.outputFile run with
         | Some resultData =>
             Main.caught run = None
             /\ exists swaps,
                  Ingestor.fetchSwaps fuel subgraph daysAgo
                  = Some (Ok swaps, Main.sent run)
                  /\ Simulation.report chainlinkPrices swaps = Ok resultData
         | None => exists error, Main.caught run = Some error
         end
  end.
Proof.
  unfold Main.main. intros H.
  pose proof (build_file feed (Main.seconds daysAgo) (Main.seconds now) w) as Hfile.
  destruct (Oracle.fetchHistoricalChainlinkPrices _ _ _ w) as [[prices|e] w1]; cbn [fst].
  - destruct (Ingestor.fetchSwaps fuel subgraph daysAgo) as [[[swaps|e] sent]|] eqn:Hswaps;
      [| |discriminate H].
    + assert (Hsent : sent <> []).
      { unfold Ingestor.fetchSwaps in Hswaps. apply loop_sends in Hswaps.
        destruct Hswaps as (more & -> & Hmore). now apply Hmore. }
      destruct (Simulation.report prices swaps) as [r|e] eqn:Hreport;
        injection H as <-; cbn [Main.world Main.sent Main.outputFile Main.caught];
        (split; [exact Hfile|]); (split; [exact Hsent|]).
      * split; [reflexivity|]. exists swaps. now split.
      * now exists e.
    + assert (Hsent : sent <> []).
      { unfold Ingestor.fetchSwaps in Hswaps. apply loop_sends in Hswaps.
        destruct Hswaps as (more & -> & Hmore). now apply Hmore. }
      injection H as <-. cbn [Main.world Main.sent Main.outputFile Main.caught].
      split; [exact Hfile|]. split; [exact Hsent|]. now exists e.
  - injection H as <-. cbn [Main.world Main.sent Main.outputFile Main.caught].
    repeat split. exact Hfile.
Qed.

(** The feed never answers: the error of the fifth attempt is caught, the
    subgraph is not asked.  The subgraph does not know the pool: the rounds
    file has been written all the same. *)
Lemma main_outcomes_witness :
  (exists run,
      Main.main deadFeed twoPages 1450000 5000000 2 emptyWorld = Some run
      /\ Main.caught run = Some "Timeout"%string
      /\ Main.outputFile run = None
      /\ Main.sent run = []
      /\ Oracle.roundsFile (Main.world run) = None)
  /\ (exists run prices,
         Main.main steadyFeed noPool 1450000 5000000 2 emptyWorld = Some run
         /\ Oracle.roundsFile (Main.world run) = Some prices
         /\ List.length prices = 11%nat
         /\ Main.caught run = Some "Pool not found"%string).
Proof.
  split.
  - eexists.
    assert (Hrun : Main.main deadFeed twoPages 1450000 5000000 2 emptyWorld
                   = Some (Main.mkRun (Oracle.mkWorld None [20; 20; 20; 20; 20]) []
                             None (Some "Timeout"%string)))
      by (vm_compute; reflexivity).
    split; [exact Hrun|].
    exact (@main_outcomes deadFeed twoPages 1450000 5000000 2 emptyWorld _ Hrun).
  - eexists. exists (steadyRounds [20; 19; 18; 17; 16; 15; 13; 12; 11; 10; 9]).
    assert (Hrun : Main.main steadyFeed noPool 1450000 5000000 2 emptyWorld
                   = Some (Main.mkRun
                             (Oracle.mkWorld
                                (Some (steadyRounds
                                         [20; 19; 18; 17; 16; 15; 13; 12; 11; 10; 9]))
                                [9; 10; 11; 12; 13; 14; 15; 16; 17; 18; 19; 20])
                             [(1450, EmptyString)] None
                             (Some "Pool not found"%string)))
      by (vm_compute; reflexivity).
    split; [exact Hrun|].
    pose proof (@main_outcomes steadyFeed noPool 1450000 5000000 2 emptyWorld _ Hrun)
      as H.
    assert (Hbuild : fst (Oracle.fetchHistoricalChainlinkPrices steadyFeed
                            (Main.seconds 1450000) (Main.seconds 5000000) emptyWorld)
                     = Ok (steadyRounds [20; 19; 18; 17; 16; 15; 13; 12; 11; 10; 9]))
      by (vm_compute; reflexivity).
    rewrite Hbuild in H. destruct H as (Hfile & _ & _).
    split; [exact Hfile|]. split; reflexivity.
Defined.

Section WholeRun.
Import Oracle.
Variable feed : PriceFeed.
Variable data : Z -> RoundData.
Hypothesis unchanged :
  forall earlier roundId, getRoundData feed earlier roundId = Ok (data roundId).
Variable subgraph : Ingestor.Subgraph.
Variable daysAgo now : Z.

(** The 90 day script ends with a report when its two services answer: the
    feed always answers, and always the same; the subgraph answers a chain
    of full pages and then a page of fewer than 1000 records; every date, of
    a round of the feed from the latest down to round -5, of an entry of the
    rounds file and of a swap, is representable.  The run then needs one unit of fuel per page, catches
    no error, has sent one request per page, and writes a report whose
    [totalSwaps] is the number of swaps of all the pages; more fuel gives
    the same run. *)
Theorem main_reports_when_services_answer (w : World)
  (sent0 : list Ingestor.Request) (cursor : string) (acc : list Swap.t)
  (pool : Ingestor.Pool) :
  0 <= latestRound feed ->
  (forall roundId, -5 <= roundId <= latestRound feed ->
                   validDate (updatedAt (data roundId))) ->
  (forall o, In o match roundsFile w with Some cache => cache | None => [] end ->
             validDate (PriceData.timestamp o)) ->
  FullPages subgraph daysAgo sent0 cursor acc ->
  subgraph ((daysAgo / 1000)%Z, cursor) = Ok (Some pool) ->
  (List.length (Ingestor.swaps pool) < Ingestor.PAGE_SIZE)%nat ->
  (forall swap, In swap (acc ++ Ingestor.swaps pool) -> validDate (Swap.timestamp swap)) ->
  exists run resultData,
    Main.main feed subgraph daysAgo now (List.length sent0 + 1) w = Some run
    /\ Main.outputFile run = Some resultData
    /\ Main.caught run = None
    /\ Main.sent run = sent0 ++ [((daysAgo / 1000)%Z, cursor)]
    /\ Simulation.ResultData.totalSwaps resultData
       = of_Z (Z.of_nat (List.length (acc ++ Ingestor.swaps pool)))
    /\ forall fuel run',
         Main.main feed subgraph daysAgo now fuel w = Some run' -> run' = run.
Proof.
  intros Hlatest Hdata Hcache Hchain Hpage Hshort Hswaps.
  (* the history *)
  destruct (@build_closed_form feed data unchanged (Main.seconds daysAgo)
              (Main.seconds now) w) as (r & (Hle & Hfalse & Htrue) & Hbuild).
  assert (Hr : 0 <= r).
  { destruct (Z.le_gt_cases 0 r) as [H|H]; [exact H|].
    specialize (Htrue 0 (conj H Hlatest)). unfold keepWalking in Htrue.
    apply andb_prop in Htrue. destruct Htrue as [_ Hpos]. discriminate Hpos. }
  cbv zeta in Hbuild.
  destruct (fetchHistoricalChainlinkPrices feed (Main.seconds daysAgo)
              (Main.seconds now) w) as [[prices|e] w1] eqn:Hrun;
    cbn [fst] in Hbuild; [|discriminate Hbuild].
  injection Hbuild as Hprices.
  assert (Hdates : forall o, In o prices -> validDate (PriceData.timestamp o)).
  { intros o Hin. rewrite Hprices in Hin.
    apply in_app_or in Hin. destruct Hin as [Hin|Hin]; [now apply Hcache|].
    apply in_app_or in Hin. destruct Hin as [Hin|Hin].
    - apply in_map_iff in Hin. destruct Hin as (id & <- & Hid).
      apply filter_In in Hid. destruct Hid as [Hid _].
      apply roundsDown_In in Hid. apply Hdata. lia.
    - repeat (destruct Hin as [<-|Hin]; [apply Hdata; lia|]). contradiction. }
  (* the swaps *)
  assert (Hfetch : forall fuel,
             (List.length sent0 + 1 <= fuel)%nat ->
             Ingestor.fetchSwaps fuel subgraph daysAgo
             = Some (Ok (acc ++ Ingestor.swaps pool),
                     sent0 ++ [((daysAgo / 1000)%Z, cursor)])).
  { assert (Hk : forall fuel,
               Ingestor.loop (List.length sent0 + fuel) subgraph daysAgo
                 Ingestor.initialState []
               = Ingestor.loop fuel subgraph daysAgo
                   (Ingestor.mkState acc cursor true) sent0).
    { clear - Hchain.
      induction Hchain as [|sent cursor acc pool front lastRecord _ IH Hpage Hfull Hlast];
        intros fuel; [reflexivity|].
      rewrite length_app. cbn [List.length].
      replace (List.length sent + 1 + fuel)%nat with (List.length sent + S fuel)%nat
        by lia.
      rewrite IH. now apply loop_full_page with (front := front). }
    intros fuel Hfuel. unfold Ingestor.fetchSwaps.
    apply (@loop_more_fuel subgraph daysAgo (List.length sent0 + 1)); [|exact Hfuel].
    rewrite Hk. now apply loop_short_page. }
  (* the report *)
  destruct (@processSwaps_runs prices (acc ++ Ingestor.swaps pool) Hdates Hswaps
              Simulation.initialLoopState) as (st & Hloop).
  pose proof (@processSwaps_count prices _ _ _ 0 Hloop eq_refl) as Hcount.
  assert (Hreport : Simulation.report prices (acc ++ Ingestor.swaps pool)
                    = Ok (Simulation.finalize st)).
  { unfold Simulation.report. now rewrite Hloop. }
  assert (Hmain : forall fuel,
             (List.length sent0 + 1 <= fuel)%nat ->
             Main.main feed subgraph daysAgo now fuel w
             = Some (Main.mkRun w1 (sent0 ++ [((daysAgo / 1000)%Z, cursor)])
                       (Some (Simulation.finalize st)) None)).
  { intros fuel Hfuel. unfold Main.main.
    now rewrite Hrun, (Hfetch fuel Hfuel), Hreport. }
  eexists. exists (Simulation.finalize st).
  split; [apply Hmain; lia|]. repeat split.
  - exact Hcount.
  - intros fuel run' Hrun'.
    destruct (Nat.le_gt_cases (List.length sent0 + 1) fuel) as [Hfuel|Hfuel].
    + rewrite (Hmain fuel Hfuel) in Hrun'. now injection Hrun' as <-.
    + unfold Main.main in Hrun'. rewrite Hrun in Hrun'.
      destruct (Ingestor.fetchSwaps fuel subgraph daysAgo) as [res|] eqn:Hres;
        [|discriminate Hrun'].
      unfold Ingestor.fetchSwaps in Hres.
      apply (@loop_more_fuel subgraph daysAgo fuel (List.length sent0 + 1)) in Hres;
        [|lia].
      pose proof (Hfetch _ (Nat.le_refl _)) as Hfull.
      unfold Ingestor.fetchSwaps in Hfull. rewrite Hfull in Hres.
      injection Hres as <-. rewrite Hreport in Hrun'. now injection Hrun' as <-.
Qed.



End WholeRun.

(** The steady feed and the subgraph of two pages: 1002 swaps reported
    after two requests. *)
Lemma main_reports_when_services_answer_witness :
  exists run resultData,
    Main.main steadyFeed twoPages 1450000 5000000 2 emptyWorld = Some run
    /\ Main.outputFile run = Some resultData
    /\ Main.caught run = None
    /\ Main.sent run = [(1450, EmptyString); (1450, Swap.id sampleSell)]
    /\ Simulation.ResultData.totalSwaps resultData = Fin 1002.
Proof.
  assert (Hfeed : forall earlier roundId,
             Oracle.getRoundData steadyFeed earlier roundId
             = Ok (Oracle.mkRound (100 * roundId) (roundId * 100000000)))
    by reflexivity.
  assert (Hlatest : 0 <= Oracle.latestRound steadyFeed) by (cbn; lia).
  assert (Hdata : forall roundId,
             -5 <= roundId <= Oracle.latestRound steadyFeed ->
             validDate (Oracle.updatedAt
                          (Oracle.mkRound (100 * roundId) (roundId * 100000000)))).
  { intros roundId. unfold validDate, MAX_TIME_VALUE, steadyFeed.
    cbn [Oracle.updatedAt Oracle.latestRound]. lia. }
  assert (Hcache : forall o,
             In o match Oracle.roundsFile emptyWorld with
                  | Some cache => cache
                  | None => []
                  end -> validDate (PriceData.timestamp o))
    by (intros o []).
  assert (Hchain : FullPages twoPages 1450000 [(1450, EmptyString)]
                     (Swap.id sampleSell) fullPage).
  { apply (@pages_next twoPages 1450000 [] EmptyString []
             (Ingestor.mkPool fullPage) (repeat sampleBuy 999) sampleSell).
    - apply pages_none.
    - reflexivity.
    - apply Nat.leb_le. vm_compute. reflexivity.
    - reflexivity. }
  assert (Hshort : (List.length (Ingestor.swaps (Ingestor.mkPool [sampleBuy; sampleBuy]))
                    < Ingestor.PAGE_SIZE)%nat)
    by (apply Nat.ltb_lt; vm_compute; reflexivity).
  assert (Hswaps : forall swap,
             In swap (fullPage ++ Ingestor.swaps (Ingestor.mkPool [sampleBuy; sampleBuy])) ->
             validDate (Swap.timestamp swap)).
  { intros swap Hin. unfold fullPage in Hin.
    assert (Hswap : swap = sampleBuy \/ swap = sampleSell).
    { apply in_app_or in Hin. destruct Hin as [Hin|[<-|[<-|[]]]]; [|now left..].
      apply in_app_or in Hin. destruct Hin as [Hin|[<-|[]]]; [|now right].
      apply repeat_spec in Hin. now left. }
    destruct Hswap as [->| ->]; vm_compute; discriminate. }
  destruct (@main_reports_when_services_answer steadyFeed _ Hfeed twoPages
              1450000 5000000 emptyWorld [(1450, EmptyString)] (Swap.id sampleSell)
              fullPage (Ingestor.mkPool [sampleBuy; sampleBuy])
              Hlatest Hdata Hcache Hchain eq_refl Hshort Hswaps)
    as (run & resultData & Hrun & Hout & Hcaught & Hsent & Hcount & _).
  exists run, resultData. repeat split; assumption.
Defined.


(** ** The requests of a build *)

Lemma roundsDown_app (hi : Z) (a b : nat) :
  roundsDown hi (a + b) = roundsDown hi a ++ roundsDown (hi - Z.of_nat a) b.
Proof.
  revert hi. induction a as [|a IH]; intros hi.
  - cbn [Nat.add]. unfold roundsDown at 2. cbn [seq map app]. f_equal. cbn. lia.
  - cbn [Nat.add]. rewrite !roundsDown_S, IH. cbn [app]. do 3 f_equal. lia.
Qed.

Section BuildRequests.
Import Oracle.
Variable feed : PriceFeed.
Variable data : Z -> RoundData.
Hypothesis unchanged :
  forall earlier roundId, getRoundData feed earlier roundId = Ok (data roundId).
Variable startTime endTime : Q.

Lemma stops_below (roundId r : Z) :
  stopsAt data startTime roundId r ->
  keepWalking startTime roundId (data roundId) = true ->
  stopsAt data startTime (roundId - 1) r.
Proof.
  intros (Hle & Hfalse & Htrue) Hcond.
  assert (r <> roundId) by (intros ->; congruence).
  split; [lia|]. split; [exact Hfalse|]. intros id Hid. apply Htrue. lia.
Qed.

Lemma stops_here (roundId r : Z) :
  stopsAt data startTime roundId r ->
  keepWalking startTime roundId (data roundId) = false ->
  r = roundId.
Proof.
  intros (Hle & Hfalse & Htrue) Hcond.
  destruct (Z.eq_dec r roundId) as [|Hne]; [assumption|].
  rewrite Htrue in Hcond by lia. discriminate.
Qed.

Lemma walk_requests (n : nat) :
  forall (roundId r : Z) (prices : list PriceData.t) (w : World),
    roundId <= Z.of_nat n ->
    stopsAt data startTime roundId r ->
    requested (snd (walkBack feed startTime endTime roundId (data roundId) prices w))
    = rev (roundsDown (roundId - 1) (Z.to_nat (roundId - r))) ++ requested w.
Proof.
  induction n as [|n IH]; intros roundId r prices w Hle Hstops;
    rewrite walkBack_step;
    destruct (keepWalking startTime roundId (data roundId)) eqn:Hcond.
  - unfold keepWalking in Hcond. apply andb_prop in Hcond.
    destruct Hcond as [_ Hpos]. apply Z.ltb_lt in Hpos. lia.
  - rewrite (stops_here Hstops Hcond), Z.sub_diag. reflexivity.
  - assert (Hpos : 0 < roundId).
    { unfold keepWalking in Hcond. apply andb_prop in Hcond. now apply Z.ltb_lt. }
    pose proof (stops_below Hstops Hcond) as Hbelow.
    assert (Hr : r <= roundId - 1) by apply Hbelow.
    rewrite (@fetch_unchanged feed data unchanged).
    rewrite (IH (roundId - 1)%Z r) by (lia || assumption).
    cbn [requested].
    replace (Z.to_nat (roundId - r)) with (S (Z.to_nat (roundId - 1 - r))) by lia.
    rewrite roundsDown_S. cbn [rev]. now rewrite <- app_assoc.
  - rewrite (stops_here Hstops Hcond), Z.sub_diag. reflexivity.
Qed.

Lemma app_walk_requests (n : nat) :
  forall (roundId r : Z) (prices : list App.PriceData.t) (w : World),
    roundId <= Z.of_nat n ->
    stopsAt data startTime roundId r ->
    requested (snd (AppOracle.walkBack feed startTime endTime roundId (data roundId)
                      prices w))
    = rev (roundsDown (roundId - 1) (Z.to_nat (roundId - r))) ++ requested w.
Proof.
  induction n as [|n IH]; intros roundId r prices w Hle Hstops;
    rewrite app_walkBack_step;
    destruct (keepWalking startTime roundId (data roundId)) eqn:Hcond.
  - unfold keepWalking in Hcond. apply andb_prop in Hcond.
    destruct Hcond as [_ Hpos]. apply Z.ltb_lt in Hpos. lia.
  - rewrite (stops_here Hstops Hcond), Z.sub_diag. reflexivity.
  - assert (Hpos : 0 < roundId).
    { unfold keepWalking in Hcond. apply andb_prop in Hcond. now apply Z.ltb_lt. }
    pose proof (stops_below Hstops Hcond) as Hbelow.
    assert (Hr : r <= roundId - 1) by apply Hbelow.
    rewrite (@call_unchanged feed data unchanged).
    rewrite (IH (roundId - 1)%Z r) by (lia || assumption).
    cbn [requested].
    replace (Z.to_nat (roundId - r)) with (S (Z.to_nat (roundId - 1 - r))) by lia.
    rewrite roundsDown_S. cbn [rev]. now rewrite <- app_assoc.
  - rewrite (stops_here Hstops Hcond), Z.sub_diag. reflexivity.
Qed.

Lemma extraRounds_requests (n : nat) :
  forall (roundId : Z) (prices : list PriceData.t) (w : World),
    requested (snd (extraRounds n feed roundId prices w))
    = rev (roundsDown (roundId - 1) n) ++ requested w.
Proof.
  induction n as [|n IH]; intros roundId prices w; cbn [extraRounds]; [reflexivity|].
  unfold bindM. rewrite (@fetch_unchanged feed data unchanged), IH.
  cbn [requested]. rewrite roundsDown_S. cbn [rev]. now rewrite <- app_assoc.
Qed.

Lemma app_extraRounds_requests (n : nat) :
  forall (roundId : Z) (prices : list App.PriceData.t) (w : World),
    requested (snd (AppOracle.extraRounds n feed roundId prices w))
    = rev (roundsDown (roundId - 1) n) ++ requested w.
Proof.
  induction n as [|n IH]; intros roundId prices w; cbn [AppOracle.extraRounds];
    [reflexivity|].
  unfold bindM. rewrite (@call_unchanged feed data unchanged), IH.
  cbn [requested]. rewrite roundsDown_S. cbn [rev]. now rewrite <- app_assoc.
Qed.

(** Against a feed that always answers, and always the same, a build of
    either script asks for every round from the latest one down to the fifth
    below the round where the walk stops, once each and in that order.  The
    rounds file of the 90 day script saves it no request: what it holds has
    no part in the rounds asked for. *)
Theorem build_requests_every_round (w : World) :
  exists r,
    stopsAt data startTime (latestRound feed) r
    /\ (let asked := roundsDown (latestRound feed)
                       (Z.to_nat (latestRound feed - r) + 1 + EXTRA_ROUNDS) in
        requested (snd (fetchHistoricalChainlinkPrices feed startTime endTime w))
        = rev asked ++ requested w
        /\ requested (snd (AppOracle.fetchHistoricalChainlinkPrices feed startTime
                             endTime w))
           = rev asked ++ requested w).
Proof.
  destruct (@walk_unchanged feed data unchanged startTime endTime
              (Z.to_nat (latestRound feed)) (latestRound feed) []
              (mkWorld (roundsFile w) (latestRound feed :: requested w)))
    as (r & Hstops & _); [lia|].
  exists r. split; [exact Hstops|]. cbv zeta.
  assert (Hasked : forall before,
             rev (roundsDown (r - 1) EXTRA_ROUNDS)
             ++ rev (roundsDown (latestRound feed - 1) (Z.to_nat (latestRound feed - r)))
             ++ latestRound feed :: before
             = rev (roundsDown (latestRound feed)
                      (Z.to_nat (latestRound feed - r) + 1 + EXTRA_ROUNDS))
               ++ before).
  { intros before. destruct Hstops as [Hle _].
    replace (Z.to_nat (latestRound feed - r) + 1 + EXTRA_ROUNDS)%nat
      with (S (Z.to_nat (latestRound feed - r)) + EXTRA_ROUNDS)%nat by lia.
    rewrite roundsDown_app, roundsDown_S, rev_app_distr. cbn [rev].
    rewrite <- !app_assoc. cbn [app]. do 3 f_equal. lia. }
  split.
  - unfold fetchHistoricalChainlinkPrices, bindM, readRoundsFile, writeRoundsFile, ret.
    rewrite (@fetch_unchanged feed data unchanged).
    pose proof (@walk_requests (Z.to_nat (latestRound feed)) (latestRound feed) r
                  match roundsFile w with Some prices => prices | None => [] end
                  (mkWorld (roundsFile w) (latestRound feed :: requested w))) as Hwalk.
    pose proof (@walk_unchanged feed data unchanged startTime endTime
                  (Z.to_nat (latestRound feed)) (latestRound feed)
                  match roundsFile w with Some prices => prices | None => [] end
                  (mkWorld (roundsFile w) (latestRound feed :: requested w))) as Hok.
    destruct Hok as (r0 & Hstops0 & Hok); [lia|].
    rewrite <- (stopsAt_unique Hstops Hstops0) in Hok.
    destruct (walkBack _ _ _ _ _ _ _) as [[[[r' rd'] walked']|e] w2];
      cbn [fst] in Hok; [|discriminate Hok].
    injection Hok as -> _ _.
    cbn [snd] in Hwalk. specialize (Hwalk ltac:(lia) Hstops). cbn [requested] in Hwalk.
    pose proof (extraRounds_requests EXTRA_ROUNDS r walked' w2) as Hextra.
    pose proof (@extraRounds_unchanged feed data unchanged EXTRA_ROUNDS r walked' w2)
      as Hextra_ok.
    destruct (extraRounds _ _ _ _ _) as [[prices'|e] w3];
      cbn [fst] in Hextra_ok; [|discriminate Hextra_ok].
    cbn [snd requested] in *. rewrite Hextra, Hwalk. apply Hasked.
  - unfold AppOracle.fetchHistoricalChainlinkPrices, bindM, ret.
    rewrite (@call_unchanged feed data unchanged).
    pose proof (@app_walk_requests (Z.to_nat (latestRound feed)) (latestRound feed) r []
                  (mkWorld (roundsFile w) (latestRound feed :: requested w))) as Hwalk.
    pose proof (@app_walk_unchanged feed data unchanged startTime endTime
                  (Z.to_nat (latestRound feed)) (latestRound feed) []
                  (mkWorld (roundsFile w) (latestRound feed :: requested w))) as Hok.
    destruct Hok as (r0 & Hstops0 & Hok); [lia|].
    rewrite <- (stopsAt_unique Hstops Hstops0) in Hok.
    destruct (AppOracle.walkBack _ _ _ _ _ _ _) as [[[[r' rd'] walked']|e] w2];
      cbn [fst] in Hok; [|discriminate Hok].
    injection Hok as -> _ _.
    cbn [snd] in Hwalk. specialize (Hwalk ltac:(lia) Hstops). cbn [requested] in Hwalk.
    pose proof (app_extraRounds_requests EXTRA_ROUNDS r walked' w2) as Hextra.
    pose proof (@app_extraRounds_unchanged feed data unchanged EXTRA_ROUNDS r walked' w2)
      as Hextra_ok.
    destruct (AppOracle.extraRounds _ _ _ _ _) as [[prices'|e] w3];
      cbn [fst] in Hextra_ok; [|discriminate Hextra_ok].
    cbn [snd requested] in *. rewrite Hextra, Hwalk. apply Hasked.
Qed.

End BuildRequests.

(** The steady feed, window from 1450: the walk stops at round 14, and the
    twelve rounds from 20 down to 9 are asked for, with or without a rounds
    file. *)
Lemma build_requests_every_round_witness :
  (forall earlier roundId,
      Oracle.getRoundData steadyFeed earlier roundId
      = Ok (Oracle.mkRound (100 * roundId) (roundId * 100000000)))
  /\ Oracle.requested
       (snd (Oracle.fetchHistoricalChainlinkPrices steadyFeed (1450 # 1) (5000 # 1)
               (Oracle.mkWorld (Some (steadyRounds [20; 19; 18])) [])))
     = [9; 10; 11; 12; 13; 14; 15; 16; 17; 18; 19; 20].
Proof.
  assert (Hfeed : forall earlier roundId,
             Oracle.getRoundData steadyFeed earlier roundId
             = Ok (Oracle.mkRound (100 * roundId) (roundId * 100000000)))
    by reflexivity.
  split; [exact Hfeed|].
  destruct (@build_requests_every_round steadyFeed _ Hfeed (1450 # 1) (5000 # 1)
              (Oracle.mkWorld (Some (steadyRounds [20; 19; 18])) []))
    as (r & Hstops & Hreq & _).
  rewrite Hreq.
  assert (Hr : r = 14).
  { apply (@stopsAt_unique _ (1450 # 1) (Oracle.latestRound steadyFeed) r 14 Hstops).
    split; [cbn; lia|]. split; [reflexivity|].
    intros roundId Hid. cbn in Hid.
    assert (Hcases : In roundId [15; 16; 17; 18; 19; 20]) by (cbn; lia).
    repeat (destruct Hcases as [<-|Hcases]; [reflexivity|]). contradiction. }
  subst r. reflexivity.
Defined.

(** ** The temporal matcher of each script *)

(** The 90 day script: a swap whose record is built is paired with an
    observation whose timestamp is at most the swap's and is the greatest
    among the observations at or before the swap, and the record carries
    that observation's price, its date and the gap between the two
    timestamps; when no observation is at or before the swap, the record
    carries the "N/A" sentinel instead. *)
Theorem simulation_pairs_with_latest_observation
  (prices : list PriceData.t) (swap : Swap.t) (d : Simulation.SwapData.t) :
  Simulation.computeSwapData prices swap = Ok d ->
  match Simulation.SwapData.chainlinkPrice d with
  | Val cp =>
      exists o,
        latestAtOrBefore PriceData.timestamp prices (Swap.timestamp swap) o
        /\ cp = PriceData.price o
        /\ Simulation.SwapData.chainlinkTimestamp d
           = Val (PriceData.timestamp o * 1000)%Z
        /\ Simulation.SwapData.timeDifference d
           = Val (Z.abs (Swap.timestamp swap - PriceData.timestamp o))
  | NA =>
      (forall o, In o prices -> Swap.timestamp swap < PriceData.timestamp o)
      /\ Simulation.SwapData.chainlinkTimestamp d = NA
      /\ Simulation.SwapData.timeDifference d = NA
  end.
Proof.
  intros H.
  pose proof (findChainlinkPriceData_spec PriceData.timestamp prices
                (Swap.timestamp swap)) as M.
  open_swapData H; cbv beta iota in M.
  - unfold toISOString in Hiso.
    destruct (Z.abs (PriceData.timestamp obs * 1000) <=? MAX_TIME_VALUE);
      [|discriminate Hiso].
    injection Hiso as <-.
    exists obs. repeat split; apply M.
  - repeat split. exact M.
Qed.

(** The sample buy against three rounds, one of them later than the swap,
    and against the two observations of nine digits. *)
Lemma simulation_pairs_with_latest_observation_witness :
  (exists d o,
      Simulation.computeSwapData threeRounds sampleBuy = Ok d
      /\ Simulation.SwapData.chainlinkPrice d = Val (Fin 3050)
      /\ latestAtOrBefore PriceData.timestamp threeRounds 1700000000 o
      /\ Fin 3050 = PriceData.price o
      /\ Simulation.SwapData.timeDifference d
         = Val (Z.abs (1700000000 - PriceData.timestamp o)))
  /\
  (exists d o,
      Simulation.computeSwapData nineDigitRounds sampleBuy = Ok d
      /\ Simulation.SwapData.chainlinkPrice d = Val (Fin 4000)
      /\ latestAtOrBefore PriceData.timestamp nineDigitRounds 1700000000 o
      /\ Fin 4000 = PriceData.price o).
Proof.
  split.
  - destruct (Simulation.computeSwapData threeRounds sampleBuy) as [d|e] eqn:Hrun;
      [|vm_compute in Hrun; discriminate Hrun].
    pose proof (@simulation_pairs_with_latest_observation threeRounds sampleBuy d Hrun)
      as H.
    pose proof Hrun as Hval. vm_compute in Hval. injection Hval as <-.
    destruct H as (o & Hlatest & Hprice & _ & Hgap).
    eexists. exists o. split; [reflexivity|]. split; [reflexivity|].
    split; [exact Hlatest|]. split; [exact Hprice | exact Hgap].
  - destruct (Simulation.computeSwapData nineDigitRounds sampleBuy) as [d|e] eqn:Hrun;
      [|vm_compute in Hrun; discriminate Hrun].
    pose proof (@simulation_pairs_with_latest_observation nineDigitRounds sampleBuy d
                  Hrun) as H.
    pose proof Hrun as Hval. vm_compute in Hval. injection Hval as <-.
    destruct H as (o & Hlatest & Hprice & _).
    eexists. exists o. split; [reflexivity|]. split; [reflexivity|].
    split; [exact Hlatest | exact Hprice].
Defined.

(** [app.js]: a swap whose record is built is paired with the observation
    of greatest timestamp among those whose timestamp, written in decimal,
    is at or below the swap's in the order of strings; when no observation
    is so, the record carries the "N/A" sentinel.  When the timestamps of
    the swap and of all the observations are written with the same number
    of digits, that observation is the latest one at or before the swap,
    and the sentinel means that every observation is later than the swap. *)
Theorem app_pairs_by_decimal_strings
  (appPrices : list App.PriceData.t) (swap : Swap.t) (d : App.SwapData.t) :
  App.computeSwapData appPrices swap = Ok d ->
  let qualifies o :=
    String.leb (toString (App.PriceData.timestamp o))
               (toString (Swap.timestamp swap)) in
  let sameWidth :=
    exists k, sameDigits k (Swap.timestamp swap)
              /\ forall o, In o appPrices -> sameDigits k (App.PriceData.timestamp o) in
  match App.SwapData.chainlinkPrice d with
  | Val cp =>
      exists o,
        In o appPrices /\ qualifies o = true
        /\ (forall o', In o' appPrices -> qualifies o' = true ->
                       App.PriceData.timestamp o' <= App.PriceData.timestamp o)
        /\ cp = App.PriceData.price o
        /\ App.SwapData.chainlinkTimestamp d
           = Val (App.PriceData.timestamp o * 1000)%Z
        /\ App.SwapData.timeDifference d
           = Val (Z.abs (Swap.timestamp swap - App.PriceData.timestamp o))
        /\ (sameWidth ->
            latestAtOrBefore App.PriceData.timestamp appPrices (Swap.timestamp swap) o)
  | NA =>
      (forall o, In o appPrices -> qualifies o = false)
      /\ App.SwapData.chainlinkTimestamp d = NA
      /\ App.SwapData.timeDifference d = NA
      /\ (sameWidth ->
          forall o, In o appPrices -> Swap.timestamp swap < App.PriceData.timestamp o)
  end.
Proof.
  intros H. cbv zeta.
  pose proof (app_matcher_spec appPrices (Swap.timestamp swap)) as M.
  pose proof (findChainlinkPriceData_spec App.PriceData.timestamp appPrices
                (Swap.timestamp swap)) as N.
  cbv zeta in M.
  open_swapData H; cbv beta iota in M.
  - unfold toISOString in Hiso.
    destruct (Z.abs (App.PriceData.timestamp obs * 1000) <=? MAX_TIME_VALUE);
      [|discriminate Hiso].
    injection Hiso as <-.
    exists obs. destruct M as (Hin & Hq & Hmax).
    do 6 (split; [assumption || reflexivity|]).
    intros (k & Hswap & Hprices).
    rewrite <- (@app_matcher_same_digits k appPrices _ Hprices Hswap), Hfind in N.
    exact N.
  - do 3 (split; [assumption || reflexivity|]).
    intros (k & Hswap & Hprices).
    rewrite <- (@app_matcher_same_digits k appPrices _ Hprices Hswap), Hfind in N.
    exact N.
Qed.

(** The sample buy against the two observations of nine digits, and against
    a round of ten digits. *)
Lemma app_pairs_by_decimal_strings_witness :
  (exists d,
      App.computeSwapData appNineDigitRounds sampleBuy = Ok d
      /\ App.SwapData.chainlinkPrice d = Val (Fin 2400)
      /\ String.leb (toString 999999999) (toString 1700000000) = false)
  /\
  (exists d o,
      App.computeSwapData appRoundAt3100 sampleBuy = Ok d
      /\ App.SwapData.chainlinkPrice d = Val (Fin 3100)
      /\ latestAtOrBefore App.PriceData.timestamp appRoundAt3100 1700000000 o
      /\ Fin 3100 = App.PriceData.price o).
Proof.
  split.
  - destruct (App.computeSwapData appNineDigitRounds sampleBuy) as [d|e] eqn:Hrun;
      [|vm_compute in Hrun; discriminate Hrun].
    pose proof (@app_pairs_by_decimal_strings appNineDigitRounds sampleBuy d Hrun) as H.
    pose proof Hrun as Hval. vm_compute in Hval. injection Hval as <-.
    destruct H as (o & _).
    eexists. split; [reflexivity|]. split; [reflexivity | vm_compute; reflexivity].
  - destruct (App.computeSwapData appRoundAt3100 sampleBuy) as [d|e] eqn:Hrun;
      [|vm_compute in Hrun; discriminate Hrun].
    pose proof (@app_pairs_by_decimal_strings appRoundAt3100 sampleBuy d Hrun) as H.
    pose proof Hrun as Hval. vm_compute in Hval. injection Hval as <-.
    destruct H as (o & _ & _ & _ & Hprice & _ & _ & Hlatest).
    eexists. exists o. split; [reflexivity|]. split; [reflexivity|].
    split; [|exact Hprice].
    apply Hlatest. exists 9%nat.
    assert (Hten : 10 ^ Z.of_nat 9 = 1000000000 /\ 10 ^ Z.of_nat 10 = 10000000000)
      by (split; reflexivity).
    split; [|intros o' [<-|[]]]; unfold sameDigits; destruct Hten as [-> ->];
      cbn; lia.
Defined.
